(** * DeMoN point-cloud viewer utilities ([demon/utils/vis.py])

    A shallow embedding of the numeric and scene-building code of
    [vis.py], and the properties of it that the specification states.

    - NumPy arrays are records of a shape and a row-major buffer, as
      NumPy stores them.  Operations that raise in NumPy return [None].
    - Floating point numbers are read as real numbers ([R]); code that
      only moves or combines array elements is written over any scalar
      type, so that it also runs on arrays of (unbounded) integers.
    - Where the code takes a branch on a rounded number, in
      [angleaxis_to_rotation_matrix], the function is also given on
      IEEE 754 binary64 numbers (module [Binary64]), and what depends on
      the branch taken is stated there.
    - The rendering toolkit is an external library: an actor is the record
      of what the code hands to it (points, cells, style). *)

From Stdlib Require Import String.
From Stdlib Require Import List Arith ZArith Bool Lia.
From Stdlib Require Import Reals Lra Ring RNsatz.
From Stdlib Require SpecFloat.
Import ListNotations.

Set Implicit Arguments.

(** ** Scalars *)

Class Scalar (F : Type) : Type := {
  s0 : F;
  s1 : F;
  sadd : F -> F -> F;
  ssub : F -> F -> F;
  smul : F -> F -> F;
  sopp : F -> F
}.

#[export] Instance Scalar_Z : Scalar Z :=
  {| s0 := 0%Z; s1 := 1%Z; sadd := Z.add; ssub := Z.sub; smul := Z.mul;
     sopp := Z.opp |}.

#[export] Instance Scalar_R : Scalar R :=
  {| s0 := 0%R; s1 := 1%R; sadd := Rplus; ssub := Rminus; smul := Rmult;
     sopp := Ropp |}.

(** The ring laws, for the claims that compute with the entries. *)
Definition scalar_ring (F : Type) `{Scalar F} : Prop :=
  ring_theory s0 s1 sadd smul ssub sopp (@eq F).

Arguments scalar_ring F {_}.

(** ** The option monad, for operations that can raise *)

Definition obind {A B : Type} (m : option A) (f : A -> option B) : option B :=
  match m with
  | Some a => f a
  | None => None
  end.

Declare Scope opt_scope.
Delimit Scope opt_scope with opt.
Notation "x <- m ;; k" := (obind m (fun x => k))
  (at level 61, m at next level, right associativity) : opt_scope.
Notation "' p <- m ;; k" := (obind m (fun p => k))
  (at level 61, p pattern, m at next level, right associativity) : opt_scope.

Definition guard (b : bool) : option unit := if b then Some tt else None.

(** ** Arrays *)

Record ndarray (A : Type) : Type := mk_nd {
  shape : list nat;
  data : list A
}.

Arguments mk_nd {A} shape data.

Definition size (sh : list nat) : nat := fold_right Nat.mul 1 sh.

(** The buffer holds exactly the elements the shape announces. *)
Definition wf {A : Type} (a : ndarray A) : Prop :=
  length (data a) = size (shape a).

Definition ndim {A : Type} (a : ndarray A) : nat := length (shape a).

Section Rows.
Variable A : Type.

(** [chunks c n l]: the first [n] rows of width [c] of a row-major buffer. *)
Fixpoint chunks (c n : nat) (l : list A) : list (list A) :=
  match n with
  | O => []
  | S n' => firstn c l :: chunks c n' (skipn c l)
  end.

(** The rows of a 2-d array. *)
Definition rows_of (a : ndarray A) : option (list (list A)) :=
  match shape a with
  | [n; c] => Some (chunks c n (data a))
  | _ => None
  end.

(** The 2-d array with the given rows, each of width [c]. *)
Definition of_rows (c : nat) (rows : list (list A)) : ndarray A :=
  mk_nd [length rows; c] (concat rows).

Definition rect (c : nat) (rows : list (list A)) : Prop :=
  Forall (fun r => length r = c) rows.

(** Column [j] of a list of rows. *)
Definition column (j : nat) (rows : list (list A)) : list A :=
  flat_map (fun r => match nth_error r j with
                     | Some x => [x]
                     | None => []
                     end) rows.

Definition transpose_rows (c : nat) (rows : list (list A)) : list (list A) :=
  map (fun j => column j rows) (seq 0 c).

(** [a.transpose()]: reverses the axes; arrays of at most one
    dimension are returned as they are.  Arrays of three or more
    dimensions do not reach it in this file. *)
Definition np_transpose (a : ndarray A) : option (ndarray A) :=
  match shape a with
  | [] | [_] => Some a
  | [n; c] => Some (of_rows n (transpose_rows c (chunks c n (data a))))
  | _ => None
  end.

(** [a[lo:hi]]: a slice of the first axis, clipped as Python clips it. *)
Definition np_slice0 (lo hi : nat) (a : ndarray A) : option (ndarray A) :=
  match shape a with
  | [] => None
  | n :: rest =>
      let lo' := Nat.min lo n in
      let hi' := Nat.min hi n in
      Some (mk_nd ((hi' - lo') :: rest)
              (firstn ((hi' - lo') * size rest)
                 (skipn (lo' * size rest) (data a))))
  end.

(** One row of [dst[:, lo:lo+w] = src]; a source row of one element is
    broadcast over the slice. *)
Definition put_cols (lo w : nat) (row srcrow : list A) : list A :=
  firstn lo row
    ++ match srcrow with
       | [x] => repeat x w
       | _ => srcrow
       end
    ++ skipn (lo + w) row.

(** [dst[:, lo:hi] = src] for 2-d [dst] and [src] with as many rows.
    The source must have the width of the slice, or one column. *)
Definition np_set_cols (dst : ndarray A) (lo hi : nat) (src : ndarray A)
  : option (ndarray A) :=
  match shape dst, shape src with
  | [n; c], [n'; c'] =>
      let w := Nat.min hi c - Nat.min lo c in
      if (n' =? n) && ((c' =? w) || (c' =? 1)) then
        Some (of_rows c
                (map (fun rr => put_cols (Nat.min lo c) w (fst rr) (snd rr))
                   (combine (chunks c n (data dst))
                      (chunks c' n' (data src)))))
      else None
  | _, _ => None
  end.

(** [dst[:, j] = v] for a 2-d [dst] and a scalar [v]. *)
Definition np_set_col (dst : ndarray A) (j : nat) (v : A)
  : option (ndarray A) :=
  match shape dst with
  | [n; c] =>
      if j <? c then
        Some (of_rows c
                (map (fun row => firstn j row ++ v :: skipn (S j) row)
                   (chunks c n (data dst))))
      else None
  | _ => None
  end.

(** [dst[i, j] = v] for a 2-d [dst]. *)
Definition np_set_item (dst : ndarray A) (i j : nat) (v : A)
  : option (ndarray A) :=
  match shape dst with
  | [n; c] =>
      if (i <? n) && (j <? c) then
        Some (mk_nd [n; c]
                (firstn (i * c + j) (data dst)
                   ++ v :: skipn (S (i * c + j)) (data dst)))
      else None
  | _ => None
  end.

(** [a[i, j]] for a 2-d [a]. *)
Definition np_get_item (a : ndarray A) (i j : nat) : option A :=
  match shape a with
  | [n; c] =>
      if (i <? n) && (j <? c) then nth_error (data a) (i * c + j)
      else None
  | _ => None
  end.

(** [a[i]] for a 1-d [a]. *)
Definition np_get (a : ndarray A) (i : nat) : option A :=
  match shape a with
  | [n] => if i <? n then nth_error (data a) i else None
  | _ => None
  end.

Fixpoint shape_eqb (a b : list nat) : bool :=
  match a, b with
  | [], [] => true
  | x :: a', y :: b' => (x =? y) && shape_eqb a' b'
  | _, _ => false
  end.

(** [np.atleast_2d] on shapes. *)
Definition atleast_2d (sh : list nat) : list nat :=
  match sh with
  | [] => [1; 1]
  | [n] => [1; n]
  | _ => sh
  end.

(** [np.vstack([a, b])]: both operands are made at least 2-d and must
    agree on every axis but the first. *)
Definition np_vstack (a b : ndarray A) : option (ndarray A) :=
  match atleast_2d (shape a), atleast_2d (shape b) with
  | n :: ra, m :: rb =>
      if shape_eqb ra rb then
        Some (mk_nd ((n + m) :: ra) (data a ++ data b))
      else None
  | _, _ => None
  end.

(** [a.squeeze()]: drops the axes of length one. *)
Definition np_squeeze (a : ndarray A) : ndarray A :=
  mk_nd (filter (fun n => negb (n =? 1)) (shape a)) (data a).

(** [np.full(shape, v)]; [np.empty] is [np.full] with whatever the
    memory held. *)
Definition np_full (sh : list nat) (v : A) : ndarray A :=
  mk_nd sh (repeat v (size sh)).
End Rows.

Arguments rows_of {A} a.
Arguments of_rows {A} c rows.
Arguments rect {A} c rows.
Arguments column {A} j rows.
Arguments transpose_rows {A} c rows.
Arguments chunks {A} c n l.
Arguments np_transpose {A} a.
Arguments np_slice0 {A} lo hi a.
Arguments put_cols {A} lo w row srcrow.
Arguments np_set_cols {A} dst lo hi src.
Arguments np_set_col {A} dst j v.
Arguments np_set_item {A} dst i j v.
Arguments np_get_item {A} a i j.
Arguments np_get {A} a i.
Arguments np_vstack {A} a b.
Arguments np_squeeze {A} a.
Arguments np_full {A} sh v.

Section Arith.
Context {F : Type} `{Scalar F}.

(** The sum of the products of the paired elements. *)
Fixpoint inner (u v : list F) : F :=
  match u, v with
  | x :: u', y :: v' => sadd (smul x y) (inner u' v')
  | _, _ => s0
  end.

Definition dot_rows (m : nat) (ra rb : list (list F)) : list (list F) :=
  map (fun r => map (fun j => inner r (column j rb)) (seq 0 m)) ra.

(** [a.dot(b)] for two 1-d arrays (the inner product, a 0-d result) and
    for two 2-d arrays (the matrix product).  Other ranks do not reach
    it with the shapes the docstrings give and are reported as errors. *)
Definition np_dot (a b : ndarray F) : option (ndarray F) :=
  match shape a, shape b with
  | [n], [n'] =>
      if n =? n' then Some (mk_nd [] [inner (data a) (data b)]) else None
  | [n; k], [k'; m] =>
      if k =? k' then
        Some (of_rows m
                (dot_rows m (chunks k n (data a)) (chunks m k' (data b))))
      else None
  | _, _ => None
  end.

Definition eye_row (n i : nat) : list F :=
  map (fun j => if i =? j then s1 else s0) (seq 0 n).

(** [np.eye(n)] *)
Definition np_eye (n : nat) : ndarray F :=
  of_rows n (map (eye_row n) (seq 0 n)).

(** [np.zeros(shape)], [np.ones(shape)] *)
Definition np_zeros (sh : list nat) : ndarray F := np_full sh s0.
Definition np_ones (sh : list nat) : ndarray F := np_full sh s1.

(** [c * a] for a scalar [c]. *)
Definition np_scale (c : F) (a : ndarray F) : ndarray F :=
  mk_nd (shape a) (map (smul c) (data a)).

(** [a - t] for a 2-d [a] and a 1-d [t] broadcast over the rows: [t]
    has the width of [a], or one element.  (NumPy also broadcasts a [t]
    of two dimensions; the docstrings give a vector, and other ranks are
    reported as errors.) *)
Definition np_sub_rows (a t : ndarray F) : option (ndarray F) :=
  match shape a, shape t with
  | [n; c], [c'] =>
      if (c' =? c) || (c' =? 1) then
        Some (of_rows c
                (map (fun row =>
                        map (fun xy => ssub (fst xy) (snd xy))
                          (combine row
                             match data t with
                             | [x] => repeat x c
                             | _ => data t
                             end))
                   (chunks c n (data a))))
      else None
  | _, _ => None
  end.
End Arith.

(** ** The store of array objects

    [transform_pointcloud_points] writes into an array it allocates.  To
    say which arrays a call leaves as they were, arrays live in a store
    and the code handles references to them. *)

Definition loc : Type := nat.

Section Store.
Variable E : Type.

Definition store : Type := list (ndarray E).

Definition M (A : Type) : Type := store -> option (A * store).

Definition ret {A : Type} (a : A) : M A := fun h => Some (a, h).

Definition bind {A B : Type} (m : M A) (f : A -> M B) : M B :=
  fun h => match m h with
           | Some (a, h') => f a h'
           | None => None
           end.

Definition lift {A : Type} (o : option A) : M A :=
  fun h => match o with
           | Some a => Some (a, h)
           | None => None
           end.

Definition load (l : loc) : M (ndarray E) := fun h => lift (nth_error h l) h.

Definition alloc (a : ndarray E) : M loc := fun h => Some (length h, h ++ [a]).

Definition write (l : loc) (a : ndarray E) : M unit :=
  fun h => if l <? length h
           then Some (tt, firstn l h ++ a :: skipn (S l) h)
           else None.
End Store.

Arguments ret {E A} a.
Arguments bind {E A B} m f.
Arguments lift {E A} o.
Arguments load {E} l.
Arguments alloc {E} a.
Arguments write {E} l a.

Declare Scope store_scope.
Delimit Scope store_scope with st.
Notation "x <- m ;; k" := (bind m (fun x => k))
  (at level 61, m at next level, right associativity) : store_scope.
Notation "m ;;; k" := (bind m (fun _ => k))
  (at level 61, right associativity) : store_scope.

Section Transform.
Context {F : Type} `{Scalar F}.

(** What a freshly allocated, uninitialised buffer holds. *)
Variable uninit : F.

Local Open Scope store_scope.
Local Abbreviation M := (M F).

(** [np.empty(shape)] *)
Definition np_empty (sh : list nat) : M loc := alloc (np_full sh uninit).

(** [dst[:, lo:hi] = src] *)
Definition assign_cols (dst : loc) (lo hi : nat) (src : loc) : M unit :=
  d <- load dst ;;
  s <- load src ;;
  d' <- lift (np_set_cols d lo hi s) ;;
  write dst d'.

(** [dst[:, j] = v] *)
Definition assign_col (dst : loc) (j : nat) (v : F) : M unit :=
  d <- load dst ;;
  d' <- lift (np_set_col d j v) ;;
  write dst d'.

(** The array-valued operations of NumPy return a new array object.
    (A transpose or a slice is a view of its operand; no code of this
    file writes through one, so a view is represented by its content.) *)
Definition transpose (a : loc) : M loc :=
  x <- load a ;;
  y <- lift (np_transpose x) ;;
  alloc y.

Definition dot (a b : loc) : M loc :=
  x <- load a ;;
  y <- load b ;;
  z <- lift (np_dot x y) ;;
  alloc z.

Definition slice0 (lo hi : nat) (a : loc) : M loc :=
  x <- load a ;;
  y <- lift (np_slice0 lo hi x) ;;
  alloc y.

(** [points.shape[i]] *)
Definition shape_at (a : loc) (i : nat) : M nat :=
  x <- load a ;;
  lift (nth_error (shape x) i).

(** [vis.py], lines 375-389. *)
Definition transform_pointcloud_points (points T : loc) : M loc :=
  n <- shape_at points 0 ;;
  c <- shape_at points 1 ;;
  tmp <- np_empty [n; c + 1] ;;
  assign_cols tmp 0 3 points ;;;
  assign_col tmp 3 s1 ;;;
  tmpT <- transpose tmp ;;
  prod <- dot T tmpT ;;
  top <- slice0 0 3 prod ;;
  transpose top.
End Transform.

(** What the specification says [transform_pointcloud_points] returns,
    on the rows of [T] and of the points: each point is augmented with a
    homogeneous coordinate of 1, the transposed augmented array is
    multiplied on the left by [T], the homogeneous (last) row is dropped,
    and the result is transposed back. *)
Section TransformSpec.
Context {F : Type} `{Scalar F}.

Definition augmented (prows : list (list F)) : list (list F) :=
  map (fun p => p ++ [s1]) prows.

Definition transform_spec (trows prows : list (list F)) : list (list F) :=
  let n := length prows in
  let product := dot_rows n trows (transpose_rows 4 (augmented prows)) in
  transpose_rows n (removelast product).

(** The same, point by point: the first three rows of [T] applied to
    the augmented point. *)
Definition apply_affine (trows : list (list F)) (q : list F) : list F :=
  map (fun r => inner r (q ++ [s1])) (firstn 3 trows).

(** [T[3] == [0, 0, 0, 1]]: the transform is affine. *)
Definition affine (T : ndarray F) : Prop :=
  np_slice0 3 4 T = Some (mk_nd [1; 4] [s0; s0; s0; s1]).
End TransformSpec.

(** ** Real arithmetic with a checked, counted division

    The real numbers have no value for a division by zero.  A division is
    an effect: it is counted, and it fails on a zero divisor. *)

Definition Eff (A : Type) : Type := (nat * option A)%type.

(** The number of divisions a computation performed, and its outcome. *)
Definition divisions {A : Type} (m : Eff A) : nat := fst m.
Definition outcome {A : Type} (m : Eff A) : option A := snd m.

Definition eret {A : Type} (a : A) : Eff A := (0, Some a).

Definition ebind {A B : Type} (m : Eff A) (f : A -> Eff B) : Eff B :=
  match m with
  | (k, Some a) => (k + divisions (f a), outcome (f a))
  | (k, None) => (k, None)
  end.

Definition elift {A : Type} (o : option A) : Eff A := (0, o).

Definition divide (x y : R) : Eff R :=
  (1, if Req_EM_T y 0 then None else Some (x / y)%R).

Declare Scope eff_scope.
Delimit Scope eff_scope with eff.
Notation "x <- m ;; k" := (ebind m (fun x => k))
  (at level 61, m at next level, right associativity) : eff_scope.

(** [a.item()]: the element of an array of one element. *)
Definition np_item {A : Type} (a : ndarray A) : option A :=
  match data a with
  | [x] => Some x
  | _ => None
  end.

(** [np.sqrt(a)] *)
Definition np_sqrt (a : ndarray R) : ndarray R :=
  mk_nd (shape a) (map sqrt (data a)).

(** ** The rendering toolkit

    What the code hands to the toolkit: the points, the optional colours
    and the cells of a poly-data object, and the properties of its actor. *)

Record actor : Type := mk_actor {
  act_points : list (R * R * R);
  act_colors : option (list (Z * Z * Z));
  act_verts : list (list nat);
  act_lines : list (list nat);
  act_polys : list (list nat);
  act_lighting : bool;
  act_line_width : nat;
  act_point_size : nat
}.

(** The axes gizmo: caption height, cylinder radius. *)
Record axes_actor : Type := mk_axes {
  caption_height : R;
  cylinder_radius : R
}.

(** The scene at the time the interactor is started. *)
Record scene : Type := mk_scene {
  background : R * R * R;
  pointcloud_actor : actor;
  camera_actors : list actor;
  axes : axes_actor;
  window_name : String.string;
  window_size : nat * nat
}.

(** The dictionary of a point cloud.  [None] stands for the value [None]
    and for an absent key: the code reads ['colors'] either behind a
    test for the key, which maps both to [None], or to stack it, which
    fails on both. *)
Record pointcloud : Type := mk_pointcloud {
  pc_points : option (ndarray R);
  pc_colors : option (ndarray Z)
}.

(** An entry of the dictionary [depths]: ['depth'] and the optional ['color']. *)
Record vis_entry : Type := mk_vis {
  vis_depth : ndarray R;
  vis_color : option (ndarray R)
}.

(** [vpoints.SetPoint(i, row)]: the toolkit takes three coordinates. *)
Definition vtk_point (row : list R) : option (R * R * R) :=
  match row with
  | [x; y; z] => Some (x, y, z)
  | _ => None
  end.

Fixpoint all_some {A : Type} (l : list (option A)) : option (list A) :=
  match l with
  | [] => Some []
  | Some x :: l' => option_map (cons x) (all_some l')
  | None :: _ => None
  end.

Section Viewer.
Local Open Scope R_scope.

(** What a freshly allocated, uninitialised buffer holds. *)
Variable uninit : R.

(** The conversion of a floating point number to an unsigned byte
    ([np.uint8], [astype(np.uint8)]), which the C compiler defines. *)
Variable uint8 : R -> Z.

(** The compiled kernel [vis_cython.compute_point_cloud_from_depthmap],
    which is not part of the sources: depth, K, R, t, normals, colors. *)
Variable _compute_point_cloud_from_depthmap :
  ndarray R -> ndarray R -> ndarray R -> ndarray R ->
  option (ndarray R) -> option (ndarray Z) -> option pointcloud.

(** [vis.py], lines 22-42, in exact arithmetic: the norm is the real
    square root and the threshold the real number 10^-6.  It is used for
    what holds on both branches; [Binary64.angleaxis_to_rotation_matrix]
    below has the rounded norm and the rounded threshold. *)
Definition angleaxis_to_rotation_matrix (aa : ndarray R) : Eff (ndarray R) :=
  (angle <- elift (d <- np_dot aa aa ;; np_item (np_sqrt d))%opt ;;
   if Rlt_dec 1e-6 angle then
     let c := cos angle in
     let s := sin angle in
     a0 <- elift (np_get aa 0) ;; u0 <- divide a0 angle ;;
     a1 <- elift (np_get aa 1) ;; u1 <- divide a1 angle ;;
     a2 <- elift (np_get aa 2) ;; u2 <- divide a2 angle ;;
     let R0 := np_full [3; 3]%nat uninit in
     elift
       (R1 <- np_set_item R0 0 0 (c+u0*u0*(1-c)) ;;
        R2 <- np_set_item R1 0 1 (u0*u1*(1-c)-u2*s) ;;
        R3 <- np_set_item R2 0 2 (u0*u2*(1-c)+u1*s) ;;
        R4 <- np_set_item R3 1 0 (u1*u0*(1-c)+u2*s) ;;
        R5 <- np_set_item R4 1 1 (c+u1*u1*(1-c)) ;;
        R6 <- np_set_item R5 1 2 (u1*u2*(1-c)-u0*s) ;;
        R7 <- np_set_item R6 2 0 (u2*u0*(1-c)-u1*s) ;;
        R8 <- np_set_item R7 2 1 (u2*u1*(1-c)+u0*s) ;;
        np_set_item R8 2 2 (c+u2*u2*(1-c)))%opt
   else eret (np_eye 3))%eff.

(** [vis.py], lines 45-69: the wrapper hands its arguments to the kernel. *)
Definition compute_point_cloud_from_depthmap
    (depth K Rm t : ndarray R) (normals : option (ndarray R))
    (colors : option (ndarray Z)) : option pointcloud :=
  _compute_point_cloud_from_depthmap depth K Rm t normals colors.

(** The local vertices of the camera mesh, [vis.py], lines 74-86. *)
Definition cam_points : ndarray R :=
  of_rows 3
    [[0; 0; 0];
     [-1;-1; 1.5];
     [ 1;-1; 1.5];
     [ 1; 1; 1.5];
     [-1; 1; 1.5];
     [-0.5; 1; 1.5];
     [ 0.5; 1; 1.5];
     [ 0;1.2;1.5];
     [ 1;-0.5;1.5];
     [ 1; 0.5;1.5];
     [ 1.2; 0; 1.5]].

(** [vis.py], lines 72-140. *)
Definition create_camera_actor (Rm t : ndarray R) : option actor :=
  (shifted <- np_sub_rows (np_scale 0.25 cam_points) t ;;
   placed <- np_dot shifted Rm ;;
   rows <- rows_of placed ;;
   vpoints <- all_some (map vtk_point rows) ;;
   Some {| act_points := vpoints;
           act_colors := None;
           act_verts := [];
           act_lines := [[1; 2; 3; 4; 1]; [1; 0; 2]; [3; 0; 4]; [8; 10; 9]]%nat;
           act_polys := [[5; 6; 7]]%nat;
           act_lighting := false;
           act_line_width := 2;
           act_point_size := 1 |})%opt.

(** [vis.py], lines 143-186. *)
Definition create_pointcloud_actor (points : ndarray R)
    (colors : option (ndarray Z)) : option actor :=
  (n <- nth_error (shape points) 0 ;;
   rows <- rows_of points ;;
   vpoints <- all_some (map vtk_point rows) ;;
   vcolors <- match colors with
              | None => Some None
              | Some cs =>
                  option_map Some
                    (all_some
                       (map (fun i =>
                               r <- np_get_item cs i 0 ;;
                               g <- np_get_item cs i 1 ;;
                               b <- np_get_item cs i 2 ;;
                               Some (r, g, b))
                          (seq 0 n)))
              end ;;
   Some {| act_points := vpoints;
           act_colors := vcolors;
           act_verts := map (fun i => [i]) (seq 0 n);
           act_lines := [];
           act_polys := [];
           act_lighting := true;
           act_line_width := 1;
           act_point_size := 3 |})%opt.

(** The default, normalised intrinsics. *)
Definition default_intrinsics : ndarray R :=
  mk_nd [4%nat] [0.89115971; 1.18821287; 0.5; 0.5].

(** The camera matrix of an image of [h] rows and [w] columns,
    [vis.py], lines 209-213 and 307-311. *)
Definition camera_matrix (intrinsics : ndarray R) (h w : nat)
  : option (ndarray R) :=
  (i0 <- np_get intrinsics 0 ;;
   K1 <- np_set_item (np_eye 3) 0 0 (i0 * INR w) ;;
   i1 <- np_get intrinsics 1 ;;
   K2 <- np_set_item K1 1 1 (i1 * INR h) ;;
   i2 <- np_get intrinsics 2 ;;
   K3 <- np_set_item K2 0 2 (i2 * INR w) ;;
   i3 <- np_get intrinsics 3 ;;
   np_set_item K3 1 2 (i3 * INR h))%opt.

(** [img[i, :, :] *= v] for an image of shape (3, h, w). *)
Definition scale_plane (img : ndarray R) (i : nat) (v : R) : option (ndarray R) :=
  match shape img with
  | [k; h; w] =>
      if (i <? k)%nat then
        let hw := (h * w)%nat in
        Some (mk_nd [k; h; w]
                (firstn (i * hw) (data img)
                   ++ map (fun x => x * v) (firstn hw (skipn (i * hw) (data img)))
                   ++ skipn (S i * hw) (data img)))
      else None
  | _ => None
  end.

(** The colour image of an entry, [vis.py], lines 215-225. *)
Definition entry_image (v : vis_entry) (h w : nat) : option (ndarray Z) :=
  (let img := np_ones [3; h; w]%nat in
   img' <- match vis_color v with
           | Some color =>
               if (ndim color =? 1)%nat then
                 c0 <- np_get color 0 ;; img0 <- scale_plane img 0 c0 ;;
                 c1 <- np_get color 1 ;; img1 <- scale_plane img0 1 c1 ;;
                 c2 <- np_get color 2 ;; scale_plane img1 2 c2
               else
                 k <- nth_error (shape color) 0 ;;
                 _ <- guard (k =? 3)%nat ;;
                 Some color
           | None =>
               Some (mk_nd (shape img) (map (fun x => x * 255) (data img)))
           end ;;
   Some (mk_nd (shape img') (map uint8 (data img'))))%opt.

(** The body of the loop over [depths.items()], [vis.py], lines 207-236:
    the dictionary [pointcloud] before and after one entry. *)
Definition visualize_depths_step (intrinsics Rm t : ndarray R)
    (acc : pointcloud) (v : vis_entry) : option pointcloud :=
  (let depth := vis_depth v in
   '(h, w) <- match shape depth with
              | [h; w] => Some (h, w)
              | _ => None
              end ;;
   K <- camera_matrix intrinsics h w ;;
   img <- entry_image v h w ;;
   match pc_points acc with
   | None => compute_point_cloud_from_depthmap depth K Rm t None (Some img)
   | Some acc_points =>
       pointcloud_cur <-
         compute_point_cloud_from_depthmap depth K Rm t None (Some img) ;;
       cur_points <- pc_points pointcloud_cur ;;
       points <- np_vstack cur_points acc_points ;;
       cur_colors <- pc_colors pointcloud_cur ;;
       acc_colors <- pc_colors acc ;;
       colors <- np_vstack cur_colors acc_colors ;;
       Some {| pc_points := Some points; pc_colors := Some colors |}
   end)%opt.

(** The loop, in the order of [depths.items()]. *)
Fixpoint visualize_depths_loop (intrinsics Rm t : ndarray R)
    (acc : pointcloud) (items : list (String.string * vis_entry))
  : option pointcloud :=
  match items with
  | [] => Some acc
  | (_, v) :: rest =>
      (acc' <- visualize_depths_step intrinsics Rm t acc v ;;
       visualize_depths_loop intrinsics Rm t acc' rest)%opt
  end.

Definition the_axes : axes_actor :=
  {| caption_height := 0.05; cylinder_radius := 0.03 |}.

(** [vis.py], lines 189-272.  The scene is what the interactor shows. *)
Definition visualize_depths (depths : list (String.string * vis_entry))
    (intrinsics : option (ndarray R)) : option scene :=
  (let intrinsics :=
     match intrinsics with
     | None => default_intrinsics
     | Some i => i
     end in
   let pointcloud := {| pc_points := None; pc_colors := None |} in
   let Rm := np_eye 3 in
   let t := np_zeros [3%nat] in
   pointcloud <- visualize_depths_loop intrinsics Rm t pointcloud depths ;;
   points <- pc_points pointcloud ;;
   pointcloud_actor <- create_pointcloud_actor points (pc_colors pointcloud) ;;
   cam1_actor <- create_camera_actor Rm t ;;
   Some {| background := (0, 0, 0);
           pointcloud_actor := pointcloud_actor;
           camera_actors := [cam1_actor];
           axes := the_axes;
           window_name := "Point Cloud Viewer"%string;
           window_size := (800, 600)%nat |})%opt.

(** [vis.py], lines 275-372. *)
Definition visualize_prediction (depth : ndarray R)
    (intrinsics normals rotation translation image : option (ndarray R))
  : option scene :=
  (let depth := np_squeeze depth in
   w <- nth_error (rev (shape depth)) 0 ;;
   h <- nth_error (rev (shape depth)) 1 ;;
   let intrinsics :=
     match intrinsics with
     | None => default_intrinsics
     | Some i => i
     end in
   K <- camera_matrix intrinsics h w ;;
   let R1 := np_eye 3 in
   let t1 := np_zeros [3%nat] in
   '(R2, t2) <- match rotation, translation with
                | Some rotation, Some translation =>
                    R2 <- outcome (angleaxis_to_rotation_matrix
                                     (np_squeeze rotation)) ;;
                    Some (R2, np_squeeze translation)
                | _, _ => Some (np_eye 3, np_zeros [3%nat])
                end ;;
   let n := option_map (@np_squeeze R) normals in
   let img :=
     option_map
       (fun image => mk_nd (shape image)
                       (map (fun x => uint8 ((x + 0.5) * 255)) (data image)))
       image in
   pointcloud <- compute_point_cloud_from_depthmap depth K R1 t1 n img ;;
   points <- pc_points pointcloud ;;
   pointcloud_actor <- create_pointcloud_actor points (pc_colors pointcloud) ;;
   cam1_actor <- create_camera_actor R1 t1 ;;
   cam2_actor <- create_camera_actor R2 t2 ;;
   Some {| background := (0, 0, 0);
           pointcloud_actor := pointcloud_actor;
           camera_actors := [cam1_actor; cam2_actor];
           axes := the_axes;
           window_name := "Point Cloud Viewer"%string;
           window_size := (800, 600)%nat |})%opt.
End Viewer.

(** ** The statements of the specification about the rotation matrix *)

Section RotationSpec.
Local Open Scope R_scope.

(** The Euclidean norm of a vector. *)
Definition euclidean_norm (aa : ndarray R) : R :=
  sqrt (fold_right (fun x acc => x * x + acc) 0 (data aa)).

(** [(i, j, k)] is an even permutation of [(0, 1, 2)]. *)
Definition even_permutation (i j k : nat) : bool :=
  match i, j, k with
  | 0, 1, 2 | 1, 2, 0 | 2, 0, 1 => true
  | _, _, _ => false
  end%nat.

(** The entry [(i, j)] of the rotation matrix in component form, for a
    unit axis [u], [c] the cosine and [s] the sine of the angle, [k] being
    the index other than [i] and [j].  [plus_on_even] tells whether the
    term [u k * s] is added when [(i, j, k)] is an even permutation of
    [(0, 1, 2)] (and subtracted when it is odd), or the other way
    round. *)
Definition rodrigues_entry (plus_on_even : bool) (c s : R) (u : nat -> R)
    (i j : nat) : R :=
  if (i =? j)%nat then c + u i * u i * (1 - c)
  else
    let k := (3 - i - j)%nat in
    if Bool.eqb (even_permutation i j k) plus_on_even
    then u i * u j * (1 - c) + u k * s
    else u i * u j * (1 - c) - u k * s.

(** The matrix [M] has the entries of the component form for the
    axis-angle vector [aa]. *)
Definition has_rodrigues_entries (plus_on_even : bool) (aa M : ndarray R)
  : Prop :=
  let angle := euclidean_norm aa in
  forall i j, (i < 3)%nat -> (j < 3)%nat ->
    np_get_item M i j
    = Some (rodrigues_entry plus_on_even (cos angle) (sin angle)
              (fun k => nth k (data aa) 0 / angle) i j).

(** The determinant of a 3 x 3 array. *)
Definition det3 (M : ndarray R) : option R :=
  match shape M, data M with
  | [3; 3]%nat, [a; b; c; d; e; f; g; h; i] =>
      Some (a * (e * i - f * h) - b * (d * i - f * g) + c * (d * h - e * g))
  | _, _ => None
  end.

(** The array that lines 36-39 of [vis.py] fill, for the cosine [c], the
    sine [s] and the unit axis [(u0, u1, u2)]. *)
Definition rodrigues_matrix (c s u0 u1 u2 : R) : ndarray R :=
  mk_nd [3; 3]%nat
    [c+u0*u0*(1-c);      u0*u1*(1-c)-u2*s; u0*u2*(1-c)+u1*s;
     u1*u0*(1-c)+u2*s; c+u1*u1*(1-c);      u1*u2*(1-c)-u0*s;
     u2*u0*(1-c)-u1*s; u2*u1*(1-c)+u0*s; c+u2*u2*(1-c)].

(** The 3 x 3 identity matrix. *)
Definition identity3 : ndarray R :=
  mk_nd [3; 3]%nat [1; 0; 0;
                    0; 1; 0;
                    0; 0; 1].

(** [M] is orthonormal: its transpose times itself is the identity. *)
Definition orthonormal (M : ndarray R) : Prop :=
  (Mt <- np_transpose M ;; np_dot Mt M)%opt = Some identity3.
End RotationSpec.

(** ** The statements of the specification about the camera mesh *)

Section CameraSpec.
Local Open Scope R_scope.

(** The 11 local vertices. *)
Definition local_vertices : list (R * R * R) :=
  [(0, 0, 0);
   (-1, -1, 1.5); (1, -1, 1.5); (1, 1, 1.5); (-1, 1, 1.5);
   (-0.5, 1, 1.5); (0.5, 1, 1.5); (0, 1.2, 1.5);
   (1, -0.5, 1.5); (1, 0.5, 1.5); (1.2, 0, 1.5)].

(** [(0.25 * P - t) . R] for a row vector [P]: the world position of the
    local vertex [P]. *)
Definition camera_vertex_world (Rm t : ndarray R) (P : R * R * R)
  : R * R * R :=
  let '(px, py, pz) := P in
  let r k j := nth (k * 3 + j) (data Rm) 0 in
  let tv k := nth k (data t) 0 in
  let world j := (0.25 * px - tv 0%nat) * r 0%nat j
                 + (0.25 * py - tv 1%nat) * r 1%nat j
                 + (0.25 * pz - tv 2%nat) * r 2%nat j in
  (world 0%nat, world 1%nat, world 2%nat).

(** [0.25 * P] *)
Definition quarter (P : R * R * R) : R * R * R :=
  let '(px, py, pz) := P in (0.25 * px, 0.25 * py, 0.25 * pz).
End CameraSpec.

(** ** The statements of the specification about the two views *)

Section ViewSpec.
Local Open Scope R_scope.
Variable uint8 : R -> Z.
Variable kernel :
  ndarray R -> ndarray R -> ndarray R -> ndarray R ->
  option (ndarray R) -> option (ndarray Z) -> option pointcloud.

(** The point cloud of one entry of [depths], unprojected on its own:
    the call of the kernel that both branches of lines 227-232 make. *)
Definition entry_cloud (intrinsics : ndarray R) (v : vis_entry)
  : option pointcloud :=
  ('(h, w) <- match shape (vis_depth v) with
              | [h; w] => Some (h, w)
              | _ => None
              end ;;
   K <- camera_matrix intrinsics h w ;;
   img <- entry_image uint8 v h w ;;
   kernel (vis_depth v) K (np_eye 3) (np_zeros [3%nat]) None (Some img))%opt.

(** The actor of the cloud of a prediction unprojected under the
    identity rotation and the zero translation.  No pose is among its
    arguments. *)
Definition identity_pose_cloud_actor (depth : ndarray R)
    (intrinsics normals image : option (ndarray R)) : option actor :=
  (let depth := np_squeeze depth in
   w <- nth_error (rev (shape depth)) 0 ;;
   h <- nth_error (rev (shape depth)) 1 ;;
   K <- camera_matrix
          match intrinsics with
          | None => default_intrinsics
          | Some i => i
          end h w ;;
   pointcloud <-
     kernel depth K (np_eye 3) (np_zeros [3%nat])
       (option_map (@np_squeeze R) normals)
       (option_map
          (fun image => mk_nd (shape image)
                          (map (fun x => uint8 ((x + 0.5) * 255)) (data image)))
          image) ;;
   points <- pc_points pointcloud ;;
   create_pointcloud_actor points (pc_colors pointcloud))%opt.

(** Modelled from the spec: the compiled kernel
    [vis_cython.compute_point_cloud_from_depthmap] is not part of the
    sources.  Section 4.2 of the specification: the pixel (row, col) of
    depth [d] gives the camera-space point
    [((col - cx) * d / fx, (row - cy) * d / fy, d)], pixels are scanned
    row by row, invalid pixels are left out, and the colour of a point is
    the RGB triple of its pixel.  [valid] is the validity predicate, which
    the specification leaves to the implementation.  The model covers the
    identity pose, the only one the two views use: [Rm] and [t] are not
    applied.  It serves as the kernel of the sample runs. *)
Definition pinhole_kernel (valid : R -> bool) (depth K Rm t : ndarray R)
    (normals : option (ndarray R)) (colors : option (ndarray Z))
  : option pointcloud :=
  match shape depth with
  | [h; w] =>
      (fx <- np_get_item K 0 0 ;;
       fy <- np_get_item K 1 1 ;;
       cx <- np_get_item K 0 2 ;;
       cy <- np_get_item K 1 2 ;;
       let pixels :=
         filter (fun p => valid (nth p (data depth) 0)) (seq 0 (h * w)) in
       let point p :=
         let d := nth p (data depth) 0 in
         [(INR (p mod w) - cx) * d / fx; (INR (p / w) - cy) * d / fy; d] in
       let color cs p :=
         map (fun ch => nth (ch * (h * w) + p) (data cs) 0%Z) [0; 1; 2]%nat in
       Some {| pc_points := Some (of_rows 3 (map point pixels));
               pc_colors :=
                 option_map (fun cs => of_rows 3 (map (color cs) pixels))
                   colors |})%opt
  | _ => None
  end.
End ViewSpec.

(** ** Further statements about the code *)

Section FurtherSpec.
Local Open Scope R_scope.

(** [-a] *)
Definition np_neg (a : ndarray R) : ndarray R :=
  mk_nd (shape a) (map Ropp (data a)).

(** [a.reshape(-1, 1)]: a vector as a column. *)
Definition np_column (a : ndarray R) : ndarray R :=
  mk_nd [length (data a); 1%nat] (data a).

(** The coordinates of a point of an actor. *)
Definition coordinates (P : R * R * R) : list R :=
  let '(x, y, z) := P in [x; y; z].

(** The first three entries of a row of colours. *)
Definition rgb (row : list Z) : Z * Z * Z :=
  (nth 0 row 0%Z, nth 1 row 0%Z, nth 2 row 0%Z).

(** The cells of an actor, all kinds together. *)
Definition act_cells (a : actor) : list (list nat) :=
  act_verts a ++ act_lines a ++ act_polys a.
End FurtherSpec.

(** ** The merged cloud of several depth maps *)

Section MergeSpec.
Variable uint8 : R -> Z.
Variable kernel :
  ndarray R -> ndarray R -> ndarray R -> ndarray R ->
  option (ndarray R) -> option (ndarray Z) -> option pointcloud.
Variable intrinsics : ndarray R.

(** [clouds] lists, in the order of the entries, the points and the
    colours of the clouds of the entries: two arrays of as many rows and
    3 columns each. *)
Definition clouds_of (items : list (string * vis_entry))
    (clouds : list (ndarray R * ndarray Z)) : Prop :=
  Forall2 (fun kv pc =>
             entry_cloud uint8 kernel intrinsics (snd kv)
             = Some {| pc_points := Some (fst pc); pc_colors := Some (snd pc) |}
             /\ exists p, shape (fst pc) = [p; 3] /\ shape (snd pc) = [p; 3])
    items clouds.

(** The number of rows of an array. *)
Definition row_count {A : Type} (a : ndarray A) : nat := hd 0 (shape a).

(** The arrays of a list stacked from the last one to the first one. *)
Definition stacked_in_reverse {A : Type} (arrays : list (ndarray A))
  : ndarray A :=
  mk_nd [list_sum (map row_count (rev arrays)); 3]
    (concat (map (@data A) (rev arrays))).
End MergeSpec.

(** ** Binary64 arithmetic

    [angleaxis_to_rotation_matrix] chooses its branch by comparing a
    rounded number with a rounded constant, so which branch an input
    takes is a fact of binary64 arithmetic and not of the real numbers.
    This module gives the function on IEEE 754 binary64 numbers, for
    arrays of dtype float64: each Python operator is one correctly
    rounded operation.  What is computed outside the sources is a
    parameter: the cosine and the sine of the C library, and the inner
    product of the BLAS library, whose order of summation and use of
    fused multiply-add are not fixed. *)

Module Binary64.
Import SpecFloat.

Definition float : Type := spec_float.

Definition prec : Z := 53.
Definition emax : Z := 1024.

Definition add : float -> float -> float := SFadd prec emax.
Definition sub : float -> float -> float := SFsub prec emax.
Definition mul : float -> float -> float := SFmul prec emax.
Definition div : float -> float -> float := SFdiv prec emax.
Definition sqrt : float -> float := SFsqrt prec emax.

(** [x > y]; false when either is not a number. *)
Definition gtb (x y : float) : bool := SFltb y x.

(** The float of an integer. *)
Definition of_Z (n : Z) : float := binary_normalize prec emax n 0 false.

Definition zero : float := S754_zero false.
Definition one : float := S754_finite false 4503599627370496 (-52).

(** The literal [1e-6]: the binary64 number nearest to 10^-6,
    4722366482869645 * 2^-72. *)
Definition lit_1em6 : float := S754_finite false 4722366482869645 (-72).

Declare Scope b64_scope.
Delimit Scope b64_scope with b64.
Infix "+" := add : b64_scope.
Infix "-" := sub : b64_scope.
Infix "*" := mul : b64_scope.
Infix "/" := div : b64_scope.
Infix ">" := gtb : b64_scope.
Notation "1" := one : b64_scope.

#[global] Instance Scalar_float : Scalar float :=
  {| s0 := zero; s1 := one; sadd := add; ssub := sub; smul := mul;
     sopp := SFopp |}.

(** The real number that a finite binary64 number stands for. *)
Definition exact (x : float) : R :=
  match x with
  | S754_finite s m e =>
      let v := (IZR (Zpos m)
                * (if (e <? 0)%Z then / IZR (2 ^ (- e)) else IZR (2 ^ e)))%R in
      if s then (- v)%R else v
  | _ => 0%R
  end.

Definition np_exact (a : ndarray float) : ndarray R :=
  mk_nd (shape a) (map exact (data a)).

Section Conversion.
Local Open Scope b64_scope.

(** [np.cos], [np.sin] *)
Variables cos sin : float -> float.

(** The inner product of two buffers, as the BLAS library computes it. *)
Variable ddot : list float -> list float -> float.

(** What a freshly allocated, uninitialised buffer holds. *)
Variable uninit : float.

(** [a.dot(b)], as [np_dot] above, with the inner products left to the
    library. *)
Definition np_dot (a b : ndarray float) : option (ndarray float) :=
  match shape a, shape b with
  | [n], [n'] =>
      if (n =? n')%nat then Some (mk_nd [] [ddot (data a) (data b)])
      else None
  | [n; k], [k'; m] =>
      if (k =? k')%nat then
        Some (of_rows m
                (map (fun r =>
                        map (fun j => ddot r (column j (chunks m k' (data b))))
                          (seq 0 m))
                   (chunks k n (data a))))
      else None
  | _, _ => None
  end.

(** [np.sqrt(a)] *)
Definition np_sqrt (a : ndarray float) : ndarray float :=
  mk_nd (shape a) (map sqrt (data a)).

(** A division of two float64 scalars is counted; it does not raise. *)
Definition divide (x y : float) : Eff float := (1%nat, Some (x / y)).

(** [vis.py], lines 22-42. *)
Definition angleaxis_to_rotation_matrix (aa : ndarray float)
  : Eff (ndarray float) :=
  (angle <- elift (d <- np_dot aa aa ;; np_item (np_sqrt d))%opt ;;
   if angle > lit_1em6 then
     let c := cos angle in
     let s := sin angle in
     a0 <- elift (np_get aa 0) ;; u0 <- divide a0 angle ;;
     a1 <- elift (np_get aa 1) ;; u1 <- divide a1 angle ;;
     a2 <- elift (np_get aa 2) ;; u2 <- divide a2 angle ;;
     let R0 := np_full [3; 3]%nat uninit in
     elift
       (R1 <- np_set_item R0 0 0 (c+u0*u0*(1-c)) ;;
        R2 <- np_set_item R1 0 1 (u0*u1*(1-c)-u2*s) ;;
        R3 <- np_set_item R2 0 2 (u0*u2*(1-c)+u1*s) ;;
        R4 <- np_set_item R3 1 0 (u1*u0*(1-c)+u2*s) ;;
        R5 <- np_set_item R4 1 1 (c+u1*u1*(1-c)) ;;
        R6 <- np_set_item R5 1 2 (u1*u2*(1-c)-u0*s) ;;
        R7 <- np_set_item R6 2 0 (u2*u0*(1-c)-u1*s) ;;
        R8 <- np_set_item R7 2 1 (u2*u1*(1-c)+u0*s) ;;
        np_set_item R8 2 2 (c+u2*u2*(1-c)))%opt
   else eret (np_eye 3))%eff.

(** The norm of the vector as line 29 computes it. *)
Definition computed_norm (aa : ndarray float) : float :=
  sqrt (ddot (data aa) (data aa)).

(** The entry [(i, j)] of the rotation matrix in component form, each
    operation rounded, as [rodrigues_entry] above. *)
Definition rodrigues_entry (plus_on_even : bool) (c s : float)
    (u : nat -> float) (i j : nat) : float :=
  if (i =? j)%nat then c + u i * u i * (1 - c)
  else
    let k := (3 - i - j)%nat in
    if Bool.eqb (even_permutation i j k) plus_on_even
    then u i * u j * (1 - c) + u k * s
    else u i * u j * (1 - c) - u k * s.

(** The matrix [M] has the entries of the component form for the
    axis-angle vector [aa], with the norm as the code computes it. *)
Definition has_rodrigues_entries (plus_on_even : bool)
    (aa M : ndarray float) : Prop :=
  let angle := computed_norm aa in
  forall i j, (i < 3)%nat -> (j < 3)%nat ->
    np_get_item M i j
    = Some (rodrigues_entry plus_on_even (cos angle) (sin angle)
              (fun k => nth k (data aa) zero / angle) i j).

(** The array that lines 36-39 of [vis.py] fill. *)
Definition rodrigues_matrix (c s u0 u1 u2 : float) : ndarray float :=
  mk_nd [3; 3]%nat
    [c+u0*u0*(1-c);      u0*u1*(1-c)-u2*s; u0*u2*(1-c)+u1*s;
     u1*u0*(1-c)+u2*s; c+u1*u1*(1-c);      u1*u2*(1-c)-u0*s;
     u2*u0*(1-c)-u1*s; u2*u1*(1-c)+u0*s; c+u2*u2*(1-c)].
End Conversion.

(** *** Inner-product loops

    The loops a BLAS library may run for a short vector: the products
    summed from the first or from the last, each product rounded before
    it is added, or fused with the addition and rounded once. *)

(** The fused multiply-add [x * y + z], rounded once. *)
Definition fma (x y z : float) : float :=
  match x, y with
  | S754_finite sx mx ex, S754_finite sy my ey =>
      match z with
      | S754_nan => S754_nan
      | S754_infinity _ => z
      | S754_zero _ => mul x y
      | S754_finite sz mz ez =>
          let e := Z.min (ex + ey) ez in
          binary_normalize prec emax
            (cond_Zopp (xorb sx sy)
               (Zpos (fst (shl_align (mx * my) (ex + ey) e)))
             + cond_Zopp sz (Zpos (fst (shl_align mz ez e))))%Z
            e false
      end
  | _, _ => add (mul x y) z
  end.

Definition ddot_forward (u v : list float) : float :=
  fold_left (fun acc xy => add acc (mul (fst xy) (snd xy))) (combine u v)
    zero.

Definition ddot_backward (u v : list float) : float := inner u v.

Definition ddot_fused (u v : list float) : float :=
  fold_left (fun acc xy => fma (fst xy) (snd xy) acc) (combine u v) zero.

Definition ddot_fused_backward (u v : list float) : float :=
  fold_right (fun xy acc => fma (fst xy) (snd xy) acc) zero (combine u v).

Definition kernels : list (list float -> list float -> float) :=
  [ddot_forward; ddot_backward; ddot_fused; ddot_fused_backward].

(** *** Sample inputs *)

(** Truncated series, standing in for the cosine and the sine of the
    C library in the sample runs. *)
Definition cos_series (x : float) : float :=
  sub one (div (mul x x) (of_Z 2)).

Definition sin_series (x : float) : float :=
  sub x (div (mul (mul x x) x) (of_Z 6)).

(** 9.832722383042236e-07 and 1.821419923581658e-07: the exact norm of
    [below] is under 10^-6 by about 1.7e-24. *)
Definition below : ndarray float :=
  mk_nd [3%nat]
    [S754_finite false 4643371861704080 (-72);
     S754_finite false 6881129918682410 (-75);
     zero].

(** 6.896924812630581e-07 and 7.241023969641353e-07: the exact norm of
    [above] is over 10^-6 by about 1.7e-23. *)
Definition above : ndarray float :=
  mk_nd [3%nat]
    [S754_finite false 6513961314007733 (-73);
     S754_finite false 6838953779178007 (-73);
     zero].

(** The float after [lit_1em6], 1.0000000000000002e-06. *)
Definition next_1em6 : float := S754_finite false 4722366482869646 (-72).
End Binary64.

(** ** Sample inputs, on integer arrays *)

Module Sample.
(** Two points. *)
Definition points : ndarray Z := mk_nd [2; 3] [1; 2; 3; 4; 5; 6]%Z.

(** A quarter turn about the z axis, followed by a move by (10, 20, 30). *)
Definition T : ndarray Z :=
  mk_nd [4; 4] [0; -1; 0; 10;
                1;  0; 0; 20;
                0;  0; 1; 30;
                0;  0; 0;  1]%Z.

(** Its inverse. *)
Definition Tinv : ndarray Z :=
  mk_nd [4; 4] [ 0; 1; 0; -20;
                -1; 0; 0;  10;
                 0; 0; 1; -30;
                 0; 0; 0;   1]%Z.

(** A store holding the three arrays at 0, 1 and 2. *)
Definition h : store Z := [points; T; Tinv].
End Sample.

(** ** Sample inputs of the two views *)

Module ViewSample.
Local Open Scope R_scope.

(** Truncation towards zero, then wrap-around modulo 256. *)
Definition byte_of_real (x : R) : Z :=
  ((if Rle_dec 0 x then Int_part x else - Int_part (- x)) mod 256)%Z.

(** Every pixel is valid. *)
Definition kernel := pinhole_kernel (fun _ => true).

(** A flat depth map of 2 x 2 pixels, at depth 1. *)
Definition depth : ndarray R := mk_nd [2; 2]%nat [1; 1; 1; 1].

(** A rotation by one radian about the z axis, as the network gives
    it, of shape (1, 3), and a translation. *)
Definition rotation : ndarray R := mk_nd [1; 3]%nat [0; 0; 1].
Definition translation : ndarray R := mk_nd [1; 3]%nat [1; 2; 3].

(** Two depth maps of one pixel, the first one red, at depths 1 and 2. *)
Definition first_map : vis_entry :=
  {| vis_depth := mk_nd [1; 1]%nat [1];
     vis_color := Some (mk_nd [3%nat] [255; 0; 0]) |}.
Definition second_map : vis_entry :=
  {| vis_depth := mk_nd [1; 1]%nat [2]; vis_color := None |}.
Definition depths : list (string * vis_entry) :=
  [("first"%string, first_map); ("second"%string, second_map)].
End ViewSample.

(** ** Further sample inputs *)

Module MoreSample.
(** The 4 x 4 identity matrix. *)
Definition eye4 : ndarray Z := np_eye 4.

(** The first three rows of [Sample.T], as a 3 x 4 matrix. *)
Definition T34 : ndarray Z :=
  mk_nd [3; 4] [0; -1; 0; 10;
                1;  0; 0; 20;
                0;  0; 1; 30]%Z.

(** [Sample.T] with another bottom row. *)
Definition Tproj : ndarray Z :=
  mk_nd [4; 4] [0; -1; 0; 10;
                1;  0; 0; 20;
                0;  0; 1; 30;
                5;  6; 7;  8]%Z.

(** Two points of the plane, and a 3 x 3 matrix. *)
Definition flat_points : ndarray Z := mk_nd [2; 2] [1; 2; 3; 4]%Z.
Definition T33 : ndarray Z := np_eye 3.

(** A store holding them after the arrays of [Sample.h], at 3 to 7. *)
Definition h : store Z := Sample.h ++ [eye4; T34; Tproj; flat_points; T33].
End MoreSample.

(** * Properties *)

(** Evaluation of the array operations on arrays given by their
    elements; the real numbers are left as they are. *)
Ltac array_compute :=
  cbv [create_camera_actor create_pointcloud_actor cam_points camera_matrix
       default_intrinsics entry_image scale_plane np_ones guard ndim
       visualize_depths visualize_depths_loop visualize_depths_step
       visualize_prediction compute_point_cloud_from_depthmap the_axes
       identity_pose_cloud_actor entry_cloud pinhole_kernel
       ViewSample.kernel ViewSample.depth ViewSample.rotation
       ViewSample.translation ViewSample.first_map ViewSample.second_map
       ViewSample.depths vis_depth vis_color pc_points pc_colors
       np_scale np_sub_rows np_dot np_vstack np_squeeze np_set_item
       np_get_item np_get np_transpose atleast_2d rows_of rodrigues_matrix
       identity3 of_rows chunks dot_rows inner column transpose_rows all_some
       vtk_point option_map obind shape data map combine firstn skipn seq
       flat_map filter rev nth_error length app concat repeat fst snd
       Nat.eqb Nat.ltb Nat.leb orb andb negb sadd ssub smul s0 s1 Scalar_R
       Nat.mul Nat.add Nat.sub Nat.min Nat.modulo Nat.div Nat.divmod
       fold_right size np_eye np_zeros np_full eye_row act_points act_colors
       pointcloud_actor camera_actors outcome
       local_vertices camera_vertex_world quarter nth
       shape_eqb].

(** ** Rows of a row-major buffer *)

Section RowFacts.
Variable A : Type.
Implicit Types (rows : list (list A)) (l r : list A).

Lemma size_2d (n c : nat) : size [n; c] = n * c.
Proof. unfold size; simpl; lia. Qed.

Lemma chunks_length c n l : length (chunks c n l) = n.
Proof. revert l; induction n; intros l; simpl; [reflexivity | now rewrite IHn]. Qed.

Lemma chunks_concat c rows :
  rect c rows -> chunks c (length rows) (concat rows) = rows.
Proof.
  induction 1 as [|r rows Hr _ IH]; simpl; [reflexivity|].
  rewrite firstn_app, skipn_app, Hr, firstn_all2, skipn_all2 by lia.
  rewrite Nat.sub_diag, firstn_O, skipn_O, app_nil_r. simpl. now rewrite IH.
Qed.

Lemma chunks_rect c n l : length l = n * c -> rect c (chunks c n l).
Proof.
  revert l; induction n; intros l Hl; simpl; constructor.
  - rewrite length_firstn; lia.
  - apply IHn; rewrite length_skipn; lia.
Qed.

Lemma concat_chunks c n l : length l = n * c -> concat (chunks c n l) = l.
Proof.
  revert l; induction n; intros l Hl; simpl.
  - destruct l; [reflexivity | discriminate].
  - rewrite IHn by (rewrite length_skipn; lia). apply firstn_skipn.
Qed.

Lemma concat_rect_length c rows :
  rect c rows -> length (concat rows) = length rows * c.
Proof.
  induction 1 as [|r rows Hr _ IH]; simpl; [reflexivity|].
  rewrite length_app; lia.
Qed.

(** A well-formed 2-d array is the array of its rows. *)
Lemma wf_of_rows (a : ndarray A) n c :
  shape a = [n; c] -> wf a -> a = of_rows c (chunks c n (data a)).
Proof.
  destruct a as [sh d]; unfold wf, of_rows; simpl; intros -> Hd.
  rewrite size_2d in Hd.
  now rewrite chunks_length, concat_chunks.
Qed.

Lemma of_rows_wf c rows : rect c rows -> wf (of_rows c rows).
Proof.
  intros Hr; unfold wf, of_rows; simpl.
  rewrite (concat_rect_length Hr); lia.
Qed.

Lemma flat_nth_error_seq r :
  flat_map (fun j => match nth_error r j with Some x => [x] | None => [] end)
    (seq 0 (length r)) = r.
Proof.
  induction r as [|x r IH]; simpl; [reflexivity|].
  f_equal. rewrite <- seq_shift, flat_map_concat_map, map_map.
  now rewrite <- flat_map_concat_map.
Qed.

Lemma map_seq_nth_error (B C : Type) (ys : list B) (h : nat -> C) (g : B -> C) :
  (forall j y, nth_error ys j = Some y -> h j = g y) ->
  map h (seq 0 (length ys)) = map g ys.
Proof.
  revert h; induction ys as [|y ys IH]; intros h Hh; simpl; [reflexivity|].
  f_equal; [exact (Hh 0 y eq_refl)|].
  rewrite <- seq_shift, map_map. apply IH.
  intros j z Hj; exact (Hh (S j) z Hj).
Qed.

Lemma nth_error_column c rows j i :
  rect c rows -> j < c ->
  nth_error (column j rows) i =
  match nth_error rows i with
  | Some r => nth_error r j
  | None => None
  end.
Proof.
  intros Hr Hj; revert i; induction Hr as [|r rows Hlen _ IH]; intros i.
  - now destruct i.
  - unfold column in *; simpl.
    destruct (nth_error r j) as [x|] eqn:Ex.
    + destruct i; simpl; [now rewrite Ex | apply IH].
    + apply nth_error_None in Ex; lia.
Qed.

(** Transposing twice gives the rows back, column by column. *)
Lemma column_transpose_rows c rows i r :
  rect c rows -> nth_error rows i = Some r ->
  column i (transpose_rows c rows) = r.
Proof.
  intros Hr Hi. unfold transpose_rows, column at 1.
  rewrite flat_map_concat_map, map_map, <- flat_map_concat_map.
  assert (Hlen : length r = c).
  { eapply Forall_forall in Hr; [exact Hr | eapply nth_error_In; eauto]. }
  etransitivity; [| apply flat_nth_error_seq ]. rewrite Hlen.
  rewrite !flat_map_concat_map. f_equal. apply map_ext_in.
  intros j Hj. apply in_seq in Hj.
  rewrite (nth_error_column i Hr) by lia. now rewrite Hi.
Qed.

Lemma transpose_rows_length c rows : length (transpose_rows c rows) = c.
Proof. unfold transpose_rows. now rewrite length_map, length_seq. Qed.

Lemma column_length c rows j :
  rect c rows -> j < c -> length (column j rows) = length rows.
Proof.
  intros Hr Hj; induction Hr as [|r rows Hlen _ IH]; [reflexivity|].
  unfold column in *; simpl.
  destruct (nth_error r j) eqn:Ex; [simpl; now rewrite IH|].
  apply nth_error_None in Ex; lia.
Qed.

Lemma transpose_rows_rect c rows :
  rect c rows -> rect (length rows) (transpose_rows c rows).
Proof.
  intros Hr. unfold transpose_rows, rect. apply Forall_forall.
  intros x Hx. apply in_map_iff in Hx as (j & <- & Hj).
  apply in_seq in Hj. apply (column_length Hr); lia.
Qed.

(** The transpose of a table [f x y] is the table [f] with its
    arguments exchanged. *)
Lemma transpose_rows_table (B C : Type) (f : B -> C -> A) (xs : list B)
    (ys : list C) :
  transpose_rows (length ys) (map (fun x => map (f x) ys) xs)
  = map (fun y => map (fun x => f x y) xs) ys.
Proof.
  unfold transpose_rows. apply map_seq_nth_error.
  intros j y Hj. unfold column.
  induction xs as [|x xs IH]; simpl; [reflexivity|].
  rewrite nth_error_map, Hj; simpl. now rewrite IH.
Qed.

Lemma firstn_concat_rect c rows k :
  rect c rows -> firstn (k * c) (concat rows) = concat (firstn k rows).
Proof.
  intros Hr; revert k; induction Hr as [|r rows Hlen _ IH]; intros k.
  - now rewrite firstn_nil, firstn_nil.
  - destruct k; simpl; [reflexivity|].
    rewrite firstn_app, Hlen, firstn_all2 by lia.
    replace (c + k * c - c) with (k * c) by lia. now rewrite IH.
Qed.

Lemma rect_firstn c rows k : rect c rows -> rect c (firstn k rows).
Proof.
  unfold rect; intros Hr; revert k.
  induction Hr as [|r rows Hlen _ IH]; intros [|k]; simpl; constructor;
    [assumption | apply IH].
Qed.
End RowFacts.

(** ** The store *)

Section StoreFacts.
Variable E : Type.
Implicit Types (h : store E) (a b : ndarray E).

Lemma bind_run (A B : Type) (m : M E A) (f : A -> M E B) h x h' :
  m h = Some (x, h') -> bind m f h = f x h'.
Proof. unfold bind; now intros ->. Qed.

Lemma load_run h l a : nth_error h l = Some a -> load l h = Some (a, h).
Proof. unfold load, lift; now intros ->. Qed.

Lemma nth_error_old h a l b :
  nth_error h l = Some b -> nth_error (h ++ [a]) l = Some b.
Proof.
  intros Hl. rewrite nth_error_app1; [assumption|].
  apply nth_error_Some; congruence.
Qed.

Lemma nth_error_last h a : nth_error (h ++ [a]) (length h) = Some a.
Proof. now rewrite nth_error_app2, Nat.sub_diag by lia. Qed.

Lemma write_last h a b : write (length h) b (h ++ [a]) = Some (tt, h ++ [b]).
Proof.
  unfold write. rewrite length_app; cbn [length].
  replace (length h <? length h + 1) with true by (symmetry; apply Nat.ltb_lt; lia).
  rewrite firstn_app, Nat.sub_diag, firstn_all, skipn_app, skipn_all2 by lia.
  replace (S (length h) - length h) with 1 by lia. simpl.
  now rewrite app_nil_r.
Qed.
End StoreFacts.

Arguments bind_run {E A B m} f {h x h'} _.
Arguments load_run {E h l a} _.
Arguments nth_error_old {E h} a {l b} _.

(** ** The array operations on arrays given by their rows *)

Section OpFacts.
Variable A : Type.
Implicit Types (rows : list (list A)).

Lemma np_transpose_of_rows c rows :
  rect c rows ->
  np_transpose (of_rows c rows)
  = Some (of_rows (length rows) (transpose_rows c rows)).
Proof.
  intros Hr. unfold np_transpose; simpl. now rewrite chunks_concat.
Qed.

Lemma np_slice0_of_rows c rows k :
  rect c rows ->
  np_slice0 0 k (of_rows c rows) = Some (of_rows c (firstn k rows)).
Proof.
  intros Hr. unfold np_slice0, of_rows; simpl.
  rewrite Nat.sub_0_r, length_firstn. do 2 f_equal.
  rewrite Nat.mul_1_r, (firstn_concat_rect _ Hr). f_equal.
  destruct (Nat.min_spec k (length rows)) as [[Hlt ->]|[Hle ->]];
    [reflexivity | now rewrite !firstn_all2 by lia].
Qed.
End OpFacts.

Section ArithFacts.
Context {F : Type} `{Scalar F}.
Implicit Types (rows ra rb : list (list F)).

Lemma np_dot_of_rows k m ra rb :
  rect k ra -> rect m rb -> length rb = k ->
  np_dot (of_rows k ra) (of_rows m rb)
  = Some (of_rows m (dot_rows m ra rb)).
Proof.
  intros Ha Hb Hk. unfold np_dot; simpl. rewrite Hk, Nat.eqb_refl.
  rewrite (chunks_concat Ha). rewrite <- Hk at 1.
  now rewrite (chunks_concat Hb).
Qed.

(** Multiplying by a transposed array pairs rows with rows. *)
Lemma dot_rows_transpose c ra rows :
  rect c rows ->
  dot_rows (length rows) ra (transpose_rows c rows)
  = map (fun r => map (inner r) rows) ra.
Proof.
  intros Hr. unfold dot_rows. apply map_ext. intros r.
  apply map_seq_nth_error. intros j y Hj.
  now rewrite (column_transpose_rows j Hr Hj).
Qed.

Lemma dot_rows_rect m ra rb : rect m (dot_rows m ra rb).
Proof.
  unfold dot_rows, rect. apply Forall_forall. intros x Hx.
  apply in_map_iff in Hx as (r & <- & _).
  now rewrite length_map, length_seq.
Qed.

Lemma augmented_rect (prows : list (list F)) :
  rect 3 prows -> rect 4 (augmented prows).
Proof.
  unfold rect, augmented. intros Hr. apply Forall_forall. intros x Hx.
  apply in_map_iff in Hx as (r & <- & Hin).
  rewrite length_app; simpl.
  eapply Forall_forall in Hr; [|exact Hin]. lia.
Qed.

(** The two slice assignments overwrite every cell of the fresh buffer. *)
Lemma fill_rows (D prows : list (list F)) :
  rect 4 D -> rect 3 prows -> length D = length prows ->
  let rows1 := map (fun rr => put_cols 0 3 (fst rr) (snd rr)) (combine D prows) in
  rect 4 rows1
  /\ map (fun row => firstn 3 row ++ s1 :: skipn 4 row) rows1
     = augmented prows.
Proof.
  intros HD; revert prows. induction HD as [|d D Hd _ IH]; intros prows Hp Hlen.
  - destruct prows; [|discriminate]. split; [constructor | reflexivity].
  - destruct prows as [|q prows]; [discriminate|].
    inversion Hp as [|? ? Hq Hp']; subst. simpl in Hlen.
    destruct (IH prows Hp' ltac:(lia)) as [IH1 IH2].
    destruct q as [|x [|y [|z [|? ?]]]]; try discriminate.
    destruct d as [|d0 [|d1 [|d2 [|d3 [|? ?]]]]]; try discriminate.
    simpl. split; [constructor; [reflexivity | exact IH1] |].
    f_equal. exact IH2.
Qed.

Lemma apply_affine_spec (trows prows : list (list F)) :
  length trows = 4 ->
  rect 3 prows ->
  transform_spec trows prows = map (apply_affine trows) prows.
Proof.
  intros Ht Hp. unfold transform_spec.
  assert (Hlen : length (augmented prows) = length prows)
    by apply length_map.
  rewrite <- Hlen.
  rewrite (dot_rows_transpose _ (augmented_rect Hp)).
  rewrite removelast_firstn_len, length_map, Ht; simpl Nat.pred.
  rewrite firstn_map.
  rewrite (transpose_rows_table (fun r q => inner r q)).
  unfold augmented, apply_affine. now rewrite map_map.
Qed.
End ArithFacts.

(** ** [transform_pointcloud_points] *)

Section TransformFacts.
Context {F : Type} `{Scalar F}.
Variable uninit : F.

Lemma augment_run (P : ndarray F) n :
  shape P = [n; 3] -> wf P ->
  exists X1,
    np_set_cols (np_full [n; 3 + 1] uninit) 0 3 P = Some X1
    /\ np_set_col X1 3 s1
       = Some (of_rows 4 (augmented (chunks 3 n (data P)))).
Proof.
  intros Hsh Hwf.
  set (tmp0 := np_full [n; 3 + 1] uninit).
  assert (Hs0 : shape tmp0 = [n; 4]) by reflexivity.
  assert (Hd0 : length (data tmp0) = n * 4).
  { unfold tmp0, np_full; cbn [data]. rewrite repeat_length.
    exact (size_2d n 4). }
  clearbody tmp0.
  unfold wf in Hwf. rewrite Hsh, size_2d in Hwf.
  destruct (@fill_rows F _ (chunks 4 n (data tmp0)) (chunks 3 n (data P)))
    as [Hrect Hfill].
  { now apply chunks_rect. }
  { now apply chunks_rect. }
  { now rewrite !chunks_length. }
  unfold np_set_cols. rewrite Hs0, Hsh.
  rewrite Nat.eqb_refl. simpl Nat.min. simpl Nat.sub. simpl andb.
  eexists; split; [reflexivity|].
  unfold np_set_col. simpl shape. cbv beta iota.
  change (3 <? 4) with true. cbv iota.
  simpl data. rewrite (chunks_concat Hrect). do 2 f_equal. exact Hfill.
Qed.

Lemma shape_at_run (g : store F) a i x n :
  nth_error g a = Some x -> nth_error (shape x) i = Some n ->
  shape_at a i g = Some (n, g).
Proof.
  intros Ha Hn. unfold shape_at.
  rewrite (bind_run _ (load_run Ha)). unfold lift. now rewrite Hn.
Qed.

Arguments shape_at_run {g a} i {x n} _ _.

Lemma assign_cols_run (g : store F) d s lo hi src d' :
  nth_error g src = Some s -> np_set_cols d lo hi s = Some d' ->
  assign_cols (length g) lo hi src (g ++ [d]) = Some (tt, g ++ [d']).
Proof.
  intros Hs Hd. unfold assign_cols.
  rewrite (bind_run _ (load_run (nth_error_last g d))).
  rewrite (bind_run _ (load_run (nth_error_old d Hs))).
  unfold bind, lift. rewrite Hd. apply write_last.
Qed.

Arguments assign_cols_run {g d s} lo hi {src d'} _ _.

Lemma assign_col_run (g : store F) d j v d' :
  np_set_col d j v = Some d' ->
  assign_col (length g) j v (g ++ [d]) = Some (tt, g ++ [d']).
Proof.
  intros Hd. unfold assign_col.
  rewrite (bind_run _ (load_run (nth_error_last g d))).
  unfold bind, lift. rewrite Hd. apply write_last.
Qed.

Arguments assign_col_run g {d j v d'} _.

Lemma transpose_run (g : store F) a x y :
  nth_error g a = Some x -> np_transpose x = Some y ->
  transpose a g = Some (length g, g ++ [y]).
Proof.
  intros Ha Hy. unfold transpose.
  rewrite (bind_run _ (load_run Ha)). unfold bind, lift. now rewrite Hy.
Qed.

Arguments transpose_run {g a x y} _ _.

Lemma dot_run (g : store F) a b x y z :
  nth_error g a = Some x -> nth_error g b = Some y -> np_dot x y = Some z ->
  dot a b g = Some (length g, g ++ [z]).
Proof.
  intros Ha Hb Hz. unfold dot.
  rewrite (bind_run _ (load_run Ha)), (bind_run _ (load_run Hb)).
  unfold bind, lift. now rewrite Hz.
Qed.

Arguments dot_run {g a b x y z} _ _ _.

Lemma slice0_run (g : store F) lo hi a x y :
  nth_error g a = Some x -> np_slice0 lo hi x = Some y ->
  slice0 lo hi a g = Some (length g, g ++ [y]).
Proof.
  intros Ha Hy. unfold slice0.
  rewrite (bind_run _ (load_run Ha)). unfold bind, lift. now rewrite Hy.
Qed.

Arguments slice0_run {g} lo hi {a x y} _ _.

(** The run of [transform_pointcloud_points] on an n x 3 array and a
    4 x 4 array: five arrays are allocated, the last one is returned, and
    it holds the transformed points. *)
Lemma transform_run (h : store F) p t P T n :
  nth_error h p = Some P -> nth_error h t = Some T ->
  shape P = [n; 3] -> wf P -> shape T = [4; 4] -> wf T ->
  exists a1 a2 a3 a4,
    transform_pointcloud_points uninit p t h
    = Some (length h + 4,
            h ++ [a1; a2; a3; a4;
                  of_rows 3 (map (apply_affine (chunks 4 4 (data T)))
                               (chunks 3 n (data P)))]).
Proof.
  intros Hp Ht HshP HwfP HshT HwfT.
  destruct (augment_run HshP HwfP) as (X1 & HX1 & HX2).
  set (prows := chunks 3 n (data P)) in *.
  set (trows := chunks 4 4 (data T)) in *.
  assert (Hpr : rect 3 prows).
  { apply chunks_rect. unfold wf in HwfP. now rewrite HshP, size_2d in HwfP. }
  assert (Htr : rect 4 trows).
  { apply chunks_rect. unfold wf in HwfT. now rewrite HshT, size_2d in HwfT. }
  assert (Hpn : length prows = n) by apply chunks_length.
  assert (Haug : rect 4 (augmented prows)) by now apply augmented_rect.
  assert (Han : length (augmented prows) = n)
    by (unfold augmented; now rewrite length_map).
  assert (ET : T = of_rows 4 trows) by now apply wf_of_rows.
  unfold transform_pointcloud_points.
  rewrite (bind_run _ (shape_at_run 0 Hp ltac:(rewrite HshP; reflexivity))).
  rewrite (bind_run _ (shape_at_run 1 Hp ltac:(rewrite HshP; reflexivity))).
  unfold np_empty. rewrite (bind_run _ (eq_refl : alloc _ h = Some (_, _))).
  rewrite (bind_run _ (assign_cols_run 0 3 Hp HX1)).
  rewrite (bind_run _ (assign_col_run h HX2)).
  rewrite (bind_run _ (transpose_run (nth_error_last h _)
                         (np_transpose_of_rows Haug))).
  rewrite Han.
  set (g1 := h ++ [of_rows 4 (augmented prows)]).
  set (tmpT := of_rows n (transpose_rows 4 (augmented prows))).
  assert (HtmpT : rect n (transpose_rows 4 (augmented prows))).
  { rewrite <- Han. now apply transpose_rows_rect. }
  assert (Hdot : np_dot T tmpT
                 = Some (of_rows n (map (fun r => map (inner r) (augmented prows)) trows))).
  { rewrite ET. unfold tmpT.
    rewrite (np_dot_of_rows Htr HtmpT (transpose_rows_length _ _)).
    rewrite <- Han at 2. now rewrite (dot_rows_transpose _ Haug). }
  rewrite (bind_run _ (dot_run (nth_error_old _ (nth_error_old _ Ht))
                         (nth_error_last g1 tmpT) Hdot)).
  set (g2 := g1 ++ [tmpT]).
  set (prod := of_rows n (map (fun r => map (inner r) (augmented prows)) trows)).
  assert (Hprod : rect n (map (fun r => map (inner r) (augmented prows)) trows)).
  { unfold rect. apply Forall_forall. intros x Hx.
    apply in_map_iff in Hx as (r & <- & _). now rewrite length_map. }
  rewrite (bind_run _ (slice0_run 0 3 (nth_error_last g2 prod)
                         (np_slice0_of_rows 3 Hprod))).
  set (g3 := g2 ++ [prod]).
  rewrite firstn_map.
  set (top := of_rows n (map (fun r => map (inner r) (augmented prows))
                           (firstn 3 trows))).
  assert (Htop : rect n (map (fun r => map (inner r) (augmented prows))
                           (firstn 3 trows))).
  { unfold rect. apply Forall_forall. intros x Hx.
    apply in_map_iff in Hx as (r & <- & _). now rewrite length_map. }
  rewrite (transpose_run (nth_error_last g3 top) (np_transpose_of_rows Htop)).
  exists (of_rows 4 (augmented prows)), tmpT, prod, top.
  f_equal. f_equal.
  - unfold g3, g2, g1. rewrite !length_app. simpl. lia.
  - unfold g3, g2, g1. rewrite <- !app_assoc. cbn [app].
    do 5 apply f_equal. apply (f_equal (fun x => [x])).
    rewrite length_map.
    assert (Ht3 : length (firstn 3 trows) = 3).
    { rewrite length_firstn. unfold trows. rewrite chunks_length. reflexivity. }
    rewrite Ht3. f_equal.
    rewrite <- Han.
    rewrite (transpose_rows_table (fun r q => inner r q)).
    unfold augmented, apply_affine. now rewrite map_map.
Qed.
End TransformFacts.

Arguments transform_run {F H} uninit {h p t P T n} _ _ _ _ _ _.

Section RoundTripFacts.
Context {F : Type} `{Scalar F}.
Hypothesis Fring : ring_theory s0 s1 sadd smul ssub sopp (@eq F).

Add Ring Fring_ring : Fring.

Lemma affine_inverse_point (T Ti : ndarray F) (q : list F) :
  shape T = [4; 4] -> wf T -> shape Ti = [4; 4] -> wf Ti ->
  affine T -> np_dot Ti T = Some (np_eye 4) ->
  length q = 3 ->
  apply_affine (chunks 4 4 (data Ti)) (apply_affine (chunks 4 4 (data T)) q)
  = q.
Proof.
  destruct T as [shT dT], Ti as [shI dI]. unfold wf, affine; simpl.
  intros -> HdT -> HdI Haff Hdot Hq.
  rewrite size_2d in HdT, HdI.
  do 17 (destruct dT as [|? dT]; try discriminate).
  do 17 (destruct dI as [|? dI]; try discriminate).
  destruct q as [|x [|y [|z [|? ?]]]]; try discriminate.
  clear HdT HdI Hq.
  unfold np_slice0 in Haff; simpl in Haff.
  injection Haff as -> -> -> ->.
  unfold np_dot, np_eye, of_rows in Hdot; simpl in Hdot.
  injection Hdot as E00 E01 E02 E03 E10 E11 E12 E13 E20 E21 E22 E23
    E30 E31 E32 E33.
  unfold apply_affine; cbn [firstn map inner app].
  f_equal; [|f_equal; [|f_equal]].
  - etransitivity; [|etransitivity;
      [exact (f_equal2 sadd (f_equal (smul x) E00)
                (f_equal2 sadd (f_equal (smul y) E01)
                   (f_equal2 sadd (f_equal (smul z) E02) E03))) | ring]].
    ring.
  - etransitivity; [|etransitivity;
      [exact (f_equal2 sadd (f_equal (smul x) E10)
                (f_equal2 sadd (f_equal (smul y) E11)
                   (f_equal2 sadd (f_equal (smul z) E12) E13))) | ring]].
    ring.
  - etransitivity; [|etransitivity;
      [exact (f_equal2 sadd (f_equal (smul x) E20)
                (f_equal2 sadd (f_equal (smul y) E21)
                   (f_equal2 sadd (f_equal (smul z) E22) E23))) | ring]].
    ring.
Qed.
End RoundTripFacts.

Arguments affine_inverse_point {F H} Fring {T Ti q} _ _ _ _ _ _ _.

(** A run on integer arrays: the two sample points, turned and moved. *)
Example transform_sample_run :
  match transform_pointcloud_points 77%Z 0 1 Sample.h with
  | Some (r, h') =>
      nth_error h' r = Some (mk_nd [2; 3] [8; 21; 33; 5; 24; 36]%Z)
  | None => False
  end.
Proof. vm_compute. reflexivity. Qed.

(** C5. For an n x 3 array of points and a 4 x 4 array [T],
    [transform_pointcloud_points] returns the array the specification
    describes: every point augmented with a homogeneous coordinate of 1,
    the transposed augmented array multiplied on the left by [T], the
    homogeneous row dropped, and the result transposed back to n x 3.
    Point by point, this is the first three rows of [T] applied to the
    augmented point. *)
Theorem transform_pointcloud_points_spec
    (F : Type) (SF : Scalar F) (uninit : F) (h : store F) (points T : loc)
    (P Tm : ndarray F) (n : nat) :
  nth_error h points = Some P -> nth_error h T = Some Tm ->
  shape P = [n; 3] -> wf P -> shape Tm = [4; 4] -> wf Tm ->
  exists r h' prows trows,
    rows_of P = Some prows /\ rows_of Tm = Some trows
    /\ transform_pointcloud_points uninit points T h = Some (r, h')
    /\ nth_error h' r = Some (of_rows 3 (transform_spec trows prows))
    /\ transform_spec trows prows = map (apply_affine trows) prows.
Proof.
  intros Hp Ht HshP HwfP HshT HwfT.
  destruct (transform_run uninit Hp Ht HshP HwfP HshT HwfT)
    as (a1 & a2 & a3 & a4 & Erun).
  assert (Espec : transform_spec (chunks 4 4 (data Tm)) (chunks 3 n (data P))
                  = map (apply_affine (chunks 4 4 (data Tm)))
                      (chunks 3 n (data P))).
  { apply apply_affine_spec; [apply chunks_length|].
    apply chunks_rect. unfold wf in HwfP. now rewrite HshP, size_2d in HwfP. }
  eexists _, _, (chunks 3 n (data P)), (chunks 4 4 (data Tm)).
  split; [unfold rows_of; now rewrite HshP|].
  split; [unfold rows_of; now rewrite HshT|].
  split; [exact Erun|].
  split; [|exact Espec].
  rewrite nth_error_app2, Espec by lia.
  now replace (length h + 4 - length h) with 4 by lia.
Qed.

Lemma transform_pointcloud_points_spec_witness :
  exists r h' prows trows,
    rows_of Sample.points = Some prows /\ rows_of Sample.T = Some trows
    /\ transform_pointcloud_points 77%Z 0 1 Sample.h = Some (r, h')
    /\ nth_error h' r = Some (of_rows 3 (transform_spec trows prows))
    /\ transform_spec trows prows = map (apply_affine trows) prows.
Proof.
  apply (@transform_pointcloud_points_spec Z _ 77%Z Sample.h 0 1
           Sample.points Sample.T 2); reflexivity.
Defined.

(** C10. [transform_pointcloud_points] preserves the number of points:
    for an n x 3 array of points and a 4 x 4 array, the returned array
    has exactly n rows and 3 columns; the array of points, like every
    array that existed before the call, is left as it was. *)
Theorem transform_pointcloud_points_shape
    (F : Type) (SF : Scalar F) (uninit : F) (h : store F) (points T : loc)
    (P Tm : ndarray F) (n : nat) :
  nth_error h points = Some P -> nth_error h T = Some Tm ->
  shape P = [n; 3] -> wf P -> shape Tm = [4; 4] -> wf Tm ->
  exists r h' out,
    transform_pointcloud_points uninit points T h = Some (r, h')
    /\ nth_error h' r = Some out
    /\ shape out = [n; 3] /\ wf out
    /\ nth_error h' points = Some P
    /\ (forall l a, nth_error h l = Some a -> nth_error h' l = Some a).
Proof.
  intros Hp Ht HshP HwfP HshT HwfT.
  destruct (transform_run uninit Hp Ht HshP HwfP HshT HwfT)
    as (a1 & a2 & a3 & a4 & Erun).
  assert (Hold : forall ext l (a : ndarray F),
             nth_error h l = Some a -> nth_error (h ++ ext) l = Some a).
  { intros ext l a Hl. rewrite nth_error_app1; [assumption|].
    apply nth_error_Some; congruence. }
  eexists _, _, _. split; [exact Erun|].
  split.
  { rewrite nth_error_app2 by lia.
    now replace (length h + 4 - length h) with 4 by lia. }
  split; [unfold of_rows; cbn [shape]; now rewrite length_map, chunks_length|].
  split.
  { apply of_rows_wf. unfold rect. apply Forall_forall. intros x Hx.
    apply in_map_iff in Hx as (q & <- & _). unfold apply_affine.
    now rewrite length_map, length_firstn, chunks_length. }
  split; [now apply Hold | intros l a; apply Hold].
Qed.

Lemma transform_pointcloud_points_shape_witness :
  exists r h' out,
    transform_pointcloud_points 77%Z 0 1 Sample.h = Some (r, h')
    /\ nth_error h' r = Some out
    /\ shape out = [2; 3] /\ wf out
    /\ nth_error h' 0 = Some Sample.points
    /\ (forall l a, nth_error Sample.h l = Some a -> nth_error h' l = Some a).
Proof.
  apply (@transform_pointcloud_points_shape Z _ 77%Z Sample.h 0 1
           Sample.points Sample.T 2); reflexivity.
Defined.

(** C6. For an n x 3 array of points and an invertible 4 x 4 affine
    transform [T] (bottom row [0, 0, 0, 1]), transforming the points with
    [T] and the result with the inverse of [T] returns the original
    points, exactly, over any commutative ring of scalars (the rationals,
    the reals). *)
Theorem transform_pointcloud_points_round_trip
    (F : Type) (SF : Scalar F) (uninit uninit' : F) (h : store F)
    (points T Tinv : loc) (P Tm Ti : ndarray F) (n : nat) :
  scalar_ring F ->
  nth_error h points = Some P ->
  nth_error h T = Some Tm -> nth_error h Tinv = Some Ti ->
  shape P = [n; 3] -> wf P ->
  shape Tm = [4; 4] -> wf Tm -> shape Ti = [4; 4] -> wf Ti ->
  affine Tm -> np_dot Ti Tm = Some (np_eye 4) ->
  exists r h',
    bind (transform_pointcloud_points uninit points T)
      (fun moved => transform_pointcloud_points uninit' moved Tinv) h
    = Some (r, h')
    /\ nth_error h' r = Some P.
Proof.
  intros Fring Hp Ht Hi HshP HwfP HshT HwfT HshI HwfI Haff Hinv.
  destruct (transform_run uninit Hp Ht HshP HwfP HshT HwfT)
    as (a1 & a2 & a3 & a4 & Erun).
  set (prows := chunks 3 n (data P)) in *.
  set (qrows := map (apply_affine (chunks 4 4 (data Tm))) prows) in *.
  set (h1 := h ++ [a1; a2; a3; a4; of_rows 3 qrows]) in *.
  assert (Hpr : rect 3 prows).
  { apply chunks_rect. unfold wf in HwfP. now rewrite HshP, size_2d in HwfP. }
  assert (Hqr : rect 3 qrows).
  { unfold rect. apply Forall_forall. intros x Hx.
    apply in_map_iff in Hx as (q & <- & _). unfold apply_affine.
    now rewrite length_map, length_firstn, chunks_length. }
  assert (Hqn : length qrows = n)
    by (unfold qrows, prows; now rewrite length_map, chunks_length).
  assert (Hq : nth_error h1 (length h + 4) = Some (of_rows 3 qrows)).
  { unfold h1. rewrite nth_error_app2 by lia.
    now replace (length h + 4 - length h) with 4 by lia. }
  assert (Hi1 : nth_error h1 Tinv = Some Ti).
  { unfold h1. rewrite nth_error_app1; [assumption|].
    apply nth_error_Some; congruence. }
  assert (HshQ : shape (of_rows 3 qrows) = [n; 3])
    by (unfold of_rows; cbn [shape]; now rewrite Hqn).
  destruct (transform_run uninit' Hq Hi1 HshQ (of_rows_wf Hqr) HshI HwfI)
    as (b1 & b2 & b3 & b4 & Erun').
  eexists _, _. split.
  { unfold bind. rewrite Erun. exact Erun'. }
  rewrite nth_error_app2 by lia.
  replace (length h1 + 4 - length h1) with 4 by lia. cbn [nth_error].
  f_equal. rewrite (wf_of_rows HshP HwfP). f_equal. fold prows.
  unfold of_rows; cbn [data]. rewrite <- Hqn, (chunks_concat Hqr).
  unfold qrows. rewrite map_map. rewrite <- (map_id prows) at 2.
  apply map_ext_in. intros q Hin.
  apply (affine_inverse_point Fring HshT HwfT HshI HwfI Haff Hinv).
  eapply Forall_forall in Hpr; [exact Hpr | exact Hin].
Qed.

Lemma transform_pointcloud_points_round_trip_witness :
  exists r h',
    bind (transform_pointcloud_points 77%Z 0 1)
      (fun moved => transform_pointcloud_points 78%Z moved 2) Sample.h
    = Some (r, h')
    /\ nth_error h' r = Some Sample.points.
Proof.
  apply (@transform_pointcloud_points_round_trip Z _ 77%Z 78%Z Sample.h
           0 1 2 Sample.points Sample.T Sample.Tinv 2);
    try reflexivity.
  exact Zth.
Defined.

(** ** [angleaxis_to_rotation_matrix] *)

Section RotationFacts.
Local Open Scope R_scope.
Variable uninit : R.

Lemma angleaxis_run (x y z : R) :
  let aa := mk_nd [3%nat] [x; y; z] in
  let angle := euclidean_norm aa in
  angleaxis_to_rotation_matrix uninit aa
  = if Rlt_dec 1e-6 angle
    then (3%nat, Some (rodrigues_matrix (cos angle) (sin angle)
                         (x / angle) (y / angle) (z / angle)))
    else (0%nat, Some identity3).
Proof.
  intros aa angle. unfold angleaxis_to_rotation_matrix.
  unfold aa at 1 2. unfold np_dot; cbn [shape data Nat.eqb obind].
  unfold np_sqrt, np_item; cbn [shape data map inner].
  unfold elift, ebind at 1.
  change (sqrt (sadd (smul x x) (sadd (smul y y) (sadd (smul z z) s0))))
    with angle.
  destruct (Rlt_dec 1e-6 angle) as [Hlt|Hle]; [|reflexivity].
  unfold divide. clearbody angle.
  destruct (Req_EM_T angle 0) as [E|_]; [lra|].
  reflexivity.
Qed.

Lemma vector3_inv (aa : ndarray R) :
  shape aa = [3%nat] -> wf aa ->
  exists x y z, aa = mk_nd [3%nat] [x; y; z].
Proof.
  destruct aa as [sh d]; unfold wf; simpl. intros -> Hd.
  destruct d as [|x [|y [|z [|? ?]]]]; try discriminate.
  now exists x, y, z.
Qed.

Lemma norm3_eq (x y z : R) :
  euclidean_norm (mk_nd [3%nat] [x; y; z]) = sqrt (x * x + y * y + z * z).
Proof. unfold euclidean_norm; simpl. f_equal. ring. Qed.

(** Past the threshold the axis has length one. *)
Lemma unit_axis (x y z : R) :
  let angle := euclidean_norm (mk_nd [3%nat] [x; y; z]) in
  0 < angle ->
  (x / angle) * (x / angle) + (y / angle) * (y / angle)
  + (z / angle) * (z / angle) = 1.
Proof.
  intros angle Hpos.
  assert (Hsq : angle * angle = x * x + y * y + z * z).
  { unfold angle. rewrite norm3_eq. apply sqrt_sqrt. nra. }
  clearbody angle. field_simplify_eq; [|lra]. nra.
Qed.

Lemma rodrigues_orthonormal (c s u0 u1 u2 : R) :
  s * s + c * c = 1 -> u0 * u0 + u1 * u1 + u2 * u2 = 1 ->
  orthonormal (rodrigues_matrix c s u0 u1 u2)
  /\ det3 (rodrigues_matrix c s u0 u1 u2) = Some 1.
Proof.
  intros Hcs Hu. split.
  - unfold orthonormal, rodrigues_matrix, identity3.
    cbv [np_transpose shape data obind of_rows transpose_rows chunks column
         seq map flat_map firstn skipn nth_error app concat length np_dot
         Nat.eqb dot_rows inner sadd smul s0 Scalar_R].
    do 2 f_equal. repeat (apply (f_equal2 (@cons R)); [nsatz|]). reflexivity.
  - unfold det3, rodrigues_matrix; cbn [shape data]. f_equal. nsatz.
Qed.

Lemma identity3_orthonormal :
  orthonormal identity3 /\ det3 identity3 = Some 1.
Proof.
  split.
  - unfold orthonormal, identity3.
    cbv [np_transpose shape data obind of_rows transpose_rows chunks column
         seq map flat_map firstn skipn nth_error app concat length np_dot
         Nat.eqb dot_rows inner sadd smul s0 Scalar_R].
    do 2 f_equal. repeat (apply (f_equal2 (@cons R)); [ring|]). reflexivity.
  - unfold det3, identity3; cbn [shape data]. f_equal. ring.
Qed.

Lemma np_eye3 : np_eye 3 = identity3.
Proof. reflexivity. Qed.
End RotationFacts.

Arguments angleaxis_run uninit x y z : clear implicits.

Section RotationClaims.
Local Open Scope R_scope.

Lemma zero_vector_norm : euclidean_norm (mk_nd [3%nat] [0; 0; 0]) <= 1e-6.
Proof.
  rewrite norm3_eq. replace (0 * 0 + 0 * 0 + 0 * 0) with 0 by ring.
  rewrite sqrt_0. lra.
Defined.

Lemma unit_z_norm : euclidean_norm (mk_nd [3%nat] [0; 0; 1]) = 1.
Proof.
  rewrite norm3_eq. replace (0 * 0 + 0 * 0 + 1 * 1) with 1 by ring.
  apply sqrt_1.
Defined.

(** C2, as the specification states it (the term [u k * s] added for the
    even permutations), fails for the rotation by one radian about the z
    axis: the entry (0, 1) of the matrix is [- sin 1], not [sin 1].  (The
    norm is 1, away from the threshold, and the axis has the components
    0, 0 and 1, on which the rounded operations are exact.) *)
Lemma angleaxis_entries_as_stated_counterexample :
  let aa := mk_nd [3%nat] [0; 0; 1] in
  shape aa = [3%nat] /\ wf aa /\ 1e-6 < euclidean_norm aa
  /\ ~ (exists M,
          outcome (angleaxis_to_rotation_matrix 7 aa) = Some M
          /\ has_rodrigues_entries true aa M).
Proof.
  intros aa. split; [reflexivity|]. split; [reflexivity|].
  split; [unfold aa; rewrite unit_z_norm; lra|].
  intros (M & HM & Hent).
  unfold aa in HM. rewrite angleaxis_run in HM.
  destruct (Rlt_dec 1e-6 (euclidean_norm (mk_nd [3%nat] [0; 0; 1])))
    as [_|Hle]; [|apply Hle; rewrite unit_z_norm; lra].
  injection HM as <-.
  specialize (Hent 0%nat 1%nat ltac:(lia) ltac:(lia)).
  unfold aa in Hent. rewrite unit_z_norm in Hent.
  unfold np_get_item, rodrigues_matrix, rodrigues_entry in Hent.
  cbn [shape data Nat.ltb Nat.leb andb Nat.mul Nat.add nth_error Nat.eqb
       Nat.sub even_permutation Bool.eqb nth] in Hent.
  injection Hent as Hent.
  assert (Hsin : 0 < sin 1).
  { apply sin_gt_0; [lra|]. pose proof PI2_1. lra. }
  lra.
Qed.

(** C4. For every 3-element axis-angle vector, the matrix returned by
    [angleaxis_to_rotation_matrix] is orthonormal (its transpose times
    itself is the identity, exactly, over the real numbers) and has
    determinant 1. *)
Theorem angleaxis_rotation_matrix_orthonormal (uninit : R) (aa : ndarray R) :
  shape aa = [3%nat] -> wf aa ->
  exists M,
    outcome (angleaxis_to_rotation_matrix uninit aa) = Some M
    /\ orthonormal M /\ det3 M = Some 1.
Proof.
  intros Hsh Hwf. destruct (vector3_inv Hsh Hwf) as (x & y & z & ->).
  rewrite angleaxis_run.
  destruct (Rlt_dec 1e-6 (euclidean_norm (mk_nd [3%nat] [x; y; z])))
    as [Hlt|Hle].
  - eexists. split; [reflexivity|].
    apply rodrigues_orthonormal.
    + exact (sin2_cos2 (euclidean_norm (mk_nd [3%nat] [x; y; z]))).
    + apply unit_axis. lra.
  - eexists. split; [reflexivity|]. apply identity3_orthonormal.
Qed.

Lemma angleaxis_rotation_matrix_orthonormal_witness :
  exists M,
    outcome (angleaxis_to_rotation_matrix 7 (mk_nd [3%nat] [0; 0; 1])) = Some M
    /\ orthonormal M /\ det3 M = Some 1.
Proof.
  exact (@angleaxis_rotation_matrix_orthonormal 7 (mk_nd [3%nat] [0; 0; 1])
           eq_refl eq_refl).
Defined.
End RotationClaims.

(** ** [create_camera_actor] *)

Section CameraFacts.
Local Open Scope R_scope.

Ltac array_compute_in H :=
  cbv [create_camera_actor cam_points np_scale np_sub_rows np_dot rows_of
       of_rows chunks dot_rows inner column transpose_rows all_some vtk_point
       option_map obind shape data map combine firstn skipn seq flat_map
       nth_error length app concat repeat fst snd Nat.eqb Nat.ltb Nat.leb
       orb andb sadd ssub smul s0 s1 Scalar_R Nat.mul Nat.add Nat.sub
       Nat.min fold_right size np_eye np_zeros np_full eye_row act_points
       local_vertices camera_vertex_world quarter nth] in H.

Ltac points_eq :=
  repeat (apply (f_equal2 (@cons (R * R * R))); [|]);
  try reflexivity;
  repeat (apply (f_equal2 (@pair _ _))); ring.

(** C7. [create_camera_actor] places each of its 11 local vertices [P]
    at the world position [(0.25 * P - t) . R], the vertex being a row
    vector multiplied on the right by [R].  With [R] the identity and
    [t] zero, every vertex is 0.25 times its local coordinates, and
    vertex 0, the apex, is exactly at the origin. *)
Theorem create_camera_actor_vertices (Rm t : ndarray R) :
  shape Rm = [3; 3]%nat -> wf Rm -> shape t = [3%nat] -> wf t ->
  exists a,
    create_camera_actor Rm t = Some a
    /\ act_points a = map (camera_vertex_world Rm t) local_vertices
    /\ (Rm = np_eye 3 -> t = np_zeros [3%nat] ->
        act_points a = map quarter local_vertices
        /\ nth_error (act_points a) 0 = Some (0, 0, 0)).
Proof.
  destruct Rm as [shR dR], t as [sht dt]. unfold wf; simpl.
  intros -> HdR -> Hdt.
  do 10 (destruct dR as [|? dR]; try discriminate).
  do 4 (destruct dt as [|? dt]; try discriminate).
  clear HdR Hdt.
  eexists. split; [array_compute; reflexivity|].
  split.
  - array_compute. points_eq.
  - intros ER Et. array_compute_in ER. array_compute_in Et.
    injection ER as -> -> -> -> -> -> -> -> ->. injection Et as -> -> ->.
    split.
    + array_compute. points_eq.
    + array_compute. do 2 f_equal; [f_equal|]; ring.
Qed.

Lemma create_camera_actor_vertices_witness :
  exists a,
    create_camera_actor (np_eye 3) (np_zeros [3%nat]) = Some a
    /\ act_points a
       = map (camera_vertex_world (np_eye 3) (np_zeros [3%nat])) local_vertices
    /\ act_points a = map quarter local_vertices
    /\ nth_error (act_points a) 0 = Some (0, 0, 0).
Proof.
  destruct (@create_camera_actor_vertices (np_eye 3) (np_zeros [3%nat])
              eq_refl eq_refl eq_refl eq_refl) as (a & Ha & Hw & Hid).
  destruct (Hid eq_refl eq_refl) as [Hq H0].
  exists a. repeat split; assumption.
Defined.
End CameraFacts.

(** ** [visualize_prediction] *)

Section PredictionFacts.
Local Open Scope R_scope.
Variable uninit : R.
Variable uint8 : R -> Z.
Variable kernel :
  ndarray R -> ndarray R -> ndarray R -> ndarray R ->
  option (ndarray R) -> option (ndarray Z) -> option pointcloud.

Ltac obind_step H x E :=
  match type of H with
  | obind ?m _ = Some _ =>
      destruct m as [x|] eqn:E; [cbn [obind] in H | discriminate H]
  end.

(** The scene of a run: the cloud actor is the one of the identity
    pose, the first camera is at the identity pose, the second one at
    the pose [(R2, t2)] the test of lines 316-321 selects. *)
Lemma visualize_prediction_inv depth intrinsics normals rotation translation
    image sc :
  visualize_prediction uninit uint8 kernel depth intrinsics normals rotation
    translation image = Some sc ->
  exists cloud cam1 cam2 R2 t2,
    identity_pose_cloud_actor uint8 kernel depth intrinsics normals image
    = Some cloud
    /\ create_camera_actor (np_eye 3) (np_zeros [3%nat]) = Some cam1
    /\ match rotation, translation with
       | Some rotation, Some translation =>
           outcome (angleaxis_to_rotation_matrix uninit (np_squeeze rotation))
           = Some R2
           /\ t2 = np_squeeze translation
       | _, _ => R2 = np_eye 3 /\ t2 = np_zeros [3%nat]
       end
    /\ create_camera_actor R2 t2 = Some cam2
    /\ sc = {| background := (0, 0, 0);
               pointcloud_actor := cloud;
               camera_actors := [cam1; cam2];
               axes := the_axes;
               window_name := "Point Cloud Viewer"%string;
               window_size := (800, 600)%nat |}.
Proof.
  unfold visualize_prediction, identity_pose_cloud_actor,
    compute_point_cloud_from_depthmap.
  intros Hrun.
  obind_step Hrun w Ew. obind_step Hrun h Eh. obind_step Hrun K EK.
  obind_step Hrun pose Epose. destruct pose as [R2 t2].
  obind_step Hrun pc Epc. obind_step Hrun pts Epts.
  obind_step Hrun cloud Ecloud. obind_step Hrun cam1 Ecam1.
  obind_step Hrun cam2 Ecam2. injection Hrun as <-.
  exists cloud, cam1, cam2, R2, t2. cbn [obind].
  rewrite ?EK; cbn [obind]. rewrite ?Epc; cbn [obind].
  rewrite ?Epts; cbn [obind]. rewrite ?Ecloud, ?Ecam2.
  split; [reflexivity|]. split; [reflexivity|].
  split; [|split; reflexivity].
  destruct rotation as [rot|]; [destruct translation as [tr|]|].
  - obind_step Epose R2' ER2. injection Epose as <- <-.
    split; reflexivity.
  - injection Epose as <- <-. split; reflexivity.
  - injection Epose as <- <-. split; reflexivity.
Qed.

Lemma visualize_prediction_partial_pose depth intrinsics normals rotation
    translation image :
  rotation = None \/ translation = None ->
  visualize_prediction uninit uint8 kernel depth intrinsics normals rotation
    translation image
  = visualize_prediction uninit uint8 kernel depth intrinsics normals None
      None image.
Proof.
  unfold visualize_prediction. intros [-> | ->]; [reflexivity|].
  destruct rotation; reflexivity.
Qed.
End PredictionFacts.

Arguments visualize_prediction_inv
  {uninit uint8 kernel depth intrinsics normals rotation translation image sc} _.

Section PredictionClaims.
Local Open Scope R_scope.

(** C8. In [visualize_prediction] the point cloud is unprojected under
    the identity rotation and the zero translation, whatever rotation and
    translation are supplied: the cloud actor of the scene is the one of
    the identity pose, and two runs that differ in the supplied pose give
    scenes that differ at most in the second camera glyph. *)
Theorem visualize_prediction_unprojects_at_identity
    (uninit : R) (uint8 : R -> Z)
    (kernel : ndarray R -> ndarray R -> ndarray R -> ndarray R ->
              option (ndarray R) -> option (ndarray Z) -> option pointcloud)
    (depth : ndarray R)
    (intrinsics normals rotation translation image : option (ndarray R))
    (sc : scene) :
  visualize_prediction uninit uint8 kernel depth intrinsics normals rotation
    translation image = Some sc ->
  identity_pose_cloud_actor uint8 kernel depth intrinsics normals image
  = Some (pointcloud_actor sc)
  /\ forall rotation' translation' sc',
       visualize_prediction uninit uint8 kernel depth intrinsics normals
         rotation' translation' image = Some sc' ->
       pointcloud_actor sc' = pointcloud_actor sc
       /\ nth_error (camera_actors sc') 0 = nth_error (camera_actors sc) 0
       /\ length (camera_actors sc') = length (camera_actors sc)
       /\ background sc' = background sc
       /\ axes sc' = axes sc
       /\ window_name sc' = window_name sc
       /\ window_size sc' = window_size sc.
Proof.
  intros Hrun.
  destruct (visualize_prediction_inv Hrun)
    as (cloud & cam1 & cam2 & R2 & t2 & Hcloud & Hcam1 & _ & _ & ->).
  split; [exact Hcloud|].
  intros rotation' translation' sc' Hrun'.
  destruct (visualize_prediction_inv Hrun')
    as (cloud' & cam1' & cam2' & R2' & t2' & Hcloud' & Hcam1' & _ & _ & ->).
  cbn [pointcloud_actor camera_actors background axes window_name
       window_size nth_error length].
  rewrite Hcloud in Hcloud'. rewrite Hcam1 in Hcam1'.
  injection Hcloud' as <-. injection Hcam1' as <-.
  repeat split; reflexivity.
Qed.

(** C9. In [visualize_prediction] the second camera glyph is placed at
    the supplied pose only when both the rotation and the translation are
    supplied.  When one of them is [None] the other one is ignored: the
    run is the run without a pose, and the second glyph is the glyph of
    the identity pose. *)
Theorem visualize_prediction_pose_needs_both
    (uninit : R) (uint8 : R -> Z)
    (kernel : ndarray R -> ndarray R -> ndarray R -> ndarray R ->
              option (ndarray R) -> option (ndarray Z) -> option pointcloud)
    (depth : ndarray R)
    (intrinsics normals rotation translation image : option (ndarray R)) :
  (rotation = None \/ translation = None ->
   visualize_prediction uninit uint8 kernel depth intrinsics normals rotation
     translation image
   = visualize_prediction uninit uint8 kernel depth intrinsics normals None
       None image)
  /\ forall sc,
       visualize_prediction uninit uint8 kernel depth intrinsics normals
         rotation translation image = Some sc ->
       exists cam2,
         nth_error (camera_actors sc) 1 = Some cam2
         /\ match rotation, translation with
            | Some rotation, Some translation =>
                exists R2,
                  outcome (angleaxis_to_rotation_matrix uninit
                             (np_squeeze rotation)) = Some R2
                  /\ create_camera_actor R2 (np_squeeze translation)
                     = Some cam2
            | _, _ =>
                create_camera_actor (np_eye 3) (np_zeros [3%nat]) = Some cam2
            end.
Proof.
  split; [apply visualize_prediction_partial_pose|].
  intros sc Hrun.
  destruct (visualize_prediction_inv Hrun)
    as (cloud & cam1 & cam2 & R2 & t2 & _ & _ & Hpose & Hcam2 & ->).
  exists cam2. split; [reflexivity|].
  destruct rotation as [rot|]; [destruct translation as [tr|]|].
  - destruct Hpose as [HR2 ->]. exists R2. split; assumption.
  - destruct Hpose as [-> ->]. exact Hcam2.
  - destruct Hpose as [-> ->]. exact Hcam2.
Qed.

(** The sample prediction with its pose. *)
Lemma sample_prediction_run :
  exists sc,
    visualize_prediction 7 ViewSample.byte_of_real ViewSample.kernel
      ViewSample.depth None None (Some ViewSample.rotation)
      (Some ViewSample.translation) None = Some sc.
Proof.
  eexists. unfold visualize_prediction.
  change (np_squeeze ViewSample.rotation) with (mk_nd [3%nat] [0; 0; 1]).
  rewrite angleaxis_run.
  destruct (Rlt_dec 1e-6 (euclidean_norm (mk_nd [3%nat] [0; 0; 1])))
    as [_|Hn]; [|exfalso; apply Hn; rewrite unit_z_norm; lra].
  array_compute. reflexivity.
Defined.

Lemma visualize_prediction_unprojects_at_identity_witness :
  exists sc,
    visualize_prediction 7 ViewSample.byte_of_real ViewSample.kernel
      ViewSample.depth None None (Some ViewSample.rotation)
      (Some ViewSample.translation) None = Some sc
    /\ identity_pose_cloud_actor ViewSample.byte_of_real ViewSample.kernel
         ViewSample.depth None None None
       = Some (pointcloud_actor sc)
    /\ forall rotation' translation' sc',
         visualize_prediction 7 ViewSample.byte_of_real ViewSample.kernel
           ViewSample.depth None None rotation' translation' None = Some sc' ->
         pointcloud_actor sc' = pointcloud_actor sc
         /\ nth_error (camera_actors sc') 0 = nth_error (camera_actors sc) 0
         /\ length (camera_actors sc') = length (camera_actors sc)
         /\ background sc' = background sc
         /\ axes sc' = axes sc
         /\ window_name sc' = window_name sc
         /\ window_size sc' = window_size sc.
Proof.
  destruct sample_prediction_run as [sc Hsc].
  exists sc. split; [exact Hsc|].
  exact (@visualize_prediction_unprojects_at_identity 7
           ViewSample.byte_of_real ViewSample.kernel ViewSample.depth
           None None (Some ViewSample.rotation) (Some ViewSample.translation)
           None sc Hsc).
Defined.

(** The sample prediction with a rotation and no translation. *)
Lemma sample_prediction_partial_run :
  exists sc,
    visualize_prediction 7 ViewSample.byte_of_real ViewSample.kernel
      ViewSample.depth None None (Some ViewSample.rotation) None None
    = Some sc.
Proof. eexists. array_compute. reflexivity. Defined.

Lemma visualize_prediction_pose_needs_both_witness :
  exists sc,
    visualize_prediction 7 ViewSample.byte_of_real ViewSample.kernel
      ViewSample.depth None None (Some ViewSample.rotation) None None
    = Some sc
    /\ visualize_prediction 7 ViewSample.byte_of_real ViewSample.kernel
         ViewSample.depth None None (Some ViewSample.rotation) None None
       = visualize_prediction 7 ViewSample.byte_of_real ViewSample.kernel
           ViewSample.depth None None None None None
    /\ exists cam2,
         nth_error (camera_actors sc) 1 = Some cam2
         /\ create_camera_actor (np_eye 3) (np_zeros [3%nat]) = Some cam2.
Proof.
  destruct sample_prediction_partial_run as [sc Hsc].
  destruct (@visualize_prediction_pose_needs_both 7 ViewSample.byte_of_real
              ViewSample.kernel ViewSample.depth None None
              (Some ViewSample.rotation) None None) as [Hsame Hcam].
  exists sc. split; [exact Hsc|]. split; [exact (Hsame (or_intror eq_refl))|].
  exact (Hcam sc Hsc).
Defined.
End PredictionClaims.

(** ** [visualize_depths] *)

Section DepthsFacts.
Local Open Scope R_scope.
Variable uint8 : R -> Z.
Variable kernel :
  ndarray R -> ndarray R -> ndarray R -> ndarray R ->
  option (ndarray R) -> option (ndarray Z) -> option pointcloud.
Variable intrinsics : ndarray R.

Local Abbreviation step :=
  (visualize_depths_step uint8 kernel intrinsics (np_eye 3) (np_zeros [3%nat])).
Local Abbreviation loop :=
  (visualize_depths_loop uint8 kernel intrinsics (np_eye 3) (np_zeros [3%nat])).

(** The first entry replaces the empty dictionary. *)
Lemma visualize_depths_step_first acc v :
  pc_points acc = None ->
  step acc v = entry_cloud uint8 kernel intrinsics v.
Proof.
  intros Hnone. unfold visualize_depths_step, entry_cloud,
    compute_point_cloud_from_depthmap.
  now rewrite Hnone.
Qed.

(** A later entry is stacked on the dictionary. *)
Lemma visualize_depths_step_next acc v A :
  pc_points acc = Some A ->
  step acc v
  = (cur <- entry_cloud uint8 kernel intrinsics v ;;
     cur_points <- pc_points cur ;;
     points <- np_vstack cur_points A ;;
     cur_colors <- pc_colors cur ;;
     acc_colors <- pc_colors acc ;;
     colors <- np_vstack cur_colors acc_colors ;;
     Some {| pc_points := Some points; pc_colors := Some colors |})%opt.
Proof.
  intros Hsome. unfold visualize_depths_step, entry_cloud,
    compute_point_cloud_from_depthmap.
  rewrite Hsome.
  destruct (match shape (vis_depth v) with
            | [h; w] => Some (h, w)
            | _ => None
            end) as [[h w]|]; cbn [obind]; [|reflexivity].
  destruct (camera_matrix intrinsics h w); cbn [obind]; [|reflexivity].
  destruct (entry_image uint8 v h w); reflexivity.
Qed.

Lemma visualize_depths_loop_app acc l1 l2 :
  loop acc (l1 ++ l2) = (acc' <- loop acc l1 ;; loop acc' l2)%opt.
Proof.
  revert acc; induction l1 as [|[k v] l1 IH]; intros acc; simpl;
    [reflexivity|].
  destruct (step acc v); cbn [obind]; [apply IH | reflexivity].
Qed.

Lemma np_vstack_2d (A : Type) (P Q : ndarray A) p q c :
  shape P = [p; c] -> shape Q = [q; c] ->
  np_vstack P Q = Some (mk_nd [(p + q)%nat; c] (data P ++ data Q)).
Proof.
  intros HP HQ. unfold np_vstack. rewrite HP, HQ. simpl.
  now rewrite Nat.eqb_refl.
Qed.
End DepthsFacts.

Arguments np_vstack_2d {A P Q p q c} _ _.
Arguments visualize_depths_step_first {uint8 kernel intrinsics acc} v _.
Arguments visualize_depths_step_next {uint8 kernel intrinsics acc} v {A} _.

Section DepthsClaims.
Local Open Scope R_scope.

(** C1. In [visualize_depths], once a depth map has been processed,
    the points and the colours of each newly unprojected map are stacked
    before the accumulated arrays: after the last map the merged cloud
    starts with the points of that map.  For two depth maps that each
    give one point, such as maps of a single pixel, the merged cloud has
    exactly 2 points, the point of the second map before the point of the
    first. *)
Theorem visualize_depths_prepends
    (uint8 : R -> Z)
    (kernel : ndarray R -> ndarray R -> ndarray R -> ndarray R ->
              option (ndarray R) -> option (ndarray Z) -> option pointcloud)
    (intrinsics : option (ndarray R)) :
  let intr := match intrinsics with
              | None => default_intrinsics
              | Some i => i
              end in
  let empty := {| pc_points := None; pc_colors := None |} in
  (forall before k v acc cur A CA P C p a c cp ca cc,
     visualize_depths_loop uint8 kernel intr (np_eye 3) (np_zeros [3%nat])
       empty before = Some acc ->
     pc_points acc = Some A -> pc_colors acc = Some CA ->
     entry_cloud uint8 kernel intr v = Some cur ->
     pc_points cur = Some P -> pc_colors cur = Some C ->
     shape P = [p; c] -> shape A = [a; c] ->
     shape C = [cp; cc] -> shape CA = [ca; cc] ->
     visualize_depths_loop uint8 kernel intr (np_eye 3) (np_zeros [3%nat])
       empty (before ++ [(k, v)])
     = Some {| pc_points := Some (mk_nd [(p + a)%nat; c] (data P ++ data A));
               pc_colors :=
                 Some (mk_nd [(cp + ca)%nat; cc] (data C ++ data CA)) |})
  /\ (forall k1 v1 k2 v2 x1 y1 z1 x2 y2 z2 r1 g1 b1 r2 g2 b2,
        entry_cloud uint8 kernel intr v1
        = Some {| pc_points := Some (mk_nd [1; 3]%nat [x1; y1; z1]);
                  pc_colors := Some (mk_nd [1; 3]%nat [r1; g1; b1]) |} ->
        entry_cloud uint8 kernel intr v2
        = Some {| pc_points := Some (mk_nd [1; 3]%nat [x2; y2; z2]);
                  pc_colors := Some (mk_nd [1; 3]%nat [r2; g2; b2]) |} ->
        exists sc,
          visualize_depths uint8 kernel [(k1, v1); (k2, v2)] intrinsics
          = Some sc
          /\ act_points (pointcloud_actor sc) = [(x2, y2, z2); (x1, y1, z1)]
          /\ act_colors (pointcloud_actor sc)
             = Some [(r2, g2, b2); (r1, g1, b1)]).
Proof.
  intros intr empty. split.
  - intros before k v acc cur A CA P C p a c cp ca cc
      Hloop HA HCA Hcur HP HC HsP HsA HsC HsCA.
    rewrite visualize_depths_loop_app, Hloop. cbn [obind visualize_depths_loop].
    rewrite (visualize_depths_step_next v HA), Hcur. cbn [obind].
    rewrite HP; cbn [obind]. rewrite (np_vstack_2d HsP HsA); cbn [obind].
    rewrite HC, HCA; cbn [obind]. rewrite (np_vstack_2d HsC HsCA).
    reflexivity.
  - intros k1 v1 k2 v2 x1 y1 z1 x2 y2 z2 r1 g1 b1 r2 g2 b2 H1 H2.
    unfold visualize_depths. fold intr. cbn [visualize_depths_loop].
    rewrite (visualize_depths_step_first
               (acc := {| pc_points := None; pc_colors := None |}) v1 eq_refl).
    rewrite H1. cbn [obind].
    rewrite (visualize_depths_step_next
               (acc := {| pc_points := Some (mk_nd [1; 3]%nat [x1; y1; z1]);
                          pc_colors := Some (mk_nd [1; 3]%nat [r1; g1; b1]) |})
               v2 eq_refl).
    rewrite H2.
    eexists. split; [array_compute; reflexivity|].
    split; reflexivity.
Qed.

(** The clouds of the two sample maps: one point each, at depths 1 and 2. *)
Lemma sample_first_cloud :
  exists x y r g b,
    entry_cloud ViewSample.byte_of_real ViewSample.kernel default_intrinsics
      ViewSample.first_map
    = Some {| pc_points := Some (mk_nd [1; 3]%nat [x; y; 1]);
              pc_colors := Some (mk_nd [1; 3]%nat [r; g; b]) |}.
Proof. do 5 eexists. array_compute. reflexivity. Defined.

Lemma sample_second_cloud :
  exists x y r g b,
    entry_cloud ViewSample.byte_of_real ViewSample.kernel default_intrinsics
      ViewSample.second_map
    = Some {| pc_points := Some (mk_nd [1; 3]%nat [x; y; 2]);
              pc_colors := Some (mk_nd [1; 3]%nat [r; g; b]) |}.
Proof. do 5 eexists. array_compute. reflexivity. Defined.

Lemma visualize_depths_prepends_witness :
  exists x1 y1 x2 y2 sc merged,
    visualize_depths_loop ViewSample.byte_of_real ViewSample.kernel
      default_intrinsics (np_eye 3) (np_zeros [3%nat])
      {| pc_points := None; pc_colors := None |} ViewSample.depths
    = Some merged
    /\ pc_points merged = Some (mk_nd [2; 3]%nat [x2; y2; 2; x1; y1; 1])
    /\ visualize_depths ViewSample.byte_of_real ViewSample.kernel
         ViewSample.depths None = Some sc
    /\ act_points (pointcloud_actor sc) = [(x2, y2, 2); (x1, y1, 1)].
Proof.
  destruct sample_first_cloud as (x1 & y1 & r1 & g1 & b1 & H1).
  destruct sample_second_cloud as (x2 & y2 & r2 & g2 & b2 & H2).
  destruct (@visualize_depths_prepends ViewSample.byte_of_real
              ViewSample.kernel None) as [Hstack Htwo].
  destruct (Htwo "first"%string ViewSample.first_map
              "second"%string ViewSample.second_map
              x1 y1 1 x2 y2 2 r1 g1 b1 r2 g2 b2 H1 H2)
    as (sc & Hsc & Hpts & _).
  assert (Hfirst :
            visualize_depths_loop ViewSample.byte_of_real ViewSample.kernel
              default_intrinsics (np_eye 3) (np_zeros [3%nat])
              {| pc_points := None; pc_colors := None |}
              [("first"%string, ViewSample.first_map)]
            = Some {| pc_points := Some (mk_nd [1; 3]%nat [x1; y1; 1]);
                      pc_colors := Some (mk_nd [1; 3]%nat [r1; g1; b1]) |}).
  { cbn [visualize_depths_loop].
    rewrite (visualize_depths_step_first
               (acc := {| pc_points := None; pc_colors := None |})
               ViewSample.first_map eq_refl), H1.
    reflexivity. }
  pose proof (Hstack [("first"%string, ViewSample.first_map)]
                "second"%string ViewSample.second_map
                _ _ (mk_nd [1; 3]%nat [x1; y1; 1])
                (mk_nd [1; 3]%nat [r1; g1; b1])
                (mk_nd [1; 3]%nat [x2; y2; 2])
                (mk_nd [1; 3]%nat [r2; g2; b2])
                1%nat 1%nat 3%nat 1%nat 1%nat 3%nat
                Hfirst eq_refl eq_refl H2 eq_refl eq_refl
                eq_refl eq_refl eq_refl eq_refl) as Hmerged.
  exists x1, y1, x2, y2, sc. eexists.
  split; [exact Hmerged|].
  split; [reflexivity|]. split; [exact Hsc | exact Hpts].
Defined.
End DepthsClaims.

Section TransformMoreFacts.
Context {F : Type} `{Scalar F}.
Variable uninit : F.

(** The run up to the product: the two slice assignments leave the
    augmented points in [tmp], whatever [T] is. *)
Lemma transform_prefix (h : store F) p t P n :
  nth_error h p = Some P -> shape P = [n; 3] -> wf P ->
  transform_pointcloud_points uninit p t h
  = bind (dot t (length h + 1))
      (fun prod => bind (slice0 0 3 prod) (fun top => transpose top))
      (h ++ [of_rows 4 (augmented (chunks 3 n (data P)));
             of_rows n (transpose_rows 4 (augmented (chunks 3 n (data P))))]).
Proof.
  intros Hp HshP HwfP.
  destruct (augment_run uninit HshP HwfP) as (X1 & HX1 & HX2).
  set (prows := chunks 3 n (data P)) in *.
  assert (Hpr : rect 3 prows).
  { apply chunks_rect. unfold wf in HwfP. now rewrite HshP, size_2d in HwfP. }
  assert (Haug : rect 4 (augmented prows)) by now apply augmented_rect.
  assert (Han : length (augmented prows) = n)
    by (unfold augmented; rewrite length_map; apply chunks_length).
  unfold transform_pointcloud_points.
  rewrite (bind_run _ (shape_at_run _ _ 0 Hp ltac:(rewrite HshP; reflexivity))).
  rewrite (bind_run _ (shape_at_run _ _ 1 Hp ltac:(rewrite HshP; reflexivity))).
  unfold np_empty. rewrite (bind_run _ (eq_refl : alloc _ h = Some (_, _))).
  rewrite (bind_run _ (assign_cols_run _ _ 0 3 _ Hp HX1)).
  rewrite (bind_run _ (assign_col_run h _ _ _ HX2)).
  rewrite (bind_run _ (transpose_run _ _ (nth_error_last h _)
                         (np_transpose_of_rows Haug))).
  rewrite Han, length_app. cbn [length]. rewrite <- app_assoc. reflexivity.
Qed.

(** The run for a matrix [T] of any number of rows and 4 columns. *)
Lemma transform_run_rows (h : store F) p t P T n r :
  nth_error h p = Some P -> nth_error h t = Some T ->
  shape P = [n; 3] -> wf P -> shape T = [r; 4] -> wf T ->
  exists ext,
    transform_pointcloud_points uninit p t h
    = Some (length h + 4,
            h ++ ext
              ++ [of_rows (Nat.min 3 r)
                    (map (fun q => map (fun row => inner row (q ++ [s1]))
                                     (firstn 3 (chunks 4 r (data T))))
                       (chunks 3 n (data P)))])
    /\ length ext = 4.
Proof.
  intros Hp Ht HshP HwfP HshT HwfT.
  rewrite (@transform_prefix h p t P n Hp HshP HwfP).
  set (prows := chunks 3 n (data P)) in *.
  set (trows := chunks 4 r (data T)) in *.
  assert (Hpr : rect 3 prows).
  { apply chunks_rect. unfold wf in HwfP. now rewrite HshP, size_2d in HwfP. }
  assert (Htr : rect 4 trows).
  { apply chunks_rect. unfold wf in HwfT. now rewrite HshT, size_2d in HwfT. }
  assert (Htl : length trows = r) by apply chunks_length.
  assert (Haug : rect 4 (augmented prows)) by now apply augmented_rect.
  assert (Han : length (augmented prows) = n)
    by (unfold augmented; rewrite length_map; apply chunks_length).
  assert (ET : T = of_rows 4 trows) by now apply wf_of_rows.
  set (tmp := of_rows 4 (augmented prows)).
  set (tmpT := of_rows n (transpose_rows 4 (augmented prows))).
  set (g2 := h ++ [tmp; tmpT]).
  assert (HtmpT : rect n (transpose_rows 4 (augmented prows))).
  { rewrite <- Han. now apply transpose_rows_rect. }
  set (prod := of_rows n (map (fun row => map (inner row) (augmented prows)) trows)).
  assert (Hdot : np_dot T tmpT = Some prod).
  { rewrite ET. unfold tmpT, prod.
    rewrite (np_dot_of_rows Htr HtmpT (transpose_rows_length _ _)).
    rewrite <- Han at 2. now rewrite (dot_rows_transpose _ Haug). }
  assert (Ht2 : nth_error g2 t = Some T).
  { unfold g2. rewrite nth_error_app1; [assumption|].
    apply nth_error_Some; congruence. }
  assert (HtT : nth_error g2 (length h + 1) = Some tmpT).
  { unfold g2. rewrite nth_error_app2 by lia.
    now replace (length h + 1 - length h) with 1 by lia. }
  rewrite (bind_run _ (dot_run _ _ _ Ht2 HtT Hdot)).
  assert (Hprod : rect n (map (fun row => map (inner row) (augmented prows)) trows)).
  { unfold rect. apply Forall_forall. intros x Hx.
    apply in_map_iff in Hx as (row & <- & _). now rewrite length_map. }
  rewrite (bind_run _ (slice0_run _ 0 3 _ (nth_error_last g2 prod)
                         (np_slice0_of_rows 3 Hprod))).
  rewrite firstn_map.
  set (top := of_rows n (map (fun row => map (inner row) (augmented prows))
                           (firstn 3 trows))).
  assert (Htop : rect n (map (fun row => map (inner row) (augmented prows))
                           (firstn 3 trows))).
  { unfold rect. apply Forall_forall. intros x Hx.
    apply in_map_iff in Hx as (row & <- & _). now rewrite length_map. }
  rewrite (transpose_run _ _ (nth_error_last (g2 ++ [prod]) top)
             (np_transpose_of_rows Htop)).
  exists [tmp; tmpT; prod; top]. split; [|reflexivity].
  f_equal. f_equal.
  - unfold g2. rewrite !length_app. simpl. lia.
  - unfold g2. rewrite <- !app_assoc. cbn [app].
    do 5 apply f_equal. apply (f_equal (fun x => [x])).
    rewrite length_map, length_firstn, Htl. f_equal.
    rewrite <- Han.
    rewrite (transpose_rows_table (fun row q => inner row q)).
    unfold augmented. now rewrite map_map.
Qed.
End TransformMoreFacts.

Arguments transform_prefix {F H} uninit {h p} t {P n} _ _ _.
Arguments transform_run_rows {F H} uninit {h p t P T n r} _ _ _ _ _ _.

Section TransformRingFacts.
Context {F : Type} `{Scalar F}.
Hypothesis Fring : ring_theory s0 s1 sadd smul ssub sopp (@eq F).

Add Ring Fring_more : Fring.

Lemma apply_affine_eye (q : list F) :
  length q = 3 ->
  apply_affine (chunks 4 4 (data (np_eye 4 : ndarray F))) q = q.
Proof.
  destruct q as [|x [|y [|z [|? ?]]]]; try discriminate. intros _.
  cbn. repeat (apply (f_equal2 (@cons F)); [ring|]). reflexivity.
Qed.

Lemma apply_affine_compose (T1 T2 T21 : ndarray F) (q : list F) :
  shape T1 = [4; 4] -> wf T1 -> shape T2 = [4; 4] -> wf T2 ->
  affine T1 -> np_dot T2 T1 = Some T21 ->
  length q = 3 ->
  apply_affine (chunks 4 4 (data T21)) q
  = apply_affine (chunks 4 4 (data T2)) (apply_affine (chunks 4 4 (data T1)) q).
Proof.
  destruct T1 as [sh1 d1], T2 as [sh2 d2]. unfold wf, affine; simpl.
  intros -> Hd1 -> Hd2 Haff Hdot Hq.
  rewrite size_2d in Hd1, Hd2.
  do 17 (destruct d1 as [|? d1]; try discriminate).
  do 17 (destruct d2 as [|? d2]; try discriminate).
  destruct q as [|x [|y [|z [|? ?]]]]; try discriminate.
  clear Hd1 Hd2 Hq.
  unfold np_slice0 in Haff; simpl in Haff.
  injection Haff as -> -> -> ->.
  unfold np_dot, of_rows in Hdot; simpl in Hdot.
  injection Hdot as <-.
  unfold apply_affine; cbn [data chunks firstn skipn map inner app].
  repeat (apply (f_equal2 (@cons F)); [ring|]). reflexivity.
Qed.
End TransformRingFacts.

Arguments apply_affine_eye {F H} Fring {q} _.
Arguments apply_affine_compose {F H} Fring {T1 T2 T21 q} _ _ _ _ _ _ _.

Section TransformValueFacts.
Context {F : Type} `{Scalar F}.

Lemma nth_error_ext_last (A : Type) (h ext : list A) (x : A) :
  nth_error (h ++ ext ++ [x]) (length h + length ext) = Some x.
Proof.
  rewrite app_assoc, nth_error_app2 by (rewrite length_app; lia).
  rewrite length_app. now replace (_ - _) with 0 by lia.
Qed.

Lemma nth_error_ext_old (A : Type) (h ext : list A) l (a : A) :
  nth_error h l = Some a -> nth_error (h ++ ext) l = Some a.
Proof.
  intros Hl. rewrite nth_error_app1; [assumption|].
  apply nth_error_Some; congruence.
Qed.

(** The value of a run, for a matrix of [r] rows and 4 columns. *)
Lemma transform_value (uninit : F) (h : store F) p t P T n r :
  nth_error h p = Some P -> nth_error h t = Some T ->
  shape P = [n; 3] -> wf P -> shape T = [r; 4] -> wf T ->
  exists q h',
    transform_pointcloud_points uninit p t h = Some (q, h')
    /\ nth_error h' q
       = Some (of_rows (Nat.min 3 r)
                 (map (fun pt => map (fun row => inner row (pt ++ [s1]))
                                   (firstn 3 (chunks 4 r (data T))))
                    (chunks 3 n (data P))))
    /\ (forall l a, nth_error h l = Some a -> nth_error h' l = Some a).
Proof.
  intros Hp Ht HshP HwfP HshT HwfT.
  destruct (transform_run_rows uninit Hp Ht HshP HwfP HshT HwfT)
    as (ext & Erun & Hext).
  eexists _, _. split; [exact Erun|]. split.
  - rewrite <- Hext. apply nth_error_ext_last.
  - intros l a Hl. now apply nth_error_ext_old.
Qed.

Lemma first_rows_of_slice (T T' : ndarray F) r r' :
  shape T = [r; 4] -> wf T -> shape T' = [r'; 4] -> wf T' ->
  3 <= r -> 3 <= r' ->
  np_slice0 0 3 T = np_slice0 0 3 T' ->
  firstn 3 (chunks 4 r (data T)) = firstn 3 (chunks 4 r' (data T')).
Proof.
  intros Hs Hw Hs' Hw' Hr Hr' Heq.
  unfold wf in Hw, Hw'. rewrite Hs, size_2d in Hw. rewrite Hs', size_2d in Hw'.
  assert (Hd : firstn 12 (data T) = firstn 12 (data T')).
  { unfold np_slice0 in Heq. rewrite Hs, Hs' in Heq.
    rewrite !Nat.min_0_l, !Nat.sub_0_r in Heq.
    rewrite (Nat.min_l 3 r), (Nat.min_l 3 r') in Heq by assumption.
    injection Heq as Heq. exact Heq. }
  assert (Hgen : forall (d : list F) k, length d = k * 4 -> 3 <= k ->
            firstn 3 (chunks 4 k d) = chunks 4 3 (firstn 12 d)).
  { intros d k Hlen Hk.
    pose proof (chunks_rect 4 k d Hlen) as Hrect.
    rewrite <- (chunks_concat (rect_firstn 3 Hrect)).
    rewrite length_firstn, chunks_length, (Nat.min_l 3 k) by assumption.
    f_equal. rewrite <- (firstn_concat_rect 3 Hrect).
    now rewrite (concat_chunks 4 k d Hlen). }
  now rewrite (Hgen _ _ Hw Hr), (Hgen _ _ Hw' Hr'), Hd.
Qed.
Lemma np_dot_2d_shape (A B C : ndarray F) n k m :
  shape A = [n; k] -> shape B = [k; m] -> np_dot A B = Some C ->
  shape C = [n; m] /\ wf C.
Proof.
  intros HA HB Hdot. unfold np_dot in Hdot. rewrite HA, HB in Hdot.
  rewrite Nat.eqb_refl in Hdot. injection Hdot as <-. split.
  - unfold of_rows; cbn [shape]. unfold dot_rows.
    now rewrite length_map, chunks_length.
  - apply of_rows_wf, dot_rows_rect.
Qed.
End TransformValueFacts.

Arguments transform_value {F H} uninit {h p t P T n r} _ _ _ _ _ _.
Arguments np_dot_2d_shape {F H A B C n k m} _ _ _.
Arguments first_rows_of_slice {F T T' r r'} _ _ _ _ _ _ _.

(** X1. Transforming by the 4 x 4 identity matrix returns the points
    unchanged. *)
Theorem transform_identity_unchanged
    (F : Type) (SF : Scalar F) (uninit : F) (h : store F) (points T : loc)
    (P : ndarray F) (n : nat) :
  scalar_ring F ->
  nth_error h points = Some P -> nth_error h T = Some (np_eye 4) ->
  shape P = [n; 3] -> wf P ->
  exists r h',
    transform_pointcloud_points uninit points T h = Some (r, h')
    /\ nth_error h' r = Some P.
Proof.
  intros Fring Hp Ht HshP HwfP.
  destruct (transform_value uninit Hp Ht HshP HwfP
              (eq_refl : shape (np_eye 4) = [4; 4]) eq_refl)
    as (q & h' & Erun & Hq & _).
  exists q, h'. split; [exact Erun|]. rewrite Hq. f_equal.
  rewrite (wf_of_rows HshP HwfP) at 2. change (Nat.min 3 4) with 3. f_equal.
  rewrite <- (map_id (chunks 3 n (data P))) at 2.
  apply map_ext_in. intros pt Hin.
  apply (apply_affine_eye Fring).
  assert (Hpr : rect 3 (chunks 3 n (data P))).
  { apply chunks_rect. unfold wf in HwfP. now rewrite HshP, size_2d in HwfP. }
  eapply Forall_forall in Hpr; [exact Hpr | exact Hin].
Qed.

Lemma transform_identity_unchanged_witness :
  exists r h',
    transform_pointcloud_points 77%Z 0 3 MoreSample.h = Some (r, h')
    /\ nth_error h' r = Some Sample.points.
Proof.
  apply (@transform_identity_unchanged Z _ 77%Z MoreSample.h 0 3
           Sample.points 2); try reflexivity.
  exact Zth.
Defined.

(** X2. Transforming the points with an affine [T1] (bottom row
    [0, 0, 0, 1]) and the result with [T2] gives the array that one
    transform with the matrix product [T2.dot(T1)] gives. *)
Theorem transform_composes
    (F : Type) (SF : Scalar F) (uninit uninit' uninit'' : F) (h : store F)
    (points T1 T2 T21 : loc) (P A B C : ndarray F) (n : nat) :
  scalar_ring F ->
  nth_error h points = Some P ->
  nth_error h T1 = Some A -> nth_error h T2 = Some B ->
  nth_error h T21 = Some C ->
  shape P = [n; 3] -> wf P ->
  shape A = [4; 4] -> wf A -> shape B = [4; 4] -> wf B ->
  affine A -> np_dot B A = Some C ->
  exists r h' r' h'' out,
    bind (transform_pointcloud_points uninit points T1)
      (fun moved => transform_pointcloud_points uninit' moved T2) h
    = Some (r, h')
    /\ transform_pointcloud_points uninit'' points T21 h = Some (r', h'')
    /\ nth_error h' r = Some out
    /\ nth_error h'' r' = Some out.
Proof.
  intros Fring Hp HA HB HC HshP HwfP HshA HwfA HshB HwfB Haff Hdot.
  pose proof (np_dot_2d_shape HshB HshA Hdot) as HC'.
  destruct HC' as [HshC HwfC].
  set (prows := chunks 3 n (data P)).
  assert (Hpr : rect 3 prows).
  { apply chunks_rect. unfold wf in HwfP. now rewrite HshP, size_2d in HwfP. }
  destruct (transform_value uninit Hp HA HshP HwfP HshA HwfA)
    as (q & h1 & Erun1 & Hq & Hold1).
  change (Nat.min 3 4) with 3 in Hq. fold prows in Hq.
  set (qrows := map (fun pt => map (fun row => inner row (pt ++ [s1]))
                                (firstn 3 (chunks 4 4 (data A)))) prows) in *.
  assert (Hqr : rect 3 qrows).
  { unfold rect. apply Forall_forall. intros x Hx.
    apply in_map_iff in Hx as (pt & <- & _).
    now rewrite length_map, length_firstn, chunks_length. }
  assert (Hqn : length qrows = n)
    by (unfold qrows, prows; now rewrite length_map, chunks_length).
  assert (HshQ : shape (of_rows 3 qrows) = [n; 3])
    by (unfold of_rows; cbn [shape]; now rewrite Hqn).
  destruct (transform_value uninit' Hq (Hold1 _ _ HB) HshQ (of_rows_wf Hqr)
              HshB HwfB) as (r & h' & Erun2 & Hr & _).
  destruct (transform_value uninit'' Hp HC HshP HwfP HshC HwfC)
    as (r' & h'' & Erun3 & Hr' & _).
  change (Nat.min 3 4) with 3 in Hr, Hr'. fold prows in Hr'.
  eexists r, h', r', h'', _. split.
  { unfold bind. rewrite Erun1. exact Erun2. }
  split; [exact Erun3|]. split; [exact Hr|].
  rewrite Hr'. do 2 f_equal.
  unfold of_rows; cbn [data]. rewrite <- Hqn, (chunks_concat Hqr).
  unfold qrows. rewrite map_map. apply map_ext_in. intros pt Hin.
  apply (apply_affine_compose Fring HshA HwfA HshB HwfB Haff Hdot).
  eapply Forall_forall in Hpr; [exact Hpr | exact Hin].
Qed.

Lemma transform_composes_witness :
  exists r h' r' h'' out,
    bind (transform_pointcloud_points 77%Z 0 1)
      (fun moved => transform_pointcloud_points 78%Z moved 2) MoreSample.h
    = Some (r, h')
    /\ transform_pointcloud_points 79%Z 0 3 MoreSample.h = Some (r', h'')
    /\ nth_error h' r = Some out
    /\ nth_error h'' r' = Some out.
Proof.
  apply (@transform_composes Z _ 77%Z 78%Z 79%Z MoreSample.h 0 1 2 3
           Sample.points Sample.T Sample.Tinv MoreSample.eye4 2);
    try reflexivity.
  exact Zth.
Defined.

(** X3. Only the first three rows of [T] are used: two matrices of 4
    columns and at least 3 rows that agree on their first three rows, such
    as a 4 x 4 matrix with any bottom row and the 3 x 4 matrix of its top
    rows, give the same n x 3 array, whatever the fresh buffer held.  No
    division by the homogeneous coordinate is made. *)
Theorem transform_uses_three_rows
    (F : Type) (SF : Scalar F) (uninit uninit' : F) (h : store F)
    (points T T' : loc) (P A B : ndarray F) (n r r' : nat) :
  nth_error h points = Some P ->
  nth_error h T = Some A -> nth_error h T' = Some B ->
  shape P = [n; 3] -> wf P ->
  shape A = [r; 4] -> wf A -> shape B = [r'; 4] -> wf B ->
  3 <= r -> 3 <= r' ->
  np_slice0 0 3 A = np_slice0 0 3 B ->
  exists q h1 q' h2 out,
    transform_pointcloud_points uninit points T h = Some (q, h1)
    /\ transform_pointcloud_points uninit' points T' h = Some (q', h2)
    /\ nth_error h1 q = Some out
    /\ nth_error h2 q' = Some out
    /\ shape out = [n; 3].
Proof.
  intros Hp HA HB HshP HwfP HshA HwfA HshB HwfB Hr Hr' Hrows.
  destruct (transform_value uninit Hp HA HshP HwfP HshA HwfA)
    as (q & h1 & Erun1 & Hq & _).
  destruct (transform_value uninit' Hp HB HshP HwfP HshB HwfB)
    as (q' & h2 & Erun2 & Hq' & _).
  rewrite (Nat.min_l 3 r) in Hq by assumption.
  rewrite (Nat.min_l 3 r') in Hq' by assumption.
  rewrite <- (first_rows_of_slice HshA HwfA HshB HwfB Hr Hr' Hrows) in Hq'.
  eexists q, h1, q', h2, _.
  split; [exact Erun1|]. split; [exact Erun2|].
  split; [exact Hq|]. split; [exact Hq'|].
  unfold of_rows; cbn [shape]. now rewrite length_map, chunks_length.
Qed.

Lemma transform_uses_three_rows_witness :
  exists q h1 q' h2 out,
    transform_pointcloud_points 77%Z 0 5 MoreSample.h = Some (q, h1)
    /\ transform_pointcloud_points 78%Z 0 4 MoreSample.h = Some (q', h2)
    /\ nth_error h1 q = Some out
    /\ nth_error h2 q' = Some out
    /\ shape out = [2; 3].
Proof.
  apply (@transform_uses_three_rows Z _ 77%Z 78%Z MoreSample.h 0 5 4
           Sample.points MoreSample.Tproj MoreSample.T34 2 4 3);
    try reflexivity; lia.
Defined.

(** X4. An array of points whose second dimension is not 3 is rejected,
    whatever [T] is: the broadcast of the slice assignment fails, or, for
    one column, the assignment of the homogeneous coordinate does. *)
Theorem transform_rejects_other_widths
    (F : Type) (SF : Scalar F) (uninit : F) (h : store F) (points T : loc)
    (P : ndarray F) (n c : nat) :
  nth_error h points = Some P -> shape P = [n; c] -> c <> 3 ->
  transform_pointcloud_points uninit points T h = None.
Proof.
  intros Hp HshP Hc.
  unfold transform_pointcloud_points.
  rewrite (bind_run _ (shape_at_run _ _ 0 Hp ltac:(rewrite HshP; reflexivity))).
  rewrite (bind_run _ (shape_at_run _ _ 1 Hp ltac:(rewrite HshP; reflexivity))).
  unfold np_empty. rewrite (bind_run _ (eq_refl : alloc _ h = Some (_, _))).
  set (tmp0 := np_full [n; c + 1] uninit).
  assert (Hs0 : shape tmp0 = [n; c + 1]) by reflexivity. clearbody tmp0.
  destruct (Nat.eq_dec c 1) as [->|Hc1].
  - assert (Hset : exists rows, np_set_cols tmp0 0 3 P = Some (of_rows 2 rows)).
    { unfold np_set_cols. rewrite Hs0, HshP, Nat.eqb_refl. cbn.
      eexists; reflexivity. }
    destruct Hset as [rows Hset].
    rewrite (bind_run _ (assign_cols_run _ _ 0 3 _ Hp Hset)).
    assert (Hcol : assign_col (length h) 3 s1 (h ++ [of_rows 2 rows]) = None).
    { unfold assign_col.
      rewrite (bind_run _ (load_run (nth_error_last h _))). reflexivity. }
    unfold bind at 1. now rewrite Hcol.
  - assert (Hset : np_set_cols tmp0 0 3 P = None).
    { unfold np_set_cols. rewrite Hs0, HshP, Nat.eqb_refl.
      rewrite Nat.min_0_l, Nat.sub_0_r. cbn [andb].
      replace (c =? Nat.min 3 (c + 1)) with false
        by (symmetry; apply Nat.eqb_neq; lia).
      replace (c =? 1) with false by (symmetry; apply Nat.eqb_neq; lia).
      reflexivity. }
    assert (Hcols : assign_cols (length h) 0 3 points (h ++ [tmp0]) = None).
    { unfold assign_cols.
      rewrite (bind_run _ (load_run (nth_error_last h _))).
      rewrite (bind_run _ (load_run (nth_error_old _ Hp))).
      unfold bind, lift. now rewrite Hset. }
    unfold bind at 1. now rewrite Hcols.
Qed.

Lemma transform_rejects_other_widths_witness :
  transform_pointcloud_points 77%Z 6 1 MoreSample.h = None.
Proof.
  apply (@transform_rejects_other_widths Z _ 77%Z MoreSample.h 6 1
           MoreSample.flat_points 2 2); [reflexivity | reflexivity | lia].
Defined.

(** X5. A matrix [T] whose second dimension is not 4 is rejected: the
    product does not align. *)
Theorem transform_rejects_other_matrices
    (F : Type) (SF : Scalar F) (uninit : F) (h : store F) (points T : loc)
    (P A : ndarray F) (n r k : nat) :
  nth_error h points = Some P -> nth_error h T = Some A ->
  shape P = [n; 3] -> wf P -> shape A = [r; k] -> k <> 4 ->
  transform_pointcloud_points uninit points T h = None.
Proof.
  intros Hp HA HshP HwfP HshA Hk.
  rewrite (transform_prefix uninit T Hp HshP HwfP).
  set (g := h ++ _).
  assert (HA' : nth_error g T = Some A).
  { unfold g. rewrite nth_error_app1; [assumption|].
    apply nth_error_Some; congruence. }
  assert (Hlast : exists B, nth_error g (length h + 1) = Some B
                            /\ shape B = [4; n]).
  { unfold g. rewrite nth_error_app2 by lia.
    replace (length h + 1 - length h) with 1 by lia. cbn [nth_error].
    eexists; split; [reflexivity|].
    unfold of_rows; cbn [shape]. now rewrite transpose_rows_length. }
  destruct Hlast as (B & HB & HshB).
  assert (Hdot : dot T (length h + 1) g = None).
  { unfold dot.
    rewrite (bind_run _ (load_run HA')), (bind_run _ (load_run HB)).
    unfold np_dot. rewrite HshA, HshB.
    replace (k =? 4) with false by (symmetry; apply Nat.eqb_neq; lia).
    reflexivity. }
  unfold bind at 1. now rewrite Hdot.
Qed.

Lemma transform_rejects_other_matrices_witness :
  transform_pointcloud_points 77%Z 0 7 MoreSample.h = None.
Proof.
  apply (@transform_rejects_other_matrices Z _ 77%Z MoreSample.h 0 7
           Sample.points MoreSample.T33 2 3 3); try reflexivity. lia.
Defined.

Section RotationMoreFacts.
Local Open Scope R_scope.

Lemma neg_norm (x y z : R) :
  euclidean_norm (mk_nd [3%nat] [- x; - y; - z])
  = euclidean_norm (mk_nd [3%nat] [x; y; z]).
Proof. rewrite !norm3_eq. f_equal. ring. Qed.

Lemma rodrigues_neg_transpose (c s u0 u1 u2 : R) :
  np_transpose (rodrigues_matrix c s u0 u1 u2)
  = Some (rodrigues_matrix c s (- u0) (- u1) (- u2)).
Proof.
  unfold rodrigues_matrix.
  cbv [np_transpose shape data of_rows transpose_rows chunks column seq map
       flat_map firstn skipn nth_error app concat length].
  do 2 f_equal. repeat (apply (f_equal2 (@cons R)); [ring|]). reflexivity.
Qed.

(** The rotation leaves its axis where it is. *)
Lemma rodrigues_fixes_axis (c s u0 u1 u2 a : R) :
  u0 * u0 + u1 * u1 + u2 * u2 = 1 ->
  np_dot (rodrigues_matrix c s u0 u1 u2)
    (mk_nd [3; 1]%nat [a * u0; a * u1; a * u2])
  = Some (mk_nd [3; 1]%nat [a * u0; a * u1; a * u2]).
Proof.
  intros Hu. unfold rodrigues_matrix.
  cbv [np_dot shape data of_rows dot_rows chunks column seq map flat_map
       firstn skipn nth_error app concat length Nat.eqb inner sadd smul s0
       Scalar_R].
  do 2 f_equal. repeat (apply (f_equal2 (@cons R)); [nsatz|]). reflexivity.
Qed.
End RotationMoreFacts.

Section RotationMoreClaims.
Local Open Scope R_scope.

(** X6. The matrix of the negated axis-angle vector is the transpose of
    the matrix of the vector, and undoes it: their product is the
    identity. *)
Theorem angleaxis_negated_is_inverse (uninit : R) (aa : ndarray R) :
  shape aa = [3%nat] -> wf aa ->
  exists M M',
    outcome (angleaxis_to_rotation_matrix uninit aa) = Some M
    /\ outcome (angleaxis_to_rotation_matrix uninit (np_neg aa)) = Some M'
    /\ np_transpose M = Some M'
    /\ np_dot M' M = Some identity3.
Proof.
  intros Hsh Hwf. destruct (vector3_inv Hsh Hwf) as (x & y & z & ->).
  change (np_neg (mk_nd [3%nat] [x; y; z]))
    with (mk_nd [3%nat] [- x; - y; - z]).
  rewrite !angleaxis_run, neg_norm.
  set (a := euclidean_norm (mk_nd [3%nat] [x; y; z])).
  assert (Horth : forall M M', orthonormal M -> np_transpose M = Some M' ->
                               np_dot M' M = Some identity3).
  { intros M M' HM HT. unfold orthonormal in HM. now rewrite HT in HM. }
  destruct (Rlt_dec 1e-6 a) as [Hlt|Hle].
  - assert (HT : np_transpose (rodrigues_matrix (cos a) (sin a)
                                 (x / a) (y / a) (z / a))
                 = Some (rodrigues_matrix (cos a) (sin a)
                           (- x / a) (- y / a) (- z / a))).
    { rewrite rodrigues_neg_transpose. do 2 f_equal; unfold Rdiv; ring. }
    eexists _, _. split; [reflexivity|]. split; [reflexivity|].
    split; [exact HT|].
    apply Horth; [|exact HT].
    apply rodrigues_orthonormal; [exact (sin2_cos2 a)|].
    apply unit_axis. fold a. lra.
  - eexists _, _. split; [reflexivity|]. split; [reflexivity|].
    split; [reflexivity|].
    apply Horth; [apply identity3_orthonormal | reflexivity].
Qed.

Lemma angleaxis_negated_is_inverse_witness :
  let aa := mk_nd [3%nat] [0; 0; 1] in
  exists M M',
    outcome (angleaxis_to_rotation_matrix 7 aa) = Some M
    /\ outcome (angleaxis_to_rotation_matrix 7 (np_neg aa)) = Some M'
    /\ np_transpose M = Some M'
    /\ np_dot M' M = Some identity3.
Proof.
  exact (@angleaxis_negated_is_inverse 7 (mk_nd [3%nat] [0; 0; 1])
           eq_refl eq_refl).
Defined.

(** X7. The rotation matrix of a vector leaves the vector where it is:
    the matrix times the vector, as a column, is the vector. *)
Theorem angleaxis_fixes_axis (uninit : R) (aa : ndarray R) :
  shape aa = [3%nat] -> wf aa ->
  exists M,
    outcome (angleaxis_to_rotation_matrix uninit aa) = Some M
    /\ np_dot M (np_column aa) = Some (np_column aa).
Proof.
  intros Hsh Hwf. destruct (vector3_inv Hsh Hwf) as (x & y & z & ->).
  rewrite angleaxis_run.
  change (np_column (mk_nd [3%nat] [x; y; z]))
    with (mk_nd [3; 1]%nat [x; y; z]).
  set (a := euclidean_norm (mk_nd [3%nat] [x; y; z])).
  destruct (Rlt_dec 1e-6 a) as [Hlt|Hle].
  - eexists. split; [reflexivity|].
    assert (Ha : a <> 0) by lra.
    replace x with (a * (x / a)) at 2 3 by (field; exact Ha).
    replace y with (a * (y / a)) at 2 3 by (field; exact Ha).
    replace z with (a * (z / a)) at 2 3 by (field; exact Ha).
    apply rodrigues_fixes_axis. apply unit_axis. fold a. lra.
  - eexists. split; [reflexivity|].
    unfold identity3.
    cbv [np_dot shape data of_rows dot_rows chunks column seq map flat_map
         firstn skipn nth_error app concat length Nat.eqb inner sadd smul s0
         Scalar_R].
    do 2 f_equal. repeat (apply (f_equal2 (@cons R)); [ring|]). reflexivity.
Qed.

Lemma angleaxis_fixes_axis_witness :
  let aa := mk_nd [3%nat] [0; 0; 1] in
  exists M,
    outcome (angleaxis_to_rotation_matrix 7 aa) = Some M
    /\ np_dot M (np_column aa) = Some (np_column aa).
Proof.
  exact (@angleaxis_fixes_axis 7 (mk_nd [3%nat] [0; 0; 1]) eq_refl eq_refl).
Defined.

(** X10. A 2-d array that is not square, such as a rotation of shape
    (1, 3) that was not squeezed, is an error: its product with itself
    does not align.  No division is made. *)
Theorem angleaxis_unsqueezed_fails (uninit : R) (aa : ndarray R) (n k : nat) :
  shape aa = [n; k] -> n <> k ->
  angleaxis_to_rotation_matrix uninit aa = (0%nat, None).
Proof.
  intros Hsh Hnk. unfold angleaxis_to_rotation_matrix, np_dot.
  rewrite Hsh.
  replace (k =? n)%nat with false by (symmetry; apply Nat.eqb_neq; lia).
  reflexivity.
Qed.

Lemma angleaxis_unsqueezed_fails_witness :
  angleaxis_to_rotation_matrix 7 ViewSample.rotation = (0%nat, None).
Proof.
  apply (@angleaxis_unsqueezed_fails 7 ViewSample.rotation 1 3);
    [reflexivity | lia].
Defined.

(** X11. The matrix does not depend on what the buffer of [np.empty]
    held: every cell is written before the matrix is returned. *)
Theorem angleaxis_ignores_uninitialised (uninit uninit' : R) (aa : ndarray R) :
  angleaxis_to_rotation_matrix uninit aa
  = angleaxis_to_rotation_matrix uninit' aa.
Proof. reflexivity. Qed.
End RotationMoreClaims.

Ltac obind_inv H x E :=
  match type of H with
  | obind ?m _ = Some _ =>
      destruct m as [x|] eqn:E; [cbn [obind] in H | discriminate H]
  end.

Section ActorFacts.
Local Open Scope R_scope.

Lemma all_some_length (A : Type) (l : list (option A)) (l' : list A) :
  all_some l = Some l' -> length l' = length l.
Proof.
  revert l'; induction l as [|[x|] l IH]; intros l' Hl; simpl in Hl.
  - now injection Hl as <-.
  - destruct (all_some l) as [t|]; [|discriminate].
    injection Hl as <-. simpl. now rewrite (IH t eq_refl).
  - discriminate.
Qed.

Lemma all_some_In_None (A : Type) (l : list (option A)) :
  In None l -> all_some l = None.
Proof.
  induction l as [|[x|] l IH]; intros Hin; simpl.
  - destruct Hin.
  - destruct Hin as [E|Hin]; [discriminate|]. now rewrite (IH Hin).
  - reflexivity.
Qed.

(** Rows of three coordinates are points of the toolkit. *)
Lemma all_some_vtk_points (rows : list (list R)) :
  rect 3 rows ->
  exists pts,
    all_some (map vtk_point rows) = Some pts /\ map coordinates pts = rows.
Proof.
  induction 1 as [|r rows Hr _ (pts & Hpts & Hc)]; [now exists []|].
  destruct r as [|x [|y [|z [|? ?]]]]; try discriminate.
  exists ((x, y, z) :: pts). simpl. rewrite Hpts. simpl. now rewrite Hc.
Qed.

Lemma vtk_point_other_length (r : list R) :
  length r <> 3%nat -> vtk_point r = None.
Proof.
  destruct r as [|x [|y [|z [|? ?]]]]; simpl; intros Hl;
    [reflexivity | reflexivity | reflexivity | lia | reflexivity].
Qed.

(** The scaled and shifted local vertices: 11 rows of 3. *)
Lemma camera_shifted (t : ndarray R) :
  shape t = [3%nat] -> wf t ->
  exists srows,
    np_sub_rows (np_scale 0.25 cam_points) t = Some (of_rows 3 srows)
    /\ rect 3 srows /\ length srows = 11%nat.
Proof.
  destruct t as [sh d]. unfold wf; simpl. intros -> Hd.
  do 4 (destruct d as [|? d]; try discriminate).
  unfold np_sub_rows.
  change (shape (np_scale 0.25 cam_points)) with [11; 3]%nat.
  cbn [shape Nat.eqb orb data].
  eexists. split; [reflexivity|].
  split; [array_compute; repeat constructor | reflexivity].
Qed.
Lemma np_sub_rows_shape (a t b : ndarray R) :
  np_sub_rows a t = Some b ->
  exists n c, shape a = [n; c] /\ shape b = [n; c].
Proof.
  unfold np_sub_rows. intros Hb.
  destruct (shape a) as [|n [|c [|? ?]]]; try discriminate.
  destruct (shape t) as [|c' [|? ?]]; try discriminate.
  destruct ((c' =? c)%nat || (c' =? 1)%nat); [|discriminate].
  exists n, c. split; [reflexivity|].
  injection Hb as <-. unfold of_rows; cbn [shape].
  now rewrite length_map, chunks_length.
Qed.

Lemma np_dot_rows_length (a b c : ndarray R) (n k : nat) rows :
  shape a = [n; k] -> np_dot a b = Some c -> rows_of c = Some rows ->
  length rows = n.
Proof.
  unfold np_dot. intros Ha Hc Hrows. rewrite Ha in Hc.
  destruct (shape b) as [|k' [|m' [|? ?]]]; try discriminate.
  destruct (k =? k')%nat; [|discriminate].
  injection Hc as <-.
  unfold rows_of, of_rows in Hrows; cbn [shape data] in Hrows.
  injection Hrows as <-. rewrite chunks_length. unfold dot_rows.
  now rewrite length_map, chunks_length.
Qed.
End ActorFacts.

Section CameraMoreClaims.
Local Open Scope R_scope.

(** X12. For a translation of 3 elements, [create_camera_actor] builds
    an actor exactly when the 2-d array [R] is 3 x 3: with another number
    of rows the product does not align, and with another number of
    columns the toolkit gets points that do not have three coordinates. *)
Theorem create_camera_actor_needs_3x3 (Rm t : ndarray R) (k m : nat) :
  shape Rm = [k; m] -> shape t = [3%nat] -> wf t ->
  (exists a, create_camera_actor Rm t = Some a) <-> (k = 3 /\ m = 3)%nat.
Proof.
  intros HshR Hsht Hwft.
  destruct (camera_shifted Hsht Hwft) as (srows & Hsub & Hsr & Hsl).
  unfold create_camera_actor. rewrite Hsub. cbn [obind].
  unfold np_dot. cbn [of_rows shape data]. rewrite HshR, Hsl.
  assert (Hch : chunks 3 11 (concat srows) = srows)
    by (rewrite <- Hsl; now apply chunks_concat).
  rewrite Hch.
  destruct (Nat.eq_dec k 3) as [->|Hk].
  - cbn [Nat.eqb obind].
    set (rb := chunks m 3 (data Rm)).
    assert (Hrows : rows_of (of_rows m (dot_rows m srows rb))
                    = Some (dot_rows m srows rb)).
    { unfold rows_of, of_rows; cbn [shape data].
      now rewrite (chunks_concat (dot_rows_rect m srows rb)). }
    rewrite Hrows. cbn [obind].
    destruct (Nat.eq_dec m 3) as [->|Hm].
    + destruct (all_some_vtk_points (dot_rows_rect 3 srows rb))
        as (pts & Hpts & _).
      rewrite Hpts. cbn [obind]. split; [intros _; now split|].
      intros _. eexists; reflexivity.
    + split; [|intros [_ E]; contradiction].
      intros [a Ha]. exfalso.
      rewrite all_some_In_None in Ha; [discriminate|].
      destruct srows as [|r0 srows]; [discriminate|].
      left. apply vtk_point_other_length.
      now rewrite length_map, length_seq.
  - replace (3 =? k)%nat with false by (symmetry; apply Nat.eqb_neq; lia).
    cbn [obind]. split; [intros [a Ha]; discriminate | intros [E _]; contradiction].
Qed.

Lemma create_camera_actor_needs_3x3_witness :
  (exists a, create_camera_actor (np_eye 3) (np_zeros [3%nat]) = Some a)
  <-> (3 = 3 /\ 3 = 3)%nat.
Proof.
  exact (@create_camera_actor_needs_3x3 (np_eye 3) (np_zeros [3%nat]) 3 3
           eq_refl eq_refl eq_refl).
Defined.

(** X13. Whatever pose it is given, a camera actor that is built has 11
    points, the same four line cells and the same triangle, no colours,
    and every cell refers to points of the mesh. *)
Theorem create_camera_actor_topology (Rm t : ndarray R) (a : actor) :
  create_camera_actor Rm t = Some a ->
  length (act_points a) = 11%nat
  /\ act_lines a = [[1; 2; 3; 4; 1]; [1; 0; 2]; [3; 0; 4]; [8; 10; 9]]%nat
  /\ act_polys a = [[5; 6; 7]]%nat
  /\ act_verts a = []
  /\ act_colors a = None
  /\ Forall (Forall (fun i => (i < length (act_points a))%nat)) (act_cells a).
Proof.
  unfold create_camera_actor. intros Hrun.
  obind_inv Hrun shifted Eshift. obind_inv Hrun placed Eplaced.
  obind_inv Hrun rows Erows. obind_inv Hrun vpoints Epoints.
  injection Hrun as <-. cbn [act_points act_lines act_polys act_verts
                             act_colors act_cells app].
  assert (Hs : shape shifted = [11; 3]%nat).
  { destruct (np_sub_rows_shape _ _ Eshift) as (n & c & Hcam & Hshifted).
    change (shape (np_scale 0.25 cam_points)) with [11; 3]%nat in Hcam.
    injection Hcam as <- <-. exact Hshifted. }
  assert (Hn : length vpoints = 11%nat).
  { rewrite (all_some_length _ Epoints), length_map.
    eapply np_dot_rows_length; eassumption. }
  rewrite Hn. repeat split. repeat constructor.
Qed.

Lemma create_camera_actor_topology_witness :
  exists a,
    create_camera_actor (np_eye 3) (np_zeros [3%nat]) = Some a
    /\ length (act_points a) = 11%nat
    /\ act_lines a = [[1; 2; 3; 4; 1]; [1; 0; 2]; [3; 0; 4]; [8; 10; 9]]%nat
    /\ act_polys a = [[5; 6; 7]]%nat
    /\ act_verts a = []
    /\ act_colors a = None
    /\ Forall (Forall (fun i => (i < length (act_points a))%nat)) (act_cells a).
Proof.
  eexists. split; [array_compute; reflexivity|].
  apply (@create_camera_actor_topology (np_eye 3) (np_zeros [3%nat])).
  array_compute. reflexivity.
Defined.
End CameraMoreClaims.

Section ItemFacts.

Lemma nth_error_concat_rect (A : Type) (k : nat) (rows : list (list A)) i j :
  rect k rows -> j < k ->
  nth_error (concat rows) (i * k + j)
  = match nth_error rows i with
    | Some r => nth_error r j
    | None => None
    end.
Proof.
  intros Hr Hj; revert i. induction Hr as [|r rows Hlen _ IH]; intros i.
  - simpl. now destruct (i * k + j), i.
  - destruct i as [|i]; simpl.
    + rewrite nth_error_app1 by lia. reflexivity.
    + rewrite nth_error_app2 by lia.
      replace (k + i * k + j - length r) with (i * k + j) by lia. apply IH.
Qed.

Lemma all_some_map_Some (A B : Type) (g : A -> B) (l : list A) :
  all_some (map (fun x => Some (g x)) l) = Some (map g l).
Proof. induction l as [|x l IH]; simpl; [reflexivity | now rewrite IH]. Qed.

(** An entry of a well-formed 2-d array, through its rows. *)
Lemma np_get_item_row (A : Type) (a : ndarray A) m k i j row :
  shape a = [m; k] -> wf a ->
  nth_error (chunks k m (data a)) i = Some row -> j < k ->
  np_get_item a i j = nth_error row j.
Proof.
  intros Hs Hw Hrow Hj. unfold np_get_item. rewrite Hs.
  unfold wf in Hw. rewrite Hs, size_2d in Hw.
  assert (Hi : i < m).
  { rewrite <- (chunks_length k m (data a)). apply nth_error_Some. congruence. }
  replace (i <? m) with true by (symmetry; apply Nat.ltb_lt; exact Hi).
  replace (j <? k) with true by (symmetry; apply Nat.ltb_lt; exact Hj).
  cbn [andb]. rewrite <- (concat_chunks k m (data a) Hw) at 1.
  rewrite (nth_error_concat_rect i (chunks_rect k m (data a) Hw) Hj).
  now rewrite Hrow.
Qed.

End ItemFacts.

Section CloudActorFacts.
Local Open Scope R_scope.

Lemma points_rows (points : ndarray R) n :
  shape points = [n; 3]%nat -> wf points ->
  exists pts,
    all_some (map vtk_point (chunks 3 n (data points))) = Some pts
    /\ concat (map coordinates pts) = data points
    /\ length pts = n.
Proof.
  intros Hs Hw. unfold wf in Hw. rewrite Hs, size_2d in Hw.
  destruct (all_some_vtk_points (chunks_rect 3 n (data points) Hw))
    as (pts & Hpts & Hc).
  exists pts. split; [exact Hpts|]. split.
  - rewrite Hc. now apply concat_chunks.
  - rewrite <- (length_map coordinates), Hc. apply chunks_length.
Qed.
End CloudActorFacts.

Section CloudActorClaims.

(** X14. For an n x 3 array of points and no colours,
    [create_pointcloud_actor] builds an actor of n points, in the order
    of the rows, with one cell of a single vertex per point, in the same
    order, and nothing else. *)
Theorem create_pointcloud_actor_points (points : ndarray R) (n : nat) :
  shape points = [n; 3]%nat -> wf points ->
  exists a,
    create_pointcloud_actor points None = Some a
    /\ concat (map coordinates (act_points a)) = data points
    /\ length (act_points a) = n
    /\ act_verts a = map (fun i => [i]) (seq 0 n)
    /\ act_colors a = None /\ act_lines a = [] /\ act_polys a = [].
Proof.
  intros Hs Hw. destruct (points_rows Hs Hw) as (pts & Hpts & Hc & Hl).
  unfold create_pointcloud_actor, rows_of. rewrite Hs. cbn [nth_error obind].
  rewrite Hpts. cbn [obind]. eexists. split; [reflexivity|].
  cbn [act_points act_verts act_colors act_lines act_polys].
  repeat split; assumption.
Qed.

Lemma create_pointcloud_actor_points_witness :
  let points := mk_nd [2; 3]%nat [1; 2; 3; 4; 5; 6]%R in
  exists a,
    create_pointcloud_actor points None = Some a
    /\ concat (map coordinates (act_points a)) = data points
    /\ length (act_points a) = 2%nat
    /\ act_verts a = map (fun i => [i]) (seq 0 2)
    /\ act_colors a = None /\ act_lines a = [] /\ act_polys a = [].
Proof.
  exact (@create_pointcloud_actor_points
           (mk_nd [2; 3]%nat [1; 2; 3; 4; 5; 6]%R) 2 eq_refl eq_refl).
Defined.

(** X15. The colours are read for the points only: with an array of
    colours of at least as many rows as there are points and at least 3
    columns, the actor gets one colour per point, the first three entries
    of the row of the same index; rows and columns in excess are ignored
    without an error. *)
Theorem create_pointcloud_actor_colors
    (points : ndarray R) (colors : ndarray Z) (n m k : nat) :
  shape points = [n; 3]%nat -> wf points ->
  shape colors = [m; k] -> wf colors -> n <= m -> 3 <= k ->
  exists a,
    create_pointcloud_actor points (Some colors) = Some a
    /\ act_colors a = Some (map rgb (firstn n (chunks k m (data colors))))
    /\ length (act_points a) = n.
Proof.
  intros Hs Hw Hsc Hwc Hnm Hk.
  destruct (points_rows Hs Hw) as (pts & Hpts & _ & Hl).
  unfold create_pointcloud_actor, rows_of. rewrite Hs. cbn [nth_error obind].
  rewrite Hpts. cbn [obind].
  set (crows := chunks k m (data colors)).
  assert (Hcr : rect k crows).
  { apply chunks_rect. unfold wf in Hwc. now rewrite Hsc, size_2d in Hwc. }
  assert (Hlen : length (firstn n crows) = n).
  { rewrite length_firstn. unfold crows. rewrite chunks_length. lia. }
  assert (Hcols :
            map (fun i => (r <- np_get_item colors i 0 ;;
                           g <- np_get_item colors i 1 ;;
                           b <- np_get_item colors i 2 ;;
                           Some (r, g, b))%opt) (seq 0 n)
            = map (fun row => Some (rgb row)) (firstn n crows)).
  { rewrite <- Hlen at 1. apply map_seq_nth_error.
    intros i row Hrow.
    assert (Hrow' : nth_error crows i = Some row).
    { rewrite nth_error_firstn in Hrow.
      destruct (i <? n); [exact Hrow | discriminate]. }
    assert (Hrl : length row = k).
    { eapply Forall_forall in Hcr; [exact Hcr | eapply nth_error_In; eauto]. }
    rewrite !(np_get_item_row _ Hsc Hwc Hrow') by lia.
    destruct row as [|r [|g [|b row]]]; simpl in Hrl; try lia.
    reflexivity. }
  rewrite Hcols, all_some_map_Some. cbn [option_map obind].
  eexists. split; [reflexivity|]. split; [reflexivity | exact Hl].
Qed.

Lemma create_pointcloud_actor_colors_witness :
  let points := mk_nd [1; 3]%nat [1; 2; 3]%R in
  let colors := mk_nd [2; 4]%nat [255; 0; 0; 9; 0; 255; 0; 9]%Z in
  exists a,
    create_pointcloud_actor points (Some colors) = Some a
    /\ act_colors a = Some (map rgb (firstn 1 (chunks 4 2 (data colors))))
    /\ length (act_points a) = 1%nat.
Proof.
  apply (@create_pointcloud_actor_colors
           (mk_nd [1; 3]%nat [1; 2; 3]%R)
           (mk_nd [2; 4]%nat [255; 0; 0; 9; 0; 255; 0; 9]%Z) 1 2 4);
    try reflexivity; lia.
Defined.

(** X16. Too few colours are an error: with fewer rows of colours than
    points, or, when there is a point, fewer than 3 columns, no actor is
    built. *)
Theorem create_pointcloud_actor_few_colors
    (points : ndarray R) (colors : ndarray Z) (n m k : nat) :
  shape points = [n; 3]%nat -> wf points -> shape colors = [m; k] ->
  m < n \/ (k < 3 /\ 0 < n) ->
  create_pointcloud_actor points (Some colors) = None.
Proof.
  intros Hs Hw Hsc Hfew.
  destruct (points_rows Hs Hw) as (pts & Hpts & _ & _).
  unfold create_pointcloud_actor, rows_of. rewrite Hs. cbn [nth_error obind].
  rewrite Hpts. cbn [obind].
  rewrite all_some_In_None; [reflexivity|].
  apply in_map_iff. destruct Hfew as [Hm | [Hk Hn]].
  - exists m. split; [|apply in_seq; lia].
    unfold np_get_item. rewrite Hsc, Nat.ltb_irrefl. reflexivity.
  - exists 0%nat. split; [|apply in_seq; lia].
    assert (H2 : np_get_item colors 0 2 = None).
    { unfold np_get_item. rewrite Hsc.
      replace (2 <? k) with false by (symmetry; apply Nat.ltb_ge; lia).
      now rewrite andb_false_r. }
    rewrite H2.
    destruct (np_get_item colors 0 0); [|reflexivity].
    destruct (np_get_item colors 0 1); reflexivity.
Qed.

Lemma create_pointcloud_actor_few_colors_witness :
  create_pointcloud_actor (mk_nd [2; 3]%nat [1; 2; 3; 4; 5; 6]%R)
    (Some (mk_nd [1; 3]%nat [255; 0; 0]%Z)) = None.
Proof.
  apply (@create_pointcloud_actor_few_colors
           (mk_nd [2; 3]%nat [1; 2; 3; 4; 5; 6]%R)
           (mk_nd [1; 3]%nat [255; 0; 0]%Z) 2 1 3);
    try reflexivity. left; lia.
Defined.

(** X17. The width of the points is checked by the toolkit only, point
    by point: a 2-d array whose second dimension is not 3 gives an actor
    exactly when it has no rows, and the actor is then empty. *)
Theorem create_pointcloud_actor_other_widths
    (points : ndarray R) (colors : option (ndarray Z)) (n c : nat) :
  shape points = [n; c] -> wf points -> c <> 3%nat ->
  ((exists a, create_pointcloud_actor points colors = Some a) <-> n = 0%nat)
  /\ forall a, create_pointcloud_actor points colors = Some a ->
       act_points a = [] /\ act_verts a = [].
Proof.
  intros Hs Hw Hc.
  unfold wf in Hw. rewrite Hs, size_2d in Hw.
  unfold create_pointcloud_actor, rows_of. rewrite Hs. cbn [nth_error obind].
  destruct n as [|n].
  - destruct colors as [cs|];
      cbn [chunks map all_some option_map obind seq];
      (split; [split; [reflexivity | intros _; eexists; reflexivity]|]);
      intros a Ha; injection Ha as <-; split; reflexivity.
  - assert (Hnone : all_some (map vtk_point (chunks c (S n) (data points)))
                    = None).
    { apply all_some_In_None. cbn [chunks map]. left.
      apply vtk_point_other_length. rewrite length_firstn. lia. }
    rewrite Hnone. cbn [obind].
    split; [split; [intros [a Ha]; discriminate | discriminate]|].
    intros a Ha; discriminate.
Qed.

Lemma create_pointcloud_actor_other_widths_witness :
  let points := mk_nd [0; 2]%nat (@nil R) in
  ((exists a, create_pointcloud_actor points None = Some a) <-> 0%nat = 0%nat)
  /\ forall a, create_pointcloud_actor points None = Some a ->
       act_points a = [] /\ act_verts a = [].
Proof.
  apply (@create_pointcloud_actor_other_widths
           (mk_nd [0; 2]%nat (@nil R)) None 0 2); [reflexivity | reflexivity | lia].
Defined.
End CloudActorClaims.

Section DepthsMoreFacts.
Local Open Scope R_scope.
Variable uint8 : R -> Z.
Variable kernel :
  ndarray R -> ndarray R -> ndarray R -> ndarray R ->
  option (ndarray R) -> option (ndarray Z) -> option pointcloud.
Variable intrinsics : ndarray R.

Local Abbreviation step :=
  (visualize_depths_step uint8 kernel intrinsics (np_eye 3) (np_zeros [3%nat])).
Local Abbreviation loop :=
  (visualize_depths_loop uint8 kernel intrinsics (np_eye 3) (np_zeros [3%nat])).

(** An entry that is processed has a depth map of two dimensions. *)
Lemma visualize_depths_step_2d acc v acc' :
  step acc v = Some acc' -> exists h w, shape (vis_depth v) = [h; w].
Proof.
  unfold visualize_depths_step. intros Hstep.
  destruct (shape (vis_depth v)) as [|h [|w [|? ?]]]; try discriminate.
  now exists h, w.
Qed.

Lemma visualize_depths_loop_2d items : forall acc acc',
  loop acc items = Some acc' ->
  Forall (fun kv => exists h w, shape (vis_depth (snd kv)) = [h; w]) items.
Proof.
  induction items as [|[k v] items IH]; intros acc acc' Hloop; [constructor|].
  cbn [visualize_depths_loop] in Hloop.
  destruct (step acc v) as [acc1|] eqn:Estep; [|discriminate].
  cbn [obind] in Hloop. constructor.
  - exact (visualize_depths_step_2d _ _ Estep).
  - exact (IH _ _ Hloop).
Qed.

Lemma stacked_cons (A : Type) (P : ndarray A) (l : list (ndarray A))
    (Q : ndarray A) p q :
  shape P = [p; 3%nat] -> shape Q = [q; 3%nat] ->
  mk_nd [(list_sum (map row_count (rev l)) + (p + q))%nat; 3%nat]
    (concat (map (@data A) (rev l)) ++ data P ++ data Q)
  = mk_nd [(list_sum (map row_count (rev (P :: l))) + q)%nat; 3%nat]
      (concat (map (@data A) (rev (P :: l))) ++ data Q).
Proof.
  intros HP HQ. cbn [rev]. rewrite !map_app, list_sum_app, concat_app.
  cbn [map list_sum concat]. change (row_count P) with (hd 0%nat (shape P)).
  rewrite HP. cbn [hd]. rewrite app_nil_r, <- app_assoc.
  replace (list_sum [p]) with p by (simpl; lia).
  f_equal. f_equal. lia.
Qed.

Lemma stacked_last (A : Type) (P : ndarray A) (l : list (ndarray A)) p :
  shape P = [p; 3%nat] ->
  stacked_in_reverse (P :: l)
  = mk_nd [(list_sum (map row_count (rev l)) + p)%nat; 3%nat]
      (concat (map (@data A) (rev l)) ++ data P).
Proof.
  intros HP. unfold stacked_in_reverse. cbn [rev].
  rewrite !map_app, list_sum_app, concat_app.
  cbn [map concat]. change (row_count P) with (hd 0%nat (shape P)).
  rewrite HP. cbn [hd]. rewrite app_nil_r.
  replace (list_sum [p]) with p by (simpl; lia). reflexivity.
Qed.

(** The loop from a dictionary that holds arrays: the clouds of the
    entries are stacked on them, the last one first. *)
Lemma visualize_depths_loop_stack items clouds :
  clouds_of uint8 kernel intrinsics items clouds ->
  forall A CA a,
    shape A = [a; 3%nat] -> shape CA = [a; 3%nat] ->
    loop {| pc_points := Some A; pc_colors := Some CA |} items
    = Some {| pc_points :=
                Some (mk_nd [(list_sum (map row_count (rev (map fst clouds)))
                              + a)%nat; 3%nat]
                        (concat (map (@data R) (rev (map fst clouds)))
                           ++ data A));
              pc_colors :=
                Some (mk_nd [(list_sum (map row_count (rev (map snd clouds)))
                              + a)%nat; 3%nat]
                        (concat (map (@data Z) (rev (map snd clouds)))
                           ++ data CA)) |}.
Proof.
  induction 1 as [|[k v] [P C] items clouds [Hcloud (p & HP & HC)] _ IH];
    intros A CA a HA HCA.
  - destruct A as [shA dA], CA as [shC dC]. cbn in HA, HCA. subst.
    reflexivity.
  - cbn [fst snd] in *. cbn [visualize_depths_loop map].
    rewrite (visualize_depths_step_next
               (acc := {| pc_points := Some A; pc_colors := Some CA |})
               v eq_refl).
    rewrite Hcloud. cbn [obind pc_points pc_colors].
    rewrite (np_vstack_2d HP HA). cbn [obind].
    rewrite (np_vstack_2d HC HCA). cbn [obind].
    rewrite (IH (mk_nd [(p + a)%nat; 3%nat] (data P ++ data A))
               (mk_nd [(p + a)%nat; 3%nat] (data C ++ data CA))
               (p + a)%nat eq_refl eq_refl).
    cbn [data].
    now rewrite (@stacked_cons R P (map fst clouds) A p a HP HA),
      (@stacked_cons Z C (map snd clouds) CA p a HC HCA).
Qed.
End DepthsMoreFacts.

Arguments stacked_last {A P} l {p} _.

Section DepthsMoreClaims.
Local Open Scope R_scope.

(** X18. [visualize_depths] shows a scene only for a dictionary that is
    not empty and whose depth maps all have two dimensions: without an
    entry no points reach the actor, and the shape of every depth map is
    unpacked into a height and a width. *)
Theorem visualize_depths_needs_maps
    (uint8 : R -> Z)
    (kernel : ndarray R -> ndarray R -> ndarray R -> ndarray R ->
              option (ndarray R) -> option (ndarray Z) -> option pointcloud)
    (depths : list (string * vis_entry)) (intrinsics : option (ndarray R))
    (sc : scene) :
  visualize_depths uint8 kernel depths intrinsics = Some sc ->
  depths <> []
  /\ Forall (fun kv => exists h w, shape (vis_depth (snd kv)) = [h; w]) depths.
Proof.
  unfold visualize_depths. intros Hrun.
  obind_inv Hrun merged Eloop. obind_inv Hrun points Epoints.
  split.
  - intros ->. cbn [visualize_depths_loop] in Eloop.
    injection Eloop as <-. discriminate.
  - eapply visualize_depths_loop_2d; exact Eloop.
Qed.

Lemma visualize_depths_needs_maps_witness :
  exists sc,
    visualize_depths ViewSample.byte_of_real ViewSample.kernel
      ViewSample.depths None = Some sc
    /\ ViewSample.depths <> []
    /\ Forall (fun kv => exists h w, shape (vis_depth (snd kv)) = [h; w])
         ViewSample.depths.
Proof.
  assert (Hrun : exists sc,
             visualize_depths ViewSample.byte_of_real ViewSample.kernel
               ViewSample.depths None = Some sc)
    by (eexists; array_compute; reflexivity).
  destruct Hrun as [sc Hsc]. exists sc. split; [exact Hsc|].
  exact (@visualize_depths_needs_maps ViewSample.byte_of_real
           ViewSample.kernel ViewSample.depths None sc Hsc).
Defined.

(** X19. For any number of depth maps whose clouds are arrays of 3
    columns, the merged cloud is the clouds stacked in the reverse of the
    order of processing, points and colours alike, and its number of rows
    is the sum of theirs: no point is dropped or repeated. *)
Theorem visualize_depths_merges_in_reverse
    (uint8 : R -> Z)
    (kernel : ndarray R -> ndarray R -> ndarray R -> ndarray R ->
              option (ndarray R) -> option (ndarray Z) -> option pointcloud)
    (intrinsics : ndarray R)
    (items : list (string * vis_entry))
    (clouds : list (ndarray R * ndarray Z)) :
  items <> [] ->
  clouds_of uint8 kernel intrinsics items clouds ->
  visualize_depths_loop uint8 kernel intrinsics (np_eye 3) (np_zeros [3%nat])
    {| pc_points := None; pc_colors := None |} items
  = Some {| pc_points := Some (stacked_in_reverse (map fst clouds));
            pc_colors := Some (stacked_in_reverse (map snd clouds)) |}.
Proof.
  intros Hne Hclouds.
  destruct Hclouds as [|[k v] [P C] items clouds [Hcloud (p & HP & HC)] Hrest];
    [contradiction|].
  cbn [fst snd] in *. cbn [visualize_depths_loop map].
  rewrite (visualize_depths_step_first
             (acc := {| pc_points := None; pc_colors := None |}) v eq_refl).
  rewrite Hcloud. cbn [obind].
  erewrite visualize_depths_loop_stack; [|exact Hrest|exact HP|exact HC].
  now rewrite (stacked_last _ HP), (stacked_last _ HC).
Qed.

Lemma visualize_depths_merges_in_reverse_witness :
  exists clouds,
    clouds_of ViewSample.byte_of_real ViewSample.kernel default_intrinsics
      ViewSample.depths clouds
    /\ visualize_depths_loop ViewSample.byte_of_real ViewSample.kernel
         default_intrinsics (np_eye 3) (np_zeros [3%nat])
         {| pc_points := None; pc_colors := None |} ViewSample.depths
       = Some {| pc_points := Some (stacked_in_reverse (map fst clouds));
                 pc_colors := Some (stacked_in_reverse (map snd clouds)) |}.
Proof.
  destruct sample_first_cloud as (x1 & y1 & r1 & g1 & b1 & H1).
  destruct sample_second_cloud as (x2 & y2 & r2 & g2 & b2 & H2).
  assert (Hclouds :
            clouds_of ViewSample.byte_of_real ViewSample.kernel
              default_intrinsics ViewSample.depths
              [(mk_nd [1; 3]%nat [x1; y1; 1], mk_nd [1; 3]%nat [r1; g1; b1]);
               (mk_nd [1; 3]%nat [x2; y2; 2], mk_nd [1; 3]%nat [r2; g2; b2])]).
  { repeat constructor; cbn [fst snd]; try assumption;
      exists 1%nat; split; reflexivity. }
  eexists. split; [exact Hclouds|].
  apply (@visualize_depths_merges_in_reverse ViewSample.byte_of_real
           ViewSample.kernel default_intrinsics ViewSample.depths _);
    [discriminate | exact Hclouds].
Defined.
End DepthsMoreClaims.

Section BlockFacts.
Variable A : Type.

Lemma firstn_block (X Y : list A) n :
  length X = n -> firstn n (X ++ Y) = X.
Proof.
  intros <-. rewrite firstn_app, firstn_all, Nat.sub_diag, firstn_O.
  apply app_nil_r.
Qed.

Lemma skipn_block (X Y : list A) n :
  length X = n -> skipn n (X ++ Y) = Y.
Proof.
  intros <-. now rewrite skipn_app, skipn_all, Nat.sub_diag, skipn_O.
Qed.
End BlockFacts.

Arguments firstn_block {A X} Y {n} _.
Arguments skipn_block {A X} Y {n} _.

Section ImageFacts.
Local Open Scope R_scope.

(** [img[i, :, :] *= v] on the three planes of an image. *)
Lemma scale_plane_0 (h w : nat) (X Y Z : list R) (v : R) :
  length X = (h * w)%nat ->
  scale_plane (mk_nd [3; h; w]%nat (X ++ Y ++ Z)) 0 v
  = Some (mk_nd [3; h; w]%nat (map (fun x => x * v) X ++ Y ++ Z)).
Proof.
  intros HX. unfold scale_plane. cbn [shape data Nat.ltb Nat.leb].
  rewrite Nat.mul_0_l, Nat.mul_1_l. cbn [firstn skipn app].
  now rewrite (firstn_block _ HX), (skipn_block _ HX).
Qed.

Lemma scale_plane_1 (h w : nat) (X Y Z : list R) (v : R) :
  length X = (h * w)%nat -> length Y = (h * w)%nat ->
  scale_plane (mk_nd [3; h; w]%nat (X ++ Y ++ Z)) 1 v
  = Some (mk_nd [3; h; w]%nat (X ++ map (fun x => x * v) Y ++ Z)).
Proof.
  intros HX HY. unfold scale_plane. cbn [shape data Nat.ltb Nat.leb].
  rewrite Nat.mul_1_l.
  rewrite (firstn_block _ HX), (skipn_block _ HX), (firstn_block _ HY).
  do 3 f_equal.
  replace (2 * (h * w))%nat with (length (X ++ Y))
    by (rewrite length_app; lia).
  rewrite app_assoc. f_equal. now apply skipn_block.
Qed.

Lemma scale_plane_2 (h w : nat) (X Y Z : list R) (v : R) :
  length X = (h * w)%nat -> length Y = (h * w)%nat ->
  length Z = (h * w)%nat ->
  scale_plane (mk_nd [3; h; w]%nat (X ++ Y ++ Z)) 2 v
  = Some (mk_nd [3; h; w]%nat (X ++ Y ++ map (fun x => x * v) Z)).
Proof.
  intros HX HY HZ. unfold scale_plane. cbn [shape data Nat.ltb Nat.leb].
  assert (HXY : length (X ++ Y) = (2 * (h * w))%nat)
    by (rewrite length_app; lia).
  assert (F1 : firstn (2 * (h * w)) (X ++ Y ++ Z) = X ++ Y)
    by (rewrite app_assoc; now apply firstn_block).
  assert (F2 : skipn (2 * (h * w)) (X ++ Y ++ Z) = Z)
    by (rewrite app_assoc; now apply skipn_block).
  assert (F3 : firstn (h * w) Z = Z) by (apply firstn_all2; lia).
  assert (F4 : skipn (3 * (h * w)) (X ++ Y ++ Z) = [])
    by (apply skipn_all2; rewrite !length_app; lia).
  rewrite F1, F2, F3, F4. now rewrite app_nil_r, <- app_assoc.
Qed.

Lemma ones_planes (h w : nat) :
  np_ones [3; h; w]%nat
  = mk_nd [3; h; w]%nat
      (repeat 1 (h * w) ++ repeat 1 (h * w) ++ repeat 1 (h * w)).
Proof.
  unfold np_ones, np_full. f_equal. rewrite <- !repeat_app. f_equal.
  unfold size; simpl. lia.
Qed.
End ImageFacts.

Section ImageClaims.
Local Open Scope R_scope.

(** X20. The colour image of an entry: without a colour every byte is
    the conversion of [1 * 255]; with a colour of one dimension, the
    three planes of the image are filled with the conversions of its
    first three elements, one per plane, and its further elements are
    ignored. *)
Theorem entry_image_fills_planes (uint8 : R -> Z) (v : vis_entry) (h w : nat) :
  (vis_color v = None ->
   entry_image uint8 v h w
   = Some (mk_nd [3; h; w]%nat (repeat (uint8 (1 * 255)) (3 * (h * w)))))
  /\ (forall color n c0 c1 c2 rest,
        vis_color v = Some color -> shape color = [n] -> (3 <= n)%nat ->
        data color = c0 :: c1 :: c2 :: rest ->
        entry_image uint8 v h w
        = Some (mk_nd [3; h; w]%nat
                  (repeat (uint8 (1 * c0)) (h * w)
                     ++ repeat (uint8 (1 * c1)) (h * w)
                     ++ repeat (uint8 (1 * c2)) (h * w)))).
Proof.
  split.
  - intros Hnone. unfold entry_image. rewrite Hnone. cbn [obind shape data].
    rewrite ones_planes. cbn [shape data]. do 2 f_equal.
    rewrite !map_app, !map_map, !map_repeat, <- !repeat_app. f_equal. lia.
  - intros color n c0 c1 c2 rest Hcol Hsh Hn Hd.
    unfold entry_image, ndim. rewrite Hcol, Hsh. cbn [length Nat.eqb].
    assert (Hget : forall i x, (i < 3)%nat ->
               nth_error (c0 :: c1 :: c2 :: rest) i = Some x ->
               np_get color i = Some x).
    { intros i x Hi Hx. unfold np_get. rewrite Hsh, Hd.
      replace (i <? n)%nat with true by (symmetry; apply Nat.ltb_lt; lia).
      exact Hx. }
    rewrite (Hget 0%nat c0), (Hget 1%nat c1), (Hget 2%nat c2)
      by (try lia; reflexivity).
    rewrite ones_planes. cbn [obind].
    rewrite scale_plane_0 by apply repeat_length. cbn [obind].
    rewrite scale_plane_1 by (rewrite ?length_map; apply repeat_length).
    cbn [obind].
    rewrite scale_plane_2 by (rewrite ?length_map; apply repeat_length).
    cbn [obind shape data]. do 2 f_equal.
    now rewrite !map_app, !map_map, !map_repeat.
Qed.

Lemma entry_image_fills_planes_witness :
  entry_image ViewSample.byte_of_real ViewSample.second_map 1 1
  = Some (mk_nd [3; 1; 1]%nat
            (repeat (ViewSample.byte_of_real (1 * 255)) (3 * (1 * 1))))
  /\ entry_image ViewSample.byte_of_real ViewSample.first_map 1 1
     = Some (mk_nd [3; 1; 1]%nat
               (repeat (ViewSample.byte_of_real (1 * 255)) (1 * 1)
                  ++ repeat (ViewSample.byte_of_real (1 * 0)) (1 * 1)
                  ++ repeat (ViewSample.byte_of_real (1 * 0)) (1 * 1))).
Proof.
  split.
  - exact (proj1 (@entry_image_fills_planes ViewSample.byte_of_real
                    ViewSample.second_map 1 1) eq_refl).
  - exact (proj2 (@entry_image_fills_planes ViewSample.byte_of_real
                    ViewSample.first_map 1 1)
             (mk_nd [3%nat] [255; 0; 0]) 3%nat 255 0 0 []
             eq_refl eq_refl (le_n 3) eq_refl).
Defined.

(** X21. The camera matrix of an image of [h] rows and [w] columns has
    the focal lengths on its diagonal and the principal point in its last
    column, scaled by the width and the height, and no other entry off the
    identity; intrinsics of more than 4 elements are cut, and intrinsics
    of fewer than 4 are an error. *)
Theorem camera_matrix_entries (intrinsics : ndarray R) (n h w : nat) :
  shape intrinsics = [n] ->
  (forall i0 i1 i2 i3 rest,
     (4 <= n)%nat -> data intrinsics = i0 :: i1 :: i2 :: i3 :: rest ->
     camera_matrix intrinsics h w
     = Some (mk_nd [3; 3]%nat
               [i0 * INR w; 0;          i2 * INR w;
                0;          i1 * INR h; i3 * INR h;
                0;          0;          1]))
  /\ ((n < 4)%nat -> camera_matrix intrinsics h w = None).
Proof.
  intros Hsh. split.
  - intros i0 i1 i2 i3 rest Hn Hd.
    assert (Hget : forall i x, (i < 4)%nat ->
               nth_error (i0 :: i1 :: i2 :: i3 :: rest) i = Some x ->
               np_get intrinsics i = Some x).
    { intros i x Hi Hx. unfold np_get. rewrite Hsh, Hd.
      replace (i <? n)%nat with true by (symmetry; apply Nat.ltb_lt; lia).
      exact Hx. }
    unfold camera_matrix.
    rewrite (Hget 0%nat i0), (Hget 1%nat i1), (Hget 2%nat i2),
      (Hget 3%nat i3) by (try lia; reflexivity).
    reflexivity.
  - intros Hn. unfold camera_matrix.
    assert (H3 : np_get intrinsics 3 = None).
    { unfold np_get. rewrite Hsh.
      now replace (3 <? n)%nat with false by (symmetry; apply Nat.ltb_ge; lia). }
    rewrite H3.
    repeat match goal with
           | |- context [obind ?m _] =>
               is_var m || (destruct m; cbn [obind]; try reflexivity)
           end.
Qed.

Lemma camera_matrix_entries_witness :
  camera_matrix default_intrinsics 2 2
  = Some (mk_nd [3; 3]%nat
            [0.89115971 * INR 2; 0; 0.5 * INR 2;
             0; 1.18821287 * INR 2; 0.5 * INR 2;
             0; 0; 1]).
Proof.
  exact (proj1 (@camera_matrix_entries default_intrinsics 4 2 2 eq_refl)
           0.89115971 1.18821287 0.5 0.5 [] (le_n 4) eq_refl).
Defined.
End ImageClaims.

Section PredictionMoreClaims.
Local Open Scope R_scope.

(** X22. [visualize_prediction] squeezes the depth map before it reads
    its height and width: a depth map with a single row or a single
    column loses that axis and is an error, whatever the other arguments
    are. *)
Theorem visualize_prediction_flat_depth_fails
    (uninit : R) (uint8 : R -> Z)
    (kernel : ndarray R -> ndarray R -> ndarray R -> ndarray R ->
              option (ndarray R) -> option (ndarray Z) -> option pointcloud)
    (depth : ndarray R)
    (intrinsics normals rotation translation image : option (ndarray R))
    (h w : nat) :
  shape depth = [h; w] -> (h = 1 \/ w = 1)%nat ->
  visualize_prediction uninit uint8 kernel depth intrinsics normals rotation
    translation image = None.
Proof.
  intros Hsh Hflat. unfold visualize_prediction, np_squeeze.
  rewrite Hsh. cbn [shape filter].
  destruct Hflat as [-> | ->]; cbn [Nat.eqb negb].
  - destruct (negb (w =? 1)%nat); reflexivity.
  - destruct (negb (h =? 1)%nat); reflexivity.
Qed.

Lemma visualize_prediction_flat_depth_fails_witness :
  visualize_prediction 7 ViewSample.byte_of_real ViewSample.kernel
    (mk_nd [1; 2]%nat [1; 1]) None None None None None = None.
Proof.
  apply (@visualize_prediction_flat_depth_fails 7 ViewSample.byte_of_real
           ViewSample.kernel (mk_nd [1; 2]%nat [1; 1]) None None None None
           None 1 2); [reflexivity | left; reflexivity].
Defined.

(** X23. A zero pose gives the view without a pose: with a rotation and
    a translation that both squeeze to three zeros, [visualize_prediction]
    does what it does when neither is supplied. *)
Theorem visualize_prediction_zero_pose
    (uninit : R) (uint8 : R -> Z)
    (kernel : ndarray R -> ndarray R -> ndarray R -> ndarray R ->
              option (ndarray R) -> option (ndarray Z) -> option pointcloud)
    (depth : ndarray R) (intrinsics normals image : option (ndarray R))
    (rotation translation : ndarray R) :
  np_squeeze rotation = np_zeros [3%nat] ->
  np_squeeze translation = np_zeros [3%nat] ->
  visualize_prediction uninit uint8 kernel depth intrinsics normals
    (Some rotation) (Some translation) image
  = visualize_prediction uninit uint8 kernel depth intrinsics normals None
      None image.
Proof.
  intros Hrot Htr. unfold visualize_prediction. rewrite Hrot, Htr.
  change (@np_zeros R _ [3%nat]) with (mk_nd [3%nat] [0; 0; 0]).
  rewrite angleaxis_run.
  destruct (Rlt_dec 1e-6 (euclidean_norm (mk_nd [3%nat] [0; 0; 0])))
    as [Hlt|_]; [pose proof zero_vector_norm; lra|].
  reflexivity.
Qed.

Lemma visualize_prediction_zero_pose_witness :
  visualize_prediction 7 ViewSample.byte_of_real ViewSample.kernel
    ViewSample.depth None None
    (Some (mk_nd [1; 3]%nat [0; 0; 0])) (Some (mk_nd [1; 3]%nat [0; 0; 0]))
    None
  = visualize_prediction 7 ViewSample.byte_of_real ViewSample.kernel
      ViewSample.depth None None None None None.
Proof.
  apply (@visualize_prediction_zero_pose 7 ViewSample.byte_of_real
           ViewSample.kernel ViewSample.depth None None None
           (mk_nd [1; 3]%nat [0; 0; 0]) (mk_nd [1; 3]%nat [0; 0; 0]));
    reflexivity.
Defined.
End PredictionMoreClaims.

(** ** [angleaxis_to_rotation_matrix] in binary64 arithmetic *)

Section Binary64Facts.
Variables cos sin : Binary64.float -> Binary64.float.
Variable ddot : list Binary64.float -> list Binary64.float -> Binary64.float.
Variable uninit : Binary64.float.

Local Abbreviation run :=
  (Binary64.angleaxis_to_rotation_matrix cos sin ddot uninit).

(** The test of line 31, for a 1-d array of any length. *)
Lemma angleaxis_branch (aa : ndarray Binary64.float) (n : nat) :
  shape aa = [n] ->
  Binary64.gtb (Binary64.computed_norm ddot aa) Binary64.lit_1em6 = false ->
  run aa = (0%nat, Some (np_eye 3)).
Proof.
  intros Hsh Hsmall. unfold Binary64.angleaxis_to_rotation_matrix.
  unfold Binary64.np_dot. rewrite Hsh, Nat.eqb_refl.
  cbn [obind Binary64.np_sqrt np_item shape data map elift ebind].
  unfold Binary64.computed_norm in Hsmall. rewrite Hsmall.
  reflexivity.
Qed.

Lemma angleaxis_run_b64 (x y z : Binary64.float) :
  let aa := mk_nd [3%nat] [x; y; z] in
  let angle := Binary64.computed_norm ddot aa in
  run aa
  = if Binary64.gtb angle Binary64.lit_1em6
    then (3%nat,
          Some (Binary64.rodrigues_matrix (cos angle) (sin angle)
                  (Binary64.div x angle) (Binary64.div y angle)
                  (Binary64.div z angle)))
    else (0%nat, Some (np_eye 3)).
Proof.
  intros aa angle.
  destruct (Binary64.gtb angle Binary64.lit_1em6) eqn:E.
  - unfold Binary64.angleaxis_to_rotation_matrix, Binary64.np_dot.
    cbn [aa shape data Nat.eqb obind Binary64.np_sqrt np_item map elift
         ebind].
    change (Binary64.sqrt (ddot [x; y; z] [x; y; z])) with angle.
    rewrite E. reflexivity.
  - exact (@angleaxis_branch aa 3 eq_refl E).
Qed.

Lemma vector3_inv_b64 (aa : ndarray Binary64.float) :
  shape aa = [3%nat] -> wf aa ->
  exists x y z, aa = mk_nd [3%nat] [x; y; z].
Proof.
  destruct aa as [sh d]; unfold wf; simpl. intros -> Hd.
  destruct d as [|x [|y [|z [|? ?]]]]; try discriminate.
  now exists x, y, z.
Qed.

(** The run on any vector of 3 elements. *)
Lemma angleaxis_run_vector (aa : ndarray Binary64.float) :
  shape aa = [3%nat] -> wf aa ->
  let angle := Binary64.computed_norm ddot aa in
  run aa
  = if Binary64.gtb angle Binary64.lit_1em6
    then (3%nat,
          Some (Binary64.rodrigues_matrix (cos angle) (sin angle)
                  (Binary64.div (nth 0 (data aa) Binary64.zero) angle)
                  (Binary64.div (nth 1 (data aa) Binary64.zero) angle)
                  (Binary64.div (nth 2 (data aa) Binary64.zero) angle)))
    else (0%nat, Some (np_eye 3)).
Proof.
  intros Hsh Hwf. destruct (vector3_inv_b64 Hsh Hwf) as (x & y & z & ->).
  exact (angleaxis_run_b64 x y z).
Qed.
End Binary64Facts.

(** ** The threshold, and two vectors next to it *)

Section ThresholdFacts.
Local Open Scope R_scope.

(** The literal is the quotient of 1 by 10^6, rounded: the binary64
    number nearest to 10^-6. *)
Lemma lit_1em6_nearest :
  Binary64.div (Binary64.of_Z 1) (Binary64.of_Z 1000000) = Binary64.lit_1em6.
Proof. vm_compute. reflexivity. Qed.

(** It lies under 10^-6, and the next binary64 number lies over it. *)
Lemma lit_1em6_bracket :
  Binary64.exact Binary64.lit_1em6 < 1e-6
  /\ 1e-6 < Binary64.exact Binary64.next_1em6.
Proof.
  unfold Binary64.exact, Binary64.lit_1em6, Binary64.next_1em6.
  cbn [Z.ltb Z.compare Z.opp].
  change (2 ^ 72)%Z with 4722366482869645213696%Z.
  split; lra.
Qed.

Lemma sqrt_le_bound (s b : R) : 0 <= b -> s <= b * b -> sqrt s <= b.
Proof.
  intros Hb Hs. rewrite <- (sqrt_square b Hb). now apply sqrt_le_1_alt.
Qed.

Lemma sqrt_gt_bound (s b : R) : 0 <= b -> b * b < s -> b < sqrt s.
Proof.
  intros Hb Hs. rewrite <- (sqrt_square b Hb) at 1.
  apply sqrt_lt_1_alt. split; [nra | exact Hs].
Qed.

(** The exact norm of [below] is at most 10^-6. *)
Lemma below_exact_norm :
  euclidean_norm (Binary64.np_exact Binary64.below) <= 1e-6.
Proof.
  unfold euclidean_norm, Binary64.np_exact, Binary64.below, Binary64.exact.
  cbn [data map fold_right Binary64.zero Z.ltb Z.compare Z.opp].
  change (2 ^ 72)%Z with 4722366482869645213696%Z.
  change (2 ^ 75)%Z with 37778931862957161709568%Z.
  apply sqrt_le_bound; lra.
Qed.

(** The exact norm of [above] is more than 10^-6. *)
Lemma above_exact_norm :
  1e-6 < euclidean_norm (Binary64.np_exact Binary64.above).
Proof.
  unfold euclidean_norm, Binary64.np_exact, Binary64.above, Binary64.exact.
  cbn [data map fold_right Binary64.zero Z.ltb Z.compare Z.opp].
  change (2 ^ 73)%Z with 9444732965739290427392%Z.
  apply sqrt_gt_bound; lra.
Qed.

(** What the loops compute for the two vectors. *)
Lemma below_computed_norm (k : list Binary64.float -> list Binary64.float
                               -> Binary64.float) :
  In k [Binary64.ddot_forward; Binary64.ddot_backward; Binary64.ddot_fused] ->
  Binary64.computed_norm k Binary64.below = Binary64.next_1em6.
Proof.
  intros [<- | [<- | [<- | []]]]; vm_compute; reflexivity.
Qed.

Lemma above_computed_norm (k : list Binary64.float -> list Binary64.float
                               -> Binary64.float) :
  In k Binary64.kernels ->
  Binary64.computed_norm k Binary64.above = Binary64.lit_1em6.
Proof.
  intros [<- | [<- | [<- | [<- | []]]]]; vm_compute; reflexivity.
Qed.
End ThresholdFacts.

Section Binary64Claims.

(** C3, as amended.  For every float64 vector of 3 elements whose norm as
    line 29 computes it, the rounded square root of the inner product, is
    not above the float [1e-6], [angleaxis_to_rotation_matrix] performs
    no division and returns exactly the 3 x 3 identity matrix, whatever
    the inner-product routine and the cosine and sine of the library are;
    and it returns a matrix, with no error, for every vector of 3
    elements. *)
Theorem angleaxis_small_angle_identity
    (cos sin : Binary64.float -> Binary64.float)
    (ddot : list Binary64.float -> list Binary64.float -> Binary64.float)
    (uninit : Binary64.float) (aa : ndarray Binary64.float) :
  shape aa = [3%nat] -> wf aa ->
  (Binary64.gtb (Binary64.computed_norm ddot aa) Binary64.lit_1em6 = false ->
   divisions (Binary64.angleaxis_to_rotation_matrix cos sin ddot uninit aa)
   = 0%nat
   /\ outcome (Binary64.angleaxis_to_rotation_matrix cos sin ddot uninit aa)
      = Some (np_eye 3))
  /\ exists M,
       outcome (Binary64.angleaxis_to_rotation_matrix cos sin ddot uninit aa)
       = Some M.
Proof.
  intros Hsh Hwf. split.
  - intros Hsmall. rewrite (@angleaxis_branch cos sin ddot uninit aa _ Hsh Hsmall).
    split; reflexivity.
  - destruct (vector3_inv_b64 Hsh Hwf) as (x & y & z & ->).
    rewrite angleaxis_run_b64.
    destruct (Binary64.gtb _ _); eexists; reflexivity.
Qed.

Lemma angleaxis_small_angle_identity_witness :
  let run :=
    Binary64.angleaxis_to_rotation_matrix Binary64.cos_series
      Binary64.sin_series Binary64.ddot_forward Binary64.zero in
  Binary64.gtb (Binary64.computed_norm Binary64.ddot_forward Binary64.above)
    Binary64.lit_1em6 = false
  /\ divisions (run Binary64.above) = 0%nat
  /\ outcome (run Binary64.above) = Some (np_eye 3)
  /\ exists M, outcome (run Binary64.above) = Some M.
Proof.
  intros run.
  assert (Hsmall :
            Binary64.gtb
              (Binary64.computed_norm Binary64.ddot_forward Binary64.above)
              Binary64.lit_1em6 = false) by (vm_compute; reflexivity).
  destruct (@angleaxis_small_angle_identity Binary64.cos_series
              Binary64.sin_series Binary64.ddot_forward Binary64.zero
              Binary64.above eq_refl eq_refl) as [Hid Hsome].
  destruct (Hid Hsmall) as [Hdiv Hout].
  split; [exact Hsmall|]. split; [exact Hdiv|].
  split; [exact Hout | exact Hsome].
Defined.

(** C3, as the specification states it (for the Euclidean norm of the
    vector), fails for the vector [below]: its norm is under 10^-6, but
    the norm that the code computes is the float after [1e-6], with the
    products summed in either order and with the fused loop.  The code
    then divides three times, and what it returns is the identity only
    if the cosine of the library is exactly 1 there. *)
Lemma angleaxis_exact_norm_counterexample :
  let aa := Binary64.below in
  shape aa = [3%nat] /\ wf aa
  /\ (euclidean_norm (Binary64.np_exact aa) <= 1e-6)%R
  /\ forall ddot,
       In ddot [Binary64.ddot_forward; Binary64.ddot_backward;
                Binary64.ddot_fused] ->
       forall cos sin uninit,
         divisions (Binary64.angleaxis_to_rotation_matrix cos sin ddot uninit
                      aa) = 3%nat
         /\ (outcome (Binary64.angleaxis_to_rotation_matrix cos sin ddot
                        uninit aa) = Some (np_eye 3) ->
             cos Binary64.next_1em6 = Binary64.one).
Proof.
  intros aa. split; [reflexivity|]. split; [reflexivity|].
  split; [exact below_exact_norm|].
  intros ddot Hk cos sin uninit.
  pose proof (@below_computed_norm ddot Hk) as Hn.
  unfold aa.
  rewrite (@angleaxis_run_vector cos sin ddot uninit Binary64.below eq_refl
             eq_refl).
  cbv zeta. rewrite Hn.
  change (Binary64.gtb Binary64.next_1em6 Binary64.lit_1em6) with true.
  cbv iota.
  split; [reflexivity|].
  unfold outcome, snd. intros Heq.
  apply (f_equal (fun o => match o with
                           | Some M => nth 8 (data M) Binary64.zero
                           | None => Binary64.zero
                           end)) in Heq.
  change (@np_eye Binary64.float _ 3)
    with (mk_nd [3; 3]%nat
            [Binary64.one; Binary64.zero; Binary64.zero;
             Binary64.zero; Binary64.one; Binary64.zero;
             Binary64.zero; Binary64.zero; Binary64.one]) in Heq.
  unfold Binary64.rodrigues_matrix in Heq. cbn [nth data] in Heq.
  rename Heq into H22.
  change (nth 2 (data Binary64.below) Binary64.zero)
    with Binary64.zero in H22.
  change (Binary64.div Binary64.zero Binary64.next_1em6)
    with Binary64.zero in H22.
  change (Binary64.mul Binary64.zero Binary64.zero)
    with Binary64.zero in H22.
  set (c := cos Binary64.next_1em6) in *. clearbody c.
  destruct (Binary64.sub Binary64.one c) as [s1|s1| |s1 m1 e1];
    destruct c as [s|s| |s m e];
    cbv [Binary64.add Binary64.mul Binary64.zero SpecFloat.SFadd
         SpecFloat.SFmul xorb] in H22;
    try discriminate H22;
    try (destruct s, s1; discriminate H22); exact H22.
Qed.

(** C2, as amended.  For every float64 vector [aa] of 3 elements whose
    norm as line 29 computes it is above the float [1e-6], the matrix
    returned has the diagonal entries [c + u i * u i * (1 - c)] and the
    off-diagonal entries [u i * u j * (1 - c) - u k * s] when [(i, j, k)]
    is an even permutation of [(0, 1, 2)] and
    [u i * u j * (1 - c) + u k * s] when it is odd, for [c] the cosine
    and [s] the sine of the computed norm and [u] the vector divided by
    it, every operation rounded to binary64 and taken from left to
    right. *)
Theorem angleaxis_rodrigues_entries
    (cos sin : Binary64.float -> Binary64.float)
    (ddot : list Binary64.float -> list Binary64.float -> Binary64.float)
    (uninit : Binary64.float) (aa : ndarray Binary64.float) :
  shape aa = [3%nat] -> wf aa ->
  Binary64.gtb (Binary64.computed_norm ddot aa) Binary64.lit_1em6 = true ->
  exists M,
    Binary64.angleaxis_to_rotation_matrix cos sin ddot uninit aa
    = (3%nat, Some M)
    /\ shape M = [3; 3]%nat
    /\ Binary64.has_rodrigues_entries cos sin ddot false aa M.
Proof.
  intros Hsh Hwf Hbig.
  rewrite (@angleaxis_run_vector cos sin ddot uninit aa Hsh Hwf).
  cbv zeta. rewrite Hbig.
  eexists. split; [reflexivity|]. split; [reflexivity|].
  intros i j Hi Hj.
  destruct i as [|[|[|i]]]; [| | |lia];
    (destruct j as [|[|[|j]]]; [| | |lia]); reflexivity.
Qed.

Lemma angleaxis_rodrigues_entries_witness :
  let aa := mk_nd [3%nat] [Binary64.zero; Binary64.zero; Binary64.one] in
  let run :=
    Binary64.angleaxis_to_rotation_matrix Binary64.cos_series
      Binary64.sin_series Binary64.ddot_forward Binary64.zero in
  Binary64.gtb (Binary64.computed_norm Binary64.ddot_forward aa)
    Binary64.lit_1em6 = true
  /\ exists M,
       run aa = (3%nat, Some M)
       /\ shape M = [3; 3]%nat
       /\ Binary64.has_rodrigues_entries Binary64.cos_series
            Binary64.sin_series Binary64.ddot_forward false aa M.
Proof.
  intros aa run.
  assert (Hbig :
            Binary64.gtb (Binary64.computed_norm Binary64.ddot_forward aa)
              Binary64.lit_1em6 = true) by (vm_compute; reflexivity).
  split; [exact Hbig|].
  exact (@angleaxis_rodrigues_entries Binary64.cos_series
           Binary64.sin_series Binary64.ddot_forward Binary64.zero aa
           eq_refl eq_refl Hbig).
Defined.

(** X24. The branch is taken on the computed norm, not on the Euclidean
    norm: the Euclidean norm of the vector [above] is over 10^-6, but the
    norm that the code computes is the float [1e-6] with each of the four
    loops, and the code returns the identity matrix without dividing,
    whatever the cosine and the sine of the library are. *)
Lemma angleaxis_identity_above_threshold :
  let aa := Binary64.above in
  shape aa = [3%nat] /\ wf aa
  /\ (1e-6 < euclidean_norm (Binary64.np_exact aa))%R
  /\ forall ddot, In ddot Binary64.kernels ->
     forall cos sin uninit,
       Binary64.angleaxis_to_rotation_matrix cos sin ddot uninit aa
       = (0%nat, Some (np_eye 3)).
Proof.
  intros aa. split; [reflexivity|]. split; [reflexivity|].
  split; [exact above_exact_norm|].
  intros ddot Hk cos sin uninit.
  apply (@angleaxis_branch cos sin ddot uninit aa 3 eq_refl).
  unfold aa. rewrite (@above_computed_norm ddot Hk). reflexivity.
Qed.

(** X8. The length of the vector is not checked: a 1-d float64 array of
    any length, the empty array included, whose computed norm is not
    above the float [1e-6] gives the identity matrix, and no division is
    made. *)
Theorem angleaxis_small_any_length
    (cos sin : Binary64.float -> Binary64.float)
    (ddot : list Binary64.float -> list Binary64.float -> Binary64.float)
    (uninit : Binary64.float) (aa : ndarray Binary64.float) (n : nat) :
  shape aa = [n] ->
  Binary64.gtb (Binary64.computed_norm ddot aa) Binary64.lit_1em6 = false ->
  Binary64.angleaxis_to_rotation_matrix cos sin ddot uninit aa
  = (0%nat, Some (np_eye 3)).
Proof.
  intros Hsh Hsmall.
  exact (@angleaxis_branch cos sin ddot uninit aa n Hsh Hsmall).
Qed.

Lemma angleaxis_small_any_length_witness :
  Binary64.angleaxis_to_rotation_matrix Binary64.cos_series
    Binary64.sin_series Binary64.ddot_forward Binary64.zero
    (mk_nd [5%nat] (repeat Binary64.zero 5))
  = (0%nat, Some (np_eye 3))
  /\ Binary64.angleaxis_to_rotation_matrix Binary64.cos_series
       Binary64.sin_series Binary64.ddot_forward Binary64.zero
       (mk_nd [0%nat] [])
     = (0%nat, Some (np_eye 3)).
Proof.
  split.
  - apply (@angleaxis_small_any_length Binary64.cos_series
             Binary64.sin_series Binary64.ddot_forward Binary64.zero
             (mk_nd [5%nat] (repeat Binary64.zero 5)) 5);
      [reflexivity | vm_compute; reflexivity].
  - apply (@angleaxis_small_any_length Binary64.cos_series
             Binary64.sin_series Binary64.ddot_forward Binary64.zero
             (mk_nd [0%nat] []) 0);
      [reflexivity | vm_compute; reflexivity].
Defined.

(** X9. A 1-d float64 array of fewer than 3 elements whose computed norm
    is above the float [1e-6] is an error: the missing component is
    read. *)
Theorem angleaxis_short_vector_fails
    (cos sin : Binary64.float -> Binary64.float)
    (ddot : list Binary64.float -> list Binary64.float -> Binary64.float)
    (uninit : Binary64.float) (aa : ndarray Binary64.float) (n : nat) :
  shape aa = [n] -> wf aa -> (n < 3)%nat ->
  Binary64.gtb (Binary64.computed_norm ddot aa) Binary64.lit_1em6 = true ->
  outcome (Binary64.angleaxis_to_rotation_matrix cos sin ddot uninit aa)
  = None.
Proof.
  intros Hsh Hwf Hn Hbig.
  destruct aa as [sh d]. unfold wf in Hwf. simpl in Hsh, Hwf. subst sh.
  unfold Binary64.computed_norm in Hbig. cbn [data] in Hbig.
  unfold Binary64.angleaxis_to_rotation_matrix, Binary64.np_dot.
  cbn [shape data]. rewrite Nat.eqb_refl.
  cbn [obind Binary64.np_sqrt np_item shape data map elift ebind].
  rewrite Hbig.
  destruct n as [|[|[|n]]]; [| | |lia];
    [destruct d as [|? ?]; [|discriminate Hwf]
    |destruct d as [|x [|? ?]]; try discriminate Hwf
    |destruct d as [|x [|y [|? ?]]]; try discriminate Hwf];
    reflexivity.
Qed.

Lemma angleaxis_short_vector_fails_witness :
  outcome (Binary64.angleaxis_to_rotation_matrix Binary64.cos_series
             Binary64.sin_series Binary64.ddot_forward Binary64.zero
             (mk_nd [2%nat] [Binary64.one; Binary64.zero]))
  = None.
Proof.
  apply (@angleaxis_short_vector_fails Binary64.cos_series
           Binary64.sin_series Binary64.ddot_forward Binary64.zero
           (mk_nd [2%nat] [Binary64.one; Binary64.zero]) 2);
    [reflexivity | reflexivity | lia | vm_compute; reflexivity].
Defined.
End Binary64Claims.
